(** * todo-app: the Task entity, the TaskRepository and the TaskService

    A shallow embedding of [src/models/Task.js], of the repository class
    [TaskRepository] and of [src/services/TaskService.js], followed by the
    properties of the specification that were checked against them.

    Conventions of the embedding.
    - A JavaScript string is a [string]; every character stands for one
      UTF-16 code unit of the Latin-1 range.
    - A JavaScript number that the program stores or compares is an integer
      ([Z]); the two quotients the program computes (the completion rates)
      are evaluated in IEEE 754 binary64 through [SpecFloat].
    - Values are first-order: an array or an object used as a [Map] key is
      compared by its content.
    - Exceptions are values of [Exn], one constructor per [throw] site.
    - The mutable world (the repository's private [#tasks] map, the
      [localStorage] blob store, the source of random UUIDs) is threaded
      explicitly by the monad [M].  [JSON], the clock and the verdict of the
      storage on a write are parameters of the world; the clock reads a
      positive number of milliseconds.
    - A check on the type of an argument ([instanceof Task],
      [Array.isArray], [typeof predicate]) that the typing of the embedding
      decides is not repeated.
    - The filter and sort tables of the service ([getTasks],
      [getTasksSorted]) and the console output are not embedded. *)

From Stdlib Require Import ZArith NArith PArith Bool List String Ascii Lia.
From Stdlib Require Import Permutation DecimalString SpecFloat.
Import ListNotations.

Set Warnings "-register-all".

Local Open Scope string_scope.
Local Open Scope Z_scope.

(* ================================================================== *)
(** * JavaScript values *)

Inductive JSValue : Type :=
| JUndefined
| JNull
| JBool (b : bool)
| JNum (n : Z)
| JStr (s : string)
| JArr (items : list JSValue)
| JObj (props : list (string * JSValue)).

(** [ToBoolean]: what [!v], [v || w] and [Boolean(v)] test. *)
Definition truthy (v : JSValue) : bool :=
  match v with
  | JUndefined | JNull => false
  | JBool b => b
  | JNum n => negb (n =? 0)
  | JStr s => match s with EmptyString => false | String _ _ => true end
  | JArr _ | JObj _ => true
  end.

(** Structural equality of values; on the primitive values it is the
    [SameValueZero] comparison that [Map] uses for its keys and the [===]
    comparison. *)
Fixpoint JSValue_eqb (x y : JSValue) {struct x} : bool :=
  match x, y with
  | JUndefined, JUndefined => true
  | JNull, JNull => true
  | JBool a, JBool b => Bool.eqb a b
  | JNum a, JNum b => a =? b
  | JStr a, JStr b => String.eqb a b
  | JArr a, JArr b =>
      (fix all2 (l : list JSValue) (m : list JSValue) {struct l} : bool :=
         match l, m with
         | [], [] => true
         | v :: l', w :: m' => JSValue_eqb v w && all2 l' m'
         | _, _ => false
         end) a b
  | JObj a, JObj b =>
      (fix all2 (l : list (string * JSValue)) (m : list (string * JSValue))
           {struct l} : bool :=
         match l, m with
         | [], [] => true
         | (k, v) :: l', (k', w) :: m' =>
             String.eqb k k' && JSValue_eqb v w && all2 l' m'
         | _, _ => false
         end) a b
  | _, _ => false
  end.

(** Property read [o.name] on a value that is not [null] or [undefined]:
    a plain object answers from its own properties; the primitive values and
    the arrays have none of the names the program reads. *)
Fixpoint lookup_prop (name : string) (props : list (string * JSValue)) : JSValue :=
  match props with
  | [] => JUndefined
  | (k, v) :: rest => if String.eqb k name then v else lookup_prop name rest
  end.

Definition get_prop (o : JSValue) (name : string) : JSValue :=
  match o with
  | JObj props => lookup_prop name props
  | _ => JUndefined
  end.

(** A parameter default [name = d] of a destructuring pattern: the default
    replaces [undefined] only. *)
Definition with_default (v d : JSValue) : JSValue :=
  match v with JUndefined => d | _ => v end.

(* ================================================================== *)
(** * Strings: [trim], [toLowerCase], [includes] *)

(** White space and line terminators of the Latin-1 range, as
    [String.prototype.trim] strips them: TAB, LF, VT, FF, CR, SP, NBSP. *)
Definition is_whitespace (c : ascii) : bool :=
  let n := nat_of_ascii c in
  (Nat.leb 9 n && Nat.leb n 13) || Nat.eqb n 32 || Nat.eqb n 160.

Fixpoint trimStart (s : string) : string :=
  match s with
  | EmptyString => EmptyString
  | String c r => if is_whitespace c then trimStart r else s
  end.

Fixpoint trimEnd (s : string) : string :=
  match s with
  | EmptyString => EmptyString
  | String c r =>
      match trimEnd r with
      | EmptyString => if is_whitespace c then EmptyString else String c EmptyString
      | r' => String c r'
      end
  end.

Definition trim (s : string) : string := trimEnd (trimStart s).

(** [toLowerCase] on one code unit: A-Z, and the capital letters of Latin-1
    (U+00C0 to U+00DE except the multiplication sign U+00D7). *)
Definition lower_char (c : ascii) : ascii :=
  let n := nat_of_ascii c in
  if (Nat.leb 65 n && Nat.leb n 90)
     || (Nat.leb 192 n && Nat.leb n 222 && negb (Nat.eqb n 215))
  then ascii_of_nat (n + 32) else c.

Fixpoint toLowerCase (s : string) : string :=
  match s with
  | EmptyString => EmptyString
  | String c r => String (lower_char c) (toLowerCase r)
  end.

Fixpoint startsWith (s p : string) {struct p} : bool :=
  match p, s with
  | EmptyString, _ => true
  | String _ _, EmptyString => false
  | String a p', String b s' => Ascii.eqb a b && startsWith s' p'
  end.

(** [s.includes(sub)]: [sub] occurs at some position of [s]. *)
Fixpoint includes (s sub : string) : bool :=
  startsWith s sub ||
  match s with
  | EmptyString => false
  | String _ r => includes r sub
  end.

(* ================================================================== *)
(** * Exceptions

    One constructor per [throw] site of the three source files, plus the
    exceptions the runtime raises itself.  A constructor that wraps an
    exception stands for a message built from [error.message] or for a
    [cause] option. *)

Inductive Exn : Type :=
(* raised by the runtime *)
| DOMException (name message : string)   (* localStorage.setItem *)
| SyntaxError                             (* JSON.parse *)
| TypeError_destructure                   (* new Task(null) *)
| TypeError_read_property                 (* null.name, undefined.name *)
| TypeError_not_a_function (callee : string)
(* Task.js, #validateTitle *)
| Error_title_required
| Error_title_empty
| Error_title_too_long
(* TaskRepository, #load *)
| Error_corrupt_not_array
| Error_corrupt_json
(* TaskRepository, #persist *)
| Error_quota_exceeded
| Error_persist (inner : Exn)
(* TaskRepository, public methods *)
| Error_save (cause : Exn)
| Error_delete (cause : Exn)
| Error_deleteMany (cause : Exn)
| Error_clear (cause : Exn)
| Error_saveMany (cause : Exn)
| Error_import_not_array
| Error_import (cause : Exn)
(* TaskService *)
| Error_not_found (taskId : JSValue)
| Error_update (cause : Exn)
| Error_invalid_filter (filter : string)
| Error_invalid_sort (sortedBy : string).

(** [error.name]. *)
Definition exn_name (e : Exn) : string :=
  match e with
  | DOMException name _ => name
  | SyntaxError => "SyntaxError"
  | TypeError_destructure | TypeError_read_property
  | TypeError_not_a_function _ => "TypeError"
  | _ => "Error"
  end.

(* ================================================================== *)
(** * The Task record and the world *)

Record Task : Type := mkTask {
  id : JSValue;
  title : string;
  completed : bool;
  createdAt : JSValue;
  order : JSValue
}.

(** A [Map] in insertion order. *)
Definition TaskMap : Type := list (JSValue * Task).

(** The globals the program uses.  [JSON] is the runtime's codec
    ([JSON_parse] answers [None] where [JSON.parse] throws a [SyntaxError];
    the second argument of [JSON_stringify] is the indentation).
    [Date_now] is the reading of the clock, in milliseconds after the epoch,
    a positive integer (the program runs after the first of January 1970).
    [crypto_entropy] is the sequence of 128-bit draws behind
    [crypto.randomUUID()] and [crypto_drawn] counts the draws made.
    [localStorage_items] is the blob store and [localStorage_fault] says
    which writes the store rejects, and with which exception. *)
Record Globals : Type := mkGlobals {
  JSON_parse : string -> option JSValue;
  JSON_stringify : JSValue -> option nat -> string;
  Date_now : positive;
  crypto_entropy : nat -> N;
  crypto_drawn : nat;
  localStorage_items : list (string * string);
  localStorage_fault : string -> string -> option (string * string)
}.

(** The private fields of a [TaskRepository] instance. *)
Record TaskRepository : Type := mkRepository {
  tasks : TaskMap;
  storageKey : string;
  initialized : bool
}.

Record State : Type := mkState {
  globals : Globals;
  repo : TaskRepository
}.

(* ================================================================== *)
(** * The monad of the program: state and exceptions *)

Inductive Completion (A : Type) : Type :=
| Return (a : A)
| Throw (e : Exn).
Arguments Return {A} a.
Arguments Throw {A} e.

Definition M (A : Type) : Type := State -> Completion A * State.

Definition ret {A} (a : A) : M A := fun s => (Return a, s).

Definition throw {A} (e : Exn) : M A := fun s => (Throw e, s).

Definition bind {A B} (m : M A) (k : A -> M B) : M B :=
  fun s =>
    match m s with
    | (Return a, s') => k a s'
    | (Throw e, s') => (Throw e, s')
    end.

(** [try { m } catch (error) { handler }]: the state changes made before the
    exception stay. *)
Definition try_catch {A} (m : M A) (handler : Exn -> M A) : M A :=
  fun s =>
    match m s with
    | (Return a, s') => (Return a, s')
    | (Throw e, s') => handler e s'
    end.

Declare Scope js_scope.
Delimit Scope js_scope with js.
Notation "x <- m ;; k" := (bind m (fun x => k))
  (at level 100, m at next level, right associativity) : js_scope.
Notation "m ;; k" := (bind m (fun _ => k))
  (at level 100, right associativity) : js_scope.
Local Open Scope js_scope.

(** [list.map(f)] and [list.forEach(f)] for an effectful callback. *)
Fixpoint mapM {A B} (f : A -> M B) (l : list A) : M (list B) :=
  match l with
  | [] => ret []
  | a :: l' => b <- f a ;; bs <- mapM f l' ;; ret (b :: bs)
  end.

Fixpoint forEach {A} (f : A -> M unit) (l : list A) : M unit :=
  match l with
  | [] => ret tt
  | a :: l' => f a ;; forEach f l'
  end.

(** Field updates of the state. *)
Definition set_tasks (m : TaskMap) (s : State) : State :=
  {| globals := globals s;
     repo := {| tasks := m;
                      storageKey := storageKey (repo s);
                      initialized := initialized (repo s) |} |}.

Definition set_initialized (b : bool) (s : State) : State :=
  {| globals := globals s;
     repo := {| tasks := tasks (repo s);
                      storageKey := storageKey (repo s);
                      initialized := b |} |}.

Definition set_items (items : list (string * string)) (s : State) : State :=
  let g := globals s in
  {| globals := {| JSON_parse := JSON_parse g;
                   JSON_stringify := JSON_stringify g;
                   Date_now := Date_now g;
                   crypto_entropy := crypto_entropy g;
                   crypto_drawn := crypto_drawn g;
                   localStorage_items := items;
                   localStorage_fault := localStorage_fault g |};
     repo := repo s |}.

Definition set_drawn (n : nat) (s : State) : State :=
  let g := globals s in
  {| globals := {| JSON_parse := JSON_parse g;
                   JSON_stringify := JSON_stringify g;
                   Date_now := Date_now g;
                   crypto_entropy := crypto_entropy g;
                   crypto_drawn := n;
                   localStorage_items := localStorage_items g;
                   localStorage_fault := localStorage_fault g |};
     repo := repo s |}.

(** [this.#tasks] and [this.#tasks = m]. *)
Definition read_tasks : M TaskMap := fun s => (Return (tasks (repo s)), s).
Definition write_tasks (m : TaskMap) : M unit := fun s => (Return tt, set_tasks m s).

(* ================================================================== *)
(** * Globals: [Date.now], [crypto.randomUUID], [localStorage], [JSON] *)

Definition hex_digit (n : N) : ascii :=
  let d := N.to_nat (N.land n 15) in
  ascii_of_nat (if Nat.ltb d 10 then 48 + d else 87 + d).

(** The [k] lowest hexadecimal digits of [r], most significant first. *)
Fixpoint hex (k : nat) (r : N) : string :=
  match k with
  | O => EmptyString
  | S k' => String (hex_digit (N.shiftr r (4 * N.of_nat k'))) (hex k' r)
  end.

(** A version 4 UUID in its 36 character form, from a 128-bit draw. *)
Definition uuid_string (r : N) : string :=
  hex 8 (N.shiftr r 96) ++ "-" ++ hex 4 (N.shiftr r 80) ++ "-"
  ++ String "4" (hex 3 (N.shiftr r 64)) ++ "-"
  ++ String (hex_digit (N.lor 8 (N.land (N.shiftr r 60) 3))) (hex 3 (N.shiftr r 48))
  ++ "-" ++ hex 12 r.

Definition crypto_randomUUID : M JSValue :=
  fun s =>
    let g := globals s in
    (Return (JStr (uuid_string (crypto_entropy g (crypto_drawn g)))),
     set_drawn (S (crypto_drawn g)) s).

Definition Date_dot_now : M JSValue :=
  fun s => (Return (JNum (Z.pos (Date_now (globals s)))), s).

Fixpoint items_set (key value : string) (items : list (string * string))
  : list (string * string) :=
  match items with
  | [] => [(key, value)]
  | (k, v) :: rest =>
      if String.eqb k key then (k, value) :: rest
      else (k, v) :: items_set key value rest
  end.

Fixpoint items_get (key : string) (items : list (string * string)) : option string :=
  match items with
  | [] => None
  | (k, v) :: rest => if String.eqb k key then Some v else items_get key rest
  end.

Definition localStorage_getItem (key : string) : M (option string) :=
  fun s => (Return (items_get key (localStorage_items (globals s))), s).

Definition localStorage_setItem (key value : string) : M unit :=
  fun s =>
    match localStorage_fault (globals s) key value with
    | Some (name, message) => (Throw (DOMException name message), s)
    | None =>
        (Return tt, set_items (items_set key value (localStorage_items (globals s))) s)
    end.

Definition JSON_dot_parse (text : string) : M JSValue :=
  fun s =>
    match JSON_parse (globals s) text with
    | Some v => (Return v, s)
    | None => (Throw SyntaxError, s)
    end.

Definition JSON_dot_stringify (v : JSValue) (indent : option nat) : M string :=
  fun s => (Return (JSON_stringify (globals s) v indent), s).

(* ================================================================== *)
(** * [src/models/Task.js] *)

Module Task.

(** The object literal [{ id, title, completed, createdAt, order }]. *)
Definition literal (id title completed createdAt order : JSValue) : JSValue :=
  JObj [("id", id); ("title", title); ("completed", completed);
        ("createdAt", createdAt); ("order", order)].

Definition string_of (v : JSValue) : string :=
  match v with JStr s => s | _ => EmptyString end.

Definition is_string (v : JSValue) : bool :=
  match v with JStr _ => true | _ => false end.

(** [#validateTitle(title)]. *)
Definition validateTitle (title : JSValue) : M unit :=
  if negb (truthy title) || negb (is_string title) then
    throw Error_title_required
  else
    let t := trim (string_of title) in
    if Nat.eqb (String.length t) 0 then throw Error_title_empty
    else if Nat.ltb 200 (String.length t) then throw Error_title_too_long
    else ret tt.

(** [#generateId()]. *)
Definition generateId : M JSValue := crypto_randomUUID.

(** [constructor({ title, completed = false, id = null, createdAt = null,
    order = 0 })]. *)
Definition new (data : JSValue) : M Task :=
  match data with
  | JUndefined | JNull => throw TypeError_destructure
  | _ =>
      let title := get_prop data "title" in
      let completed := with_default (get_prop data "completed") (JBool false) in
      let id := with_default (get_prop data "id") JNull in
      let createdAt := with_default (get_prop data "createdAt") JNull in
      let order := with_default (get_prop data "order") (JNum 0) in
      validateTitle title ;;
      id' <- (if truthy id then ret id else generateId) ;;
      createdAt' <- (if truthy createdAt then ret createdAt else Date_dot_now) ;;
      ret {| id := id';
             title := trim (string_of title);
             completed := truthy completed;
             createdAt := createdAt';
             order := order |}
  end.

Definition updateTitle (this : Task) (newTitle : JSValue) : M Task :=
  new (literal (id this) newTitle (JBool (completed this))
               (createdAt this) (order this)).

Definition updateOrder (this : Task) (newOrder : JSValue) : M Task :=
  new (literal (id this) (JStr (title this)) (JBool (completed this))
               (createdAt this) newOrder).

Definition toggleCompleted (this : Task) : M Task :=
  new (literal (id this) (JStr (title this)) (JBool (negb (completed this)))
               (createdAt this) (order this)).

Definition toJSON (this : Task) : JSValue :=
  literal (id this) (JStr (title this)) (JBool (completed this))
          (createdAt this) (order this).

Definition fromJSON (data : JSValue) : M Task := new data.

End Task.

(* ================================================================== *)
(** * [Map]: insertion-ordered, keys compared by [JSValue_eqb] *)

Fixpoint Map_get (k : JSValue) (m : TaskMap) : option Task :=
  match m with
  | [] => None
  | (k', v) :: rest => if JSValue_eqb k' k then Some v else Map_get k rest
  end.

Fixpoint Map_has (k : JSValue) (m : TaskMap) : bool :=
  match m with
  | [] => false
  | (k', _) :: rest => JSValue_eqb k' k || Map_has k rest
  end.

(** [m.set(k, v)]: an existing key keeps its position, a new key goes last. *)
Fixpoint Map_set (k : JSValue) (v : Task) (m : TaskMap) : TaskMap :=
  match m with
  | [] => [(k, v)]
  | (k', v') :: rest =>
      if JSValue_eqb k' k then (k', v) :: rest
      else (k', v') :: Map_set k v rest
  end.

Fixpoint Map_delete (k : JSValue) (m : TaskMap) : TaskMap :=
  match m with
  | [] => []
  | (k', v') :: rest =>
      if JSValue_eqb k' k then rest else (k', v') :: Map_delete k rest
  end.

Definition Map_values (m : TaskMap) : list Task := List.map snd m.

Definition Map_size (m : TaskMap) : Z := Z.of_nat (List.length m).

(* ================================================================== *)
(** * Numbers: the quotient, [Math.round] and [toFixed(1)] *)

Definition Number_of_Z (n : Z) : spec_float := binary_normalize 53 1024 n 0 false.

(** [(a / b) * 100] in binary64. *)
Definition percentage (a b : Z) : spec_float :=
  SFmul 53 1024 (SFdiv 53 1024 (Number_of_Z a) (Number_of_Z b)) (Number_of_Z 100).

(** A finite non-negative binary64 number [m * 2^e] as an exact fraction. *)
Definition fraction (m : positive) (e : Z) : Z * Z :=
  match e with
  | Zneg p => (Z.pos m, 2 ^ Z.pos p)
  | _ => (Z.pos m * 2 ^ e, 1)
  end.

(** [floor(num/den + 1/2)] and [ceil(num/den - 1/2)], for [den > 0]. *)
Definition floor_half (num den : Z) : Z := (2 * num + den) / (2 * den).
Definition ceil_half (num den : Z) : Z := (2 * num + den - 1) / (2 * den).

(** [Math.round(x)]: the nearest integer, a tie going towards plus infinity.
    The completion rate is its only use; that one is finite whenever the
    counts are, so the other cases are not reached. *)
Definition Math_round (x : spec_float) : Z :=
  match x with
  | S754_finite false m e => let (num, den) := fraction m e in floor_half num den
  | S754_finite true m e => let (num, den) := fraction m e in - ceil_half num den
  | _ => 0
  end.

Definition decimal (n : Z) : string := NilZero.string_of_int (Z.to_int n).

(** [x.toFixed(1)] for [|x| < 1e21]: with [n] the integer nearest to
    [10 |x|], a tie going to the larger one, the digits of [n] with a point
    before the last one. *)
Definition toFixed1 (x : spec_float) : string :=
  match x with
  | S754_nan => "NaN"
  | S754_infinity s => if s then "-Infinity" else "Infinity"
  | S754_zero _ => "0.0"
  | S754_finite s m e =>
      let (num, den) := fraction m e in
      let n := floor_half (10 * num) den in
      (if s then "-" else "") ++ decimal (n / 10) ++ "." ++ decimal (n mod 10)
  end.

(* ================================================================== *)
(** * The repository class [TaskRepository] *)

Record Stats : Type := mkStats {
  stats_total : Z;
  stats_completed : Z;
  stats_pending : Z;
  stats_completionRate : string
}.

Module TaskRepository.

Definition key : M string := fun s => (Return (storageKey (repo s)), s).

(** [this.#tasks.set(task.id, task)] and [this.#tasks.delete(id)]. *)
Definition tasks_set (k : JSValue) (v : Task) : M unit :=
  m <- read_tasks ;; write_tasks (Map_set k v m).

Definition tasks_delete (k : JSValue) : M bool :=
  m <- read_tasks ;; write_tasks (Map_delete k m) ;; ret (Map_has k m).

(** [#load()]. *)
Definition load : M unit :=
  try_catch
    (k <- key ;;
     data <- localStorage_getItem k ;;
     match data with
     | None | Some EmptyString => ret tt
     | Some text =>
         parsed <- JSON_dot_parse text ;;
         match parsed with
         | JArr items =>
             write_tasks [] ;;
             forEach (fun taskData =>
                        try_catch
                          (task <- Task.fromJSON taskData ;;
                           tasks_set (id task) task)
                          (fun _ => ret tt))
                     items
         | _ => throw Error_corrupt_not_array
         end
     end)
    (fun error =>
       match error with
       | SyntaxError => throw Error_corrupt_json
       | _ => throw error
       end).

(** [#initialize()]. *)
Definition initialize : M unit :=
  try_catch
    (load ;; fun s => (Return tt, set_initialized true s))
    (fun _ => write_tasks [] ;; fun s => (Return tt, set_initialized true s)).

(** [constructor(storageKey = "todo_tasks")]. *)
Definition new (storageKey : string) : M unit :=
  (fun s => (Return tt,
             {| globals := globals s;
                repo := {| tasks := [];
                                 storageKey := storageKey;
                                 initialized := false |} |})) ;;
  initialize.

(** [#persist()]. *)
Definition persist : M unit :=
  try_catch
    (m <- read_tasks ;;
     let tasksArray := JArr (List.map Task.toJSON (Map_values m)) in
     json <- JSON_dot_stringify tasksArray None ;;
     k <- key ;;
     localStorage_setItem k json)
    (fun error =>
       if String.eqb (exn_name error) "QuotaExceededError"
       then throw Error_quota_exceeded
       else throw (Error_persist error)).

(** [save(task)].  [#validateTask] holds by typing. *)
Definition save (task : Task) : M Task :=
  m <- read_tasks ;;
  let previousTask := Map_get (id task) m in
  let isNewtask := negb (Map_has (id task) m) in
  tasks_set (id task) task ;;
  try_catch
    (persist ;; ret task)
    (fun error =>
       (if isNewtask then tasks_delete (id task) ;; ret tt
        else match previousTask with
             | Some previous => tasks_set (id task) previous
             | None => ret tt
             end) ;;
       throw (Error_save error)).

Definition exists_ (id : JSValue) : M bool :=
  m <- read_tasks ;; ret (Map_has id m).

Definition findAll : M (list Task) :=
  m <- read_tasks ;;
  mapM (fun task => Task.fromJSON (Task.toJSON task)) (Map_values m).

(** [findBy(predicate)]; the predicate is a function by typing. *)
Definition findBy (predicate : Task -> bool) : M (list Task) :=
  all <- findAll ;; ret (List.filter predicate all).

Definition findById (id : JSValue) : M (option Task) :=
  m <- read_tasks ;;
  match Map_get id m with
  | Some task => copy <- Task.fromJSON (Task.toJSON task) ;; ret (Some copy)
  | None => ret None
  end.

Definition delete (id : JSValue) : M bool :=
  m <- read_tasks ;;
  match Map_get id m with
  | None => ret false
  | Some taskToDelete =>
      tasks_delete id ;;
      try_catch
        (persist ;; ret true)
        (fun error =>
           tasks_set id taskToDelete ;;
           throw (Error_delete error))
  end.

(** The [forEach] of [deleteMany], with its counter. *)
Fixpoint delete_each (ids : list JSValue) (deletedCount : Z) : M Z :=
  match ids with
  | [] => ret deletedCount
  | id :: rest =>
      deleted <- tasks_delete id ;;
      delete_each rest (if deleted then deletedCount + 1 else deletedCount)
  end.

(** [deleteMany(ids)]; [ids] is an array by typing. *)
Definition deleteMany (ids : list JSValue) : M Z :=
  previousTasks <- read_tasks ;;
  try_catch
    (deletedCount <- delete_each ids 0 ;;
     if deletedCount =? 0 then ret 0
     else persist ;; ret deletedCount)
    (fun error =>
       write_tasks previousTasks ;;
       throw (Error_deleteMany error)).

Definition clear : M Z :=
  previousTasks <- read_tasks ;;
  let count := Map_size previousTasks in
  if count =? 0 then ret 0
  else
    try_catch
      (write_tasks [] ;; persist ;; ret count)
      (fun error =>
         write_tasks previousTasks ;;
         throw (Error_clear error)).

(** [saveMany(tasks)]; [tasks] is an array of [Task] instances by typing. *)
Definition saveMany (tasks : list Task) : M Z :=
  backupTasks <- read_tasks ;;
  try_catch
    (forEach (fun task => tasks_set (id task) task) tasks ;;
     persist ;;
     ret (Z.of_nat (List.length tasks)))
    (fun error =>
       write_tasks backupTasks ;;
       throw (Error_saveMany error)).

Definition export : M string :=
  m <- read_tasks ;;
  let tasksArray := JArr (List.map Task.toJSON (Map_values m)) in
  JSON_dot_stringify tasksArray (Some 2%nat).

(** The [forEach] of [import], filling [tempMap]. *)
Fixpoint import_each (tasksArray : list JSValue) (tempMap : TaskMap) : M TaskMap :=
  match tasksArray with
  | [] => ret tempMap
  | taskData :: rest =>
      task <- Task.fromJSON taskData ;;
      import_each rest (Map_set (id task) task tempMap)
  end.

Definition import (jsonString : string) : M Z :=
  previousTasks <- read_tasks ;;
  try_catch
    (tasksArray <- JSON_dot_parse jsonString ;;
     match tasksArray with
     | JArr items =>
         tempMap <- import_each items [] ;;
         let tasksArrayRaw := JArr (List.map Task.toJSON (Map_values tempMap)) in
         json <- JSON_dot_stringify tasksArrayRaw None ;;
         k <- key ;;
         localStorage_setItem k json ;;
         write_tasks tempMap ;;
         persist ;;
         m <- read_tasks ;;
         ret (Map_size m)
     | _ => throw Error_import_not_array
     end)
    (fun error =>
       write_tasks previousTasks ;;
       throw (Error_import error)).

Definition getStats : M Stats :=
  m <- read_tasks ;;
  let completedCount :=
    List.fold_left (fun n task => if completed task then n + 1 else n)
                   (Map_values m) 0 in
  let pendingCount := Map_size m - completedCount in
  ret {| stats_total := Map_size m;
         stats_completed := completedCount;
         stats_pending := pendingCount;
         stats_completionRate :=
           if 0 <? Map_size m
           then toFixed1 (percentage completedCount (Map_size m)) ++ "%"
           else "0%" |}.

End TaskRepository.

(* ================================================================== *)
(** * [src/services/TaskService.js] *)

(** The object injected into the service, as the service sees it: a table
    of methods, a method the object does not define being [undefined]
    ([None]). *)
Record RepositoryObject : Type := mkRepositoryObject {
  method_save : option (Task -> M Task);
  method_saveMany : option (list Task -> M Z);
  method_delete : option (JSValue -> M bool);
  method_deleteMany : option (list JSValue -> M Z);
  method_clear : option (M Z);
  method_findAll : option (M (list Task));
  method_findBy : option ((Task -> bool) -> M (list Task));
  method_findById : option (JSValue -> M (option Task));
  method_export : option (M string);
  method_import : option (string -> M Z);
  method_count : option (M Z);
  method_countBy : option ((Task -> bool) -> M Z)
}.

(** An instance of the class [TaskRepository]: the methods of the class,
    which has no [count] and no [countBy]. *)
Definition TaskRepository_instance : RepositoryObject :=
  {| method_save := Some TaskRepository.save;
     method_saveMany := Some TaskRepository.saveMany;
     method_delete := Some TaskRepository.delete;
     method_deleteMany := Some TaskRepository.deleteMany;
     method_clear := Some TaskRepository.clear;
     method_findAll := Some TaskRepository.findAll;
     method_findBy := Some TaskRepository.findBy;
     method_findById := Some TaskRepository.findById;
     method_export := Some TaskRepository.export;
     method_import := Some TaskRepository.import;
     method_count := None;
     method_countBy := None |}.

(** A method call [object.callee(...)]: calling [undefined] is a
    [TypeError]. *)
Definition call {F A} (callee : string) (method : option F) (k : F -> M A) : M A :=
  match method with
  | Some f => k f
  | None => throw (TypeError_not_a_function callee)
  end.

(** A property read [o.name], which throws on [null] and [undefined]. *)
Definition read_prop (o : JSValue) (name : string) : M JSValue :=
  match o with
  | JUndefined | JNull => throw TypeError_read_property
  | _ => ret (get_prop o name)
  end.

Definition is_undefined (v : JSValue) : bool :=
  match v with JUndefined => true | _ => false end.

Record Statistics : Type := mkStatistics {
  total : Z;
  completedTotal : Z;
  pending : Z;
  completionRate : Z
}.

Module TaskService.
Section WithRepository.

(** [this.#repository]. *)
Variable repository : RepositoryObject.

(** [#ensureTaskExists(taskId)]. *)
Definition ensureTaskExists (taskId : JSValue) : M Task :=
  found <- call "findById" (method_findById repository) (fun f => f taskId) ;;
  match found with
  | Some task => ret task
  | None => throw (Error_not_found taskId)
  end.

Definition createTask (title : JSValue) : M Task :=
  task <- Task.new (JObj [("title", title)]) ;;
  call "save" (method_save repository) (fun f => f task).

Definition updateTask (taskId : JSValue) (updates : JSValue) : M Task :=
  currentTask <- ensureTaskExists taskId ;;
  let updatedTask := currentTask in
  try_catch
    (newTitle <- read_prop updates "title" ;;
     updatedTask <- (if negb (is_undefined newTitle)
                     then Task.updateTitle updatedTask newTitle
                     else ret updatedTask) ;;
     newCompleted <- read_prop updates "completed" ;;
     updatedTask <- (if negb (is_undefined newCompleted)
                        && negb (JSValue_eqb newCompleted
                                             (JBool (completed currentTask)))
                     then Task.toggleCompleted updatedTask
                     else ret updatedTask) ;;
     newOrder <- read_prop updates "order" ;;
     updatedTask <- (if negb (is_undefined newOrder)
                     then Task.updateOrder updatedTask newOrder
                     else ret updatedTask) ;;
     call "save" (method_save repository) (fun f => f updatedTask))
    (fun error => throw (Error_update error)).

Definition toggleTaskCompletion (taskId : JSValue) : M Task :=
  currentTask <- ensureTaskExists taskId ;;
  toggleTask <- Task.toggleCompleted currentTask ;;
  call "save" (method_save repository) (fun f => f toggleTask).

(** [reorderTasks(reorderedTasks)]; the argument is an array by typing,
    its elements are any values. *)
Definition reorderTasks (reorderedTasks : list JSValue) : M Z :=
  tasksToUpdate <-
    mapM (fun element =>
            match element with
            | JUndefined | JNull => throw TypeError_destructure
            | _ =>
                task <- ensureTaskExists (get_prop element "id") ;;
                Task.updateOrder task (get_prop element "order")
            end)
         reorderedTasks ;;
  call "saveMany" (method_saveMany repository) (fun f => f tasksToUpdate).

Definition deleteTask (taskId : JSValue) : M bool :=
  ensureTaskExists taskId ;;
  call "delete" (method_delete repository) (fun f => f taskId).

Definition clearCompleted : M Z :=
  completedTasks <- call "findBy" (method_findBy repository)
                         (fun f => f (fun task => completed task)) ;;
  let ids := List.map id completedTasks in
  call "deleteMany" (method_deleteMany repository) (fun f => f ids).

Definition clearAll : M Z :=
  call "clear" (method_clear repository) (fun f => f).

Definition getTaskById (taskId : JSValue) : M (option Task) :=
  call "findById" (method_findById repository) (fun f => f taskId).

Definition searchTasks (searchTerm : JSValue) : M (list Task) :=
  if negb (truthy searchTerm) || negb (Task.is_string searchTerm) then ret []
  else
    let normalizedTerm := toLowerCase (trim (Task.string_of searchTerm)) in
    call "findBy" (method_findBy repository)
         (fun f => f (fun task => includes (toLowerCase (title task)) normalizedTerm)).

Definition getStatistics : M Statistics :=
  total <- call "count" (method_count repository) (fun f => f) ;;
  completed <- call "countBy" (method_countBy repository)
                    (fun f => f (fun task => completed task)) ;;
  let pending := total - completed in
  let completionRate :=
    if 0 <? total then Math_round (percentage completed total) else 0 in
  ret {| total := total;
         completedTotal := completed;
         pending := pending;
         completionRate := completionRate |}.

Definition hasTask : M bool :=
  n <- call "count" (method_count repository) (fun f => f) ;;
  ret (0 <? n).

Definition hasCompletedTasks : M bool :=
  n <- call "countBy" (method_countBy repository)
            (fun f => f (fun task => completed task)) ;;
  ret (0 <? n).

Definition hasPendingTasks : M bool :=
  n <- call "countBy" (method_countBy repository)
            (fun f => f (fun task => negb (completed task))) ;;
  ret (0 <? n).

Definition exportTasks : M string :=
  call "export" (method_export repository) (fun f => f).

Definition importTasks (jsonString : string) : M Z :=
  call "import" (method_import repository) (fun f => f jsonString).

End WithRepository.
End TaskService.

(* ================================================================== *)
(** * A JSON codec

    [JSON] is a global of the runtime and a parameter of the embedding (the
    fields [JSON_parse] and [JSON_stringify] of [Globals]).  The codec below
    is one instance, for the values of the embedding (integers, Latin-1
    strings); the concrete worlds of this development use it. *)

Module RefJSON.

Definition escape_char (c : ascii) : string :=
  let n := nat_of_ascii c in
  if Nat.eqb n 34 then String "\" (String c EmptyString)
  else if Nat.eqb n 92 then String "\" (String "\" EmptyString)
  else if Nat.eqb n 8 then "\b"
  else if Nat.eqb n 12 then "\f"
  else if Nat.eqb n 10 then "\n"
  else if Nat.eqb n 13 then "\r"
  else if Nat.eqb n 9 then "\t"
  else if Nat.ltb n 32 then "\u00" ++ hex 2 (N.of_nat n)
  else String c EmptyString.

Fixpoint escape (s : string) : string :=
  match s with
  | EmptyString => EmptyString
  | String c r => escape_char c ++ escape r
  end.

Definition quote (s : string) : string :=
  String (ascii_of_nat 34) (escape s ++ String (ascii_of_nat 34) EmptyString).

Definition newline : string := String (ascii_of_nat 10) EmptyString.

Fixpoint spaces (n : nat) : string :=
  match n with
  | O => EmptyString
  | S n' => String " " (spaces n')
  end.

(** The separator before an item at nesting [depth]. *)
Definition break (indent : option nat) (depth : nat) : string :=
  match indent with
  | Some w => newline ++ spaces (w * depth)
  | None => EmptyString
  end.

Definition colon (indent : option nat) : string :=
  match indent with Some _ => ": " | None => ":" end.

Fixpoint join (sep : string) (parts : list string) : string :=
  match parts with
  | [] => EmptyString
  | [p] => p
  | p :: rest => p ++ sep ++ join sep rest
  end.

Fixpoint print (indent : option nat) (depth : nat) (v : JSValue) : string :=
  match v with
  | JUndefined | JNull => "null"
  | JBool true => "true"
  | JBool false => "false"
  | JNum n => decimal n
  | JStr s => quote s
  | JArr items =>
      match items with
      | [] => "[]"
      | _ =>
          "[" ++ break indent (S depth)
          ++ join ("," ++ break indent (S depth))
                  (List.map (print indent (S depth)) items)
          ++ break indent depth ++ "]"
      end
  | JObj props =>
      let members :=
        (fix members (l : list (string * JSValue)) : list string :=
           match l with
           | [] => []
           | (_, JUndefined) :: l' => members l'
           | (k, w) :: l' =>
               (quote k ++ colon indent ++ print indent (S depth) w) :: members l'
           end) props in
      match members with
      | [] => "{}"
      | _ =>
          "{" ++ break indent (S depth)
          ++ join ("," ++ break indent (S depth)) members
          ++ break indent depth ++ "}"
      end
  end.

Definition stringify (v : JSValue) (indent : option nat) : string :=
  print indent 0 v.

Definition is_json_space (c : ascii) : bool :=
  let n := nat_of_ascii c in
  Nat.eqb n 32 || Nat.eqb n 9 || Nat.eqb n 10 || Nat.eqb n 13.

Fixpoint skip (s : string) : string :=
  match s with
  | String c r => if is_json_space c then skip r else s
  | EmptyString => EmptyString
  end.

Fixpoint expect (word s : string) : option string :=
  match word, s with
  | EmptyString, _ => Some s
  | String a w', String b s' => if Ascii.eqb a b then expect w' s' else None
  | _, _ => None
  end.

Definition digit_of (c : ascii) : option Z :=
  let n := nat_of_ascii c in
  if Nat.leb 48 n && Nat.leb n 57 then Some (Z.of_nat (n - 48)) else None.

Definition hexdigit_of (c : ascii) : option nat :=
  let n := nat_of_ascii c in
  if Nat.leb 48 n && Nat.leb n 57 then Some (n - 48)%nat
  else if Nat.leb 97 n && Nat.leb n 102 then Some (n - 87)%nat
  else if Nat.leb 65 n && Nat.leb n 70 then Some (n - 55)%nat
  else None.

Fixpoint digits (acc : Z) (s : string) : Z * string :=
  match s with
  | String c r =>
      match digit_of c with
      | Some d => digits (10 * acc + d) r
      | None => (acc, s)
      end
  | EmptyString => (acc, s)
  end.

(** An integer numeral; a fraction or an exponent is outside the values
    of the embedding. *)
Definition number (s : string) : option (Z * string) :=
  let (negative, body) :=
    match s with
    | String "-" r => (true, r)
    | _ => (false, s)
    end in
  match body with
  | String c _ =>
      match digit_of c with
      | Some _ =>
          let (n, rest) := digits 0 body in
          match rest with
          | String "." _ | String "e" _ | String "E" _ => None
          | _ => Some (if negative then - n else n, rest)
          end
      | None => None
      end
  | EmptyString => None
  end.

(** The characters of a string literal after its opening quote. *)
Fixpoint characters (s : string) : option (string * string) :=
  match s with
  | EmptyString => None
  | String c r =>
      if Nat.eqb (nat_of_ascii c) 34 then Some (EmptyString, r)
      else if Nat.eqb (nat_of_ascii c) 92 then
        match r with
        | String e r' =>
            let continue (c' : ascii) (rest : string) :=
              match characters rest with
              | Some (body, rest') => Some (String c' body, rest')
              | None => None
              end in
            match e with
            | "b"%char => continue (ascii_of_nat 8) r'
            | "f"%char => continue (ascii_of_nat 12) r'
            | "n"%char => continue (ascii_of_nat 10) r'
            | "r"%char => continue (ascii_of_nat 13) r'
            | "t"%char => continue (ascii_of_nat 9) r'
            | "u"%char =>
                match r' with
                | String "0" (String "0" (String h (String l r''))) =>
                    match hexdigit_of h, hexdigit_of l with
                    | Some a, Some b => continue (ascii_of_nat (16 * a + b)) r''
                    | _, _ => None
                    end
                | _ => None
                end
            | _ =>
                if Nat.eqb (nat_of_ascii e) 34 || Nat.eqb (nat_of_ascii e) 92
                   || Nat.eqb (nat_of_ascii e) 47
                then continue e r' else None
            end
        | EmptyString => None
        end
      else if Nat.ltb (nat_of_ascii c) 32 then None
      else
        match characters r with
        | Some (body, rest) => Some (String c body, rest)
        | None => None
        end
  end.

Fixpoint value (fuel : nat) (s : string) {struct fuel} : option (JSValue * string) :=
  match fuel with
  | O => None
  | S fuel' =>
      let elements :=
        (fix elements (n : nat) (s : string) {struct n}
           : option (list JSValue * string) :=
           match n with
           | O => None
           | S n' =>
               match value fuel' s with
               | Some (v, rest) =>
                   match skip rest with
                   | String "," rest' =>
                       match elements n' rest' with
                       | Some (vs, rest'') => Some (v :: vs, rest'')
                       | None => None
                       end
                   | String "]" rest' => Some ([v], rest')
                   | _ => None
                   end
               | None => None
               end
           end) in
      let members :=
        (fix members (n : nat) (s : string) {struct n}
           : option (list (string * JSValue) * string) :=
           match n with
           | O => None
           | S n' =>
               match skip s with
               | String q s1 =>
                   if Nat.eqb (nat_of_ascii q) 34 then
                     match characters s1 with
                     | Some (k, s2) =>
                         match skip s2 with
                         | String ":" s3 =>
                             match value fuel' s3 with
                             | Some (v, rest) =>
                                 match skip rest with
                                 | String "," rest' =>
                                     match members n' rest' with
                                     | Some (ms, rest'') => Some ((k, v) :: ms, rest'')
                                     | None => None
                                     end
                                 | String "}" rest' => Some ([(k, v)], rest')
                                 | _ => None
                                 end
                             | None => None
                             end
                         | _ => None
                         end
                     | None => None
                     end
                   else None
               | EmptyString => None
               end
           end) in
      match skip s with
      | String "n" _ =>
          match expect "null" (skip s) with
          | Some rest => Some (JNull, rest) | None => None end
      | String "t" _ =>
          match expect "true" (skip s) with
          | Some rest => Some (JBool true, rest) | None => None end
      | String "f" _ =>
          match expect "false" (skip s) with
          | Some rest => Some (JBool false, rest) | None => None end
      | String "[" r =>
          match skip r with
          | String "]" rest => Some (JArr [], rest)
          | _ =>
              match elements (String.length r) r with
              | Some (vs, rest) => Some (JArr vs, rest)
              | None => None
              end
          end
      | String "{" r =>
          match skip r with
          | String "}" rest => Some (JObj [], rest)
          | _ =>
              match members (String.length r) r with
              | Some (ms, rest) => Some (JObj ms, rest)
              | None => None
              end
          end
      | String c r =>
          if Nat.eqb (nat_of_ascii c) 34 then
            match characters r with
            | Some (body, rest) => Some (JStr body, rest)
            | None => None
            end
          else
            match number (skip s) with
            | Some (n, rest) => Some (JNum n, rest)
            | None => None
            end
      | EmptyString => None
      end
  end.

Definition parse (text : string) : option JSValue :=
  match value (S (String.length text)) text with
  | Some (v, rest) =>
      match skip rest with
      | EmptyString => Some v
      | _ => None
      end
  | None => None
  end.

End RefJSON.

(* ================================================================== *)
(** * The vocabulary of the properties *)

(** Induction on values, through the lists of an array and of an object. *)
Section JSValue_induction.

Variable P : JSValue -> Prop.
Hypothesis P_undefined : P JUndefined.
Hypothesis P_null : P JNull.
Hypothesis P_bool : forall b, P (JBool b).
Hypothesis P_num : forall n, P (JNum n).
Hypothesis P_str : forall s, P (JStr s).
Hypothesis P_arr : forall items, Forall P items -> P (JArr items).
Hypothesis P_obj : forall props, Forall (fun kv => P (snd kv)) props -> P (JObj props).

Fixpoint JSValue_nested_ind (v : JSValue) : P v :=
  match v with
  | JUndefined => P_undefined
  | JNull => P_null
  | JBool b => P_bool b
  | JNum n => P_num n
  | JStr s => P_str s
  | JArr items =>
      P_arr items
        ((fix all (l : list JSValue) : Forall P l :=
            match l with
            | [] => Forall_nil P
            | w :: l' => Forall_cons w (JSValue_nested_ind w) (all l')
            end) items)
  | JObj props =>
      P_obj props
        ((fix all (l : list (string * JSValue)) : Forall (fun kv => P (snd kv)) l :=
            match l with
            | [] => Forall_nil _
            | kv :: l' => Forall_cons kv (JSValue_nested_ind (snd kv)) (all l')
            end) props)
  end.

End JSValue_induction.

(** Every character of the string is white space. *)
Fixpoint all_whitespace (s : string) : bool :=
  match s with
  | EmptyString => true
  | String c r => is_whitespace c && all_whitespace r
  end.

(** The title invariant of the specification: trimmed, not empty, at most
    200 characters. *)
Definition title_ok (s : string) : Prop :=
  trim s = s /\ (0 < String.length s <= 200)%nat.

(** What every constructed Task satisfies. *)
Definition Task_valid (t : Task) : Prop :=
  title_ok (title t) /\ truthy (id t) = true /\ truthy (createdAt t) = true
  /\ is_undefined (order t) = false.

(** The titles [#validateTitle] lets through. *)
Definition title_accepted (v : JSValue) : bool :=
  match v with
  | JStr s => Nat.ltb 0 (String.length (trim s)) && Nat.leb (String.length (trim s)) 200
  | _ => false
  end.

(** The text [#persist] writes for a map. *)
Definition blob_of (g : Globals) (m : TaskMap) : string :=
  JSON_stringify g (JArr (List.map Task.toJSON (Map_values m))) None.

(** The error [#persist] throws for a rejected write. *)
Definition persist_error (name message : string) : Exn :=
  if String.eqb name "QuotaExceededError" then Error_quota_exceeded
  else Error_persist (DOMException name message).

(** The storage rejects the write of the blob of map [m]. *)
Definition write_fails (s : State) (m : TaskMap) (name message : string) : Prop :=
  localStorage_fault (globals s) (storageKey (repo s)) (blob_of (globals s) m)
  = Some (name, message).

(** The storage accepts the write of the blob of map [m]. *)
Definition write_succeeds (s : State) (m : TaskMap) : Prop :=
  localStorage_fault (globals s) (storageKey (repo s)) (blob_of (globals s) m) = None.

(** The state after a successful write of the blob of [m]. *)
Definition stored (m : TaskMap) (s : State) : State :=
  set_items (items_set (storageKey (repo s)) (blob_of (globals s) m)
                       (localStorage_items (globals s))) s.

(** Unfolding of the monad and of the two map updates of the repository. *)
Ltac run_monad :=
  unfold bind, ret, throw, try_catch, read_tasks, write_tasks,
    TaskRepository.tasks_set, TaskRepository.tasks_delete in *.

(** The invariant of the repository's map: the keys are distinct, every
    task sits under its own id and satisfies the class invariant. *)
Definition Repo_valid (m : TaskMap) : Prop :=
  NoDup (List.map fst m) /\
  Forall (fun kv => fst kv = id (snd kv) /\ Task_valid (snd kv)) m.

(** Two storages: one accepts every write, the other has no room left. *)
Definition accepts_all : string -> string -> option (string * string) :=
  fun _ _ => None.

Definition quota_exhausted : string -> string -> option (string * string) :=
  fun _ _ => Some ("QuotaExceededError", "The quota has been exceeded.").

(** A world for the examples: the codec [RefJSON], a fixed clock, a fixed
    sequence of random draws, an empty storage with the given verdicts. *)
Definition sample_globals (fault : string -> string -> option (string * string))
  : Globals :=
  {| JSON_parse := RefJSON.parse;
     JSON_stringify := RefJSON.stringify;
     Date_now := 1700000000000%positive;
     crypto_entropy := fun n => (N.of_nat n * 1234567891234567 + 98765432109876543210)%N;
     crypto_drawn := 0;
     localStorage_items := [];
     localStorage_fault := fault |}.

(** A repository holding the map [m], under the default key. *)
Definition sample_state (fault : string -> string -> option (string * string))
                        (m : TaskMap) : State :=
  {| globals := sample_globals fault;
     repo := {| tasks := m; storageKey := "todo_tasks"; initialized := true |} |}.

(** Three tasks, one of them completed. *)
Definition task_a : Task :=
  {| id := JStr "a"; title := "Buy milk"; completed := true;
     createdAt := JNum 1700000000000; order := JNum 2 |}.

Definition task_b : Task :=
  {| id := JStr "b"; title := "Walk the dog"; completed := false;
     createdAt := JNum 1700000000001; order := JNum 1 |}.

Definition task_c : Task :=
  {| id := JStr "c"; title := "Read"; completed := false;
     createdAt := JNum 1700000000002; order := JNum 0 |}.

Definition sample_map : TaskMap :=
  [(JStr "a", task_a); (JStr "b", task_b); (JStr "c", task_c)].

(** An element [{ id, order }] of the argument of [reorderTasks]. *)
Definition reorder_entry (e : JSValue * JSValue) : JSValue :=
  JObj [("id", fst e); ("order", snd e)].

(** The [map] of [reorderTasks]: one existence check and one [updateOrder]
    per entry. *)
Definition reorder_step (element : JSValue) : M Task :=
  match element with
  | JUndefined | JNull => throw TypeError_destructure
  | _ =>
      task <- TaskService.ensureTaskExists TaskRepository_instance
                (get_prop element "id") ;;
      Task.updateOrder task (get_prop element "order")
  end.







(** The loop of [#load]: a record the constructor rejects is skipped. *)
Definition load_step (taskData : JSValue) : M unit :=
  try_catch
    (task <- Task.fromJSON taskData ;; TaskRepository.tasks_set (id task) task)
    (fun _ => ret tt).

(** The storage entry of the repository holds the text of its map. *)
Definition mirrored (s : State) : Prop :=
  items_get (storageKey (repo s)) (localStorage_items (globals s))
  = Some (blob_of (globals s) (tasks (repo s))).

(** The records the constructor of [Task] accepts: an object (anything but
    [null] and [undefined]) whose title passes [#validateTitle]. *)
Definition constructible (data : JSValue) : bool :=
  match data with
  | JUndefined | JNull => false
  | _ => title_accepted (get_prop data "title")
  end.

(** The last task of a list with a given id. *)
Definition last_with_id (i : JSValue) (l : list Task) : option Task :=
  List.find (fun t => JSValue_eqb (id t) i) (List.rev l).

(** Whether an id is in a list of ids. *)
Definition listed (ids : list JSValue) (k : JSValue) : bool :=
  List.existsb (fun i => JSValue_eqb k i) ids.

(** The entries of a map whose key is not in a list of ids. *)
Definition without (ids : list JSValue) (m : TaskMap) : TaskMap :=
  List.filter (fun kv => negb (listed ids (fst kv))) m.

(** A state differs from another by random draws only. *)
Definition draws_only (s s' : State) : Prop :=
  exists n, (crypto_drawn (globals s) <= n)%nat /\ s' = set_drawn n s.

(** What the methods of the repository leave alone: the codec, the clock,
    the source of randomness, the verdicts of the storage, the storage key,
    the initialisation flag and every storage entry but the repository's
    own; random draws are only ever consumed. *)
Definition own_entry_only (s s' : State) : Prop :=
  JSON_parse (globals s') = JSON_parse (globals s) /\
  JSON_stringify (globals s') = JSON_stringify (globals s) /\
  Date_now (globals s') = Date_now (globals s) /\
  crypto_entropy (globals s') = crypto_entropy (globals s) /\
  localStorage_fault (globals s') = localStorage_fault (globals s) /\
  (crypto_drawn (globals s) <= crypto_drawn (globals s'))%nat /\
  storageKey (repo s') = storageKey (repo s) /\
  initialized (repo s') = initialized (repo s) /\
  (forall k, k <> storageKey (repo s) ->
     items_get k (localStorage_items (globals s'))
     = items_get k (localStorage_items (globals s))).

(** A computation relates every state to the state it leaves. *)
Definition respects (R : State -> State -> Prop) {A} (m : M A) : Prop :=
  forall s, R s (snd (m s)).

(** A state differs from another by the map and by random draws only. *)
Definition map_only (s s' : State) : Prop :=
  storageKey (repo s') = storageKey (repo s) /\
  initialized (repo s') = initialized (repo s) /\
  exists n, (crypto_drawn (globals s) <= n)%nat /\ globals s' = globals (set_drawn n s).

(** The task [reorderTasks] saves for an entry [(id, order)]: the stored
    task of that id with the order of the entry, 0 standing for an order that
    is [undefined]. *)
Definition reorder_target (m : TaskMap) (e : JSValue * JSValue) : option Task :=
  match Map_get (fst e) m with
  | Some t => Some {| id := id t; title := title t; completed := completed t;
                      createdAt := createdAt t;
                      order := with_default (snd e) (JNum 0) |}
  | None => None
  end.

(** The last entry of a list for a given id. *)
Definition last_entry (i : JSValue) (entries : list (JSValue * JSValue))
  : option (JSValue * JSValue) :=
  List.find (fun e => JSValue_eqb (fst e) i) (List.rev entries).

(* ================================================================== *)
(** * Properties *)

(** ** Equality of values *)

Lemma JSValue_eqb_refl (v : JSValue) : JSValue_eqb v v = true.
Proof.
  induction v using JSValue_nested_ind; simpl; auto.
  - apply Bool.eqb_reflx.
  - apply Z.eqb_refl.
  - apply String.eqb_refl.
  - induction H as [|w l Hw _ IH]; [reflexivity|]. now rewrite Hw, IH.
  - induction H as [|[k w] l Hw _ IH]; [reflexivity|].
    simpl in Hw. now rewrite String.eqb_refl, Hw, IH.
Qed.

Lemma JSValue_eqb_true (x y : JSValue) : JSValue_eqb x y = true -> x = y.
Proof.
  revert y. induction x using JSValue_nested_ind; intros [] E; simpl in E;
    try discriminate; try reflexivity.
  - now apply Bool.eqb_prop in E; subst.
  - now apply Z.eqb_eq in E; subst.
  - now apply String.eqb_eq in E; subst.
  - f_equal. revert items0 E.
    induction H as [|w l Hw _ IH]; intros [|w' l'] E; try discriminate; auto.
    apply andb_true_iff in E as [E1 E2]. f_equal; auto.
  - f_equal. revert props0 E.
    induction H as [|[k w] l Hw _ IH]; intros [|[k' w'] l'] E; try discriminate; auto.
    apply andb_true_iff in E as [E1 E3]. apply andb_true_iff in E1 as [E1 E2].
    apply String.eqb_eq in E1. simpl in Hw. apply Hw in E2. subst.
    f_equal; auto.
Qed.

Lemma JSValue_eqb_eq (x y : JSValue) : JSValue_eqb x y = true <-> x = y.
Proof.
  split; [apply JSValue_eqb_true | intros ->; apply JSValue_eqb_refl].
Qed.

(** ** Strings *)

Lemma trimEnd_idempotent (s : string) : trimEnd (trimEnd s) = trimEnd s.
Proof.
  induction s as [|c r IH]; [reflexivity|].
  simpl. destruct (trimEnd r) as [|c' r'] eqn:E.
  - destruct (is_whitespace c) eqn:W; [reflexivity|]. simpl. now rewrite W.
  - simpl in *. now rewrite IH.
Qed.

Lemma trimStart_trimEnd (c : ascii) (r : string) :
  is_whitespace c = false ->
  trimStart (trimEnd (String c r)) = trimEnd (String c r).
Proof.
  intros W. simpl. destruct (trimEnd r); rewrite ?W; simpl; now rewrite W.
Qed.

Lemma trimStart_head (s : string) :
  trimStart s = EmptyString \/
  exists c r, trimStart s = String c r /\ is_whitespace c = false.
Proof.
  induction s as [|c r IH]; [now left|].
  simpl. destruct (is_whitespace c) eqn:W; [exact IH|].
  right. now exists c, r.
Qed.

Lemma trim_idempotent (s : string) : trim (trim s) = trim s.
Proof.
  unfold trim. destruct (trimStart_head s) as [E | (c & r & E & W)]; rewrite E.
  - reflexivity.
  - rewrite (trimStart_trimEnd c r W). apply trimEnd_idempotent.
Qed.

Lemma trim_all_whitespace (s : string) :
  all_whitespace s = true -> trim s = EmptyString.
Proof.
  unfold trim. induction s as [|c r IH]; [reflexivity|].
  simpl. intros H. apply andb_true_iff in H as [W H]. rewrite W. now apply IH.
Qed.



Lemma includes_empty (s : string) : includes s EmptyString = true.
Proof. destruct s; reflexivity. Qed.

(** ** The monad *)

Lemma mapM_pure {A B} (f : A -> M B) (g : A -> B) (l : list A) (s : State) :
  (forall a, In a l -> f a s = (Return (g a), s)) ->
  mapM f l s = (Return (List.map g l), s).
Proof.
  induction l as [|a l IH]; intros H; [reflexivity|].
  simpl. unfold bind. rewrite (H a (or_introl eq_refl)).
  rewrite IH by (intros; apply H; now right). reflexivity.
Qed.

(** ** The Task entity *)

Lemma validateTitle_accepted (v : JSValue) (s : State) :
  title_accepted v = true -> Task.validateTitle v s = (Return tt, s).
Proof.
  destruct v as [| | | |str| |]; try discriminate. simpl.
  intros H. apply andb_true_iff in H as [H1 H2].
  apply Nat.ltb_lt in H1. apply Nat.leb_le in H2.
  unfold Task.validateTitle. simpl.
  destruct str as [|c r]; [unfold trim in H1; simpl in H1; lia|].
  destruct (Nat.eqb_spec (String.length (trim (String c r))) 0) as [E|_]; [lia|].
  destruct (Nat.ltb_spec 200 (String.length (trim (String c r)))) as [E|_]; [lia|].
  reflexivity.
Qed.

Lemma validateTitle_rejected (v : JSValue) (s : State) :
  title_accepted v = false ->
  exists e, Task.validateTitle v s = (Throw e, s) /\
            (e = Error_title_required \/ e = Error_title_empty \/ e = Error_title_too_long).
Proof.
  intros H. unfold Task.validateTitle.
  destruct (negb (truthy v) || negb (Task.is_string v)) eqn:G.
  - exists Error_title_required. auto.
  - destruct v as [| | | |str| |]; simpl in G; rewrite ?orb_true_r in G;
      try discriminate. simpl in *.
    destruct (Nat.eqb_spec (String.length (trim str)) 0) as [E|E].
    + exists Error_title_empty. auto.
    + destruct (Nat.ltb_spec 200 (String.length (trim str))) as [L|L].
      * exists Error_title_too_long. auto.
      * apply andb_false_iff in H as [H|H].
        -- apply Nat.ltb_ge in H. lia.
        -- apply Nat.leb_gt in H. lia.
Qed.

Lemma uuid_string_nonempty (r : N) : exists c rest, uuid_string r = String c rest.
Proof. unfold uuid_string. eexists. eexists. reflexivity. Qed.

Lemma truthy_uuid (r : N) : truthy (JStr (uuid_string r)) = true.
Proof. destruct (uuid_string_nonempty r) as (c & rest & ->). reflexivity. Qed.

Lemma truthy_defined (v d : JSValue) : truthy v = true -> with_default v d = v.
Proof. now destruct v. Qed.

Lemma title_accepted_ok (v : JSValue) :
  title_accepted v = true -> title_ok (trim (Task.string_of v)).
Proof.
  destruct v as [| | | |str| |]; try discriminate. simpl.
  intros H. apply andb_true_iff in H as [H1 H2].
  apply Nat.ltb_lt in H1. apply Nat.leb_le in H2.
  split; [apply trim_idempotent | lia].
Qed.

Lemma title_ok_accepted (ti : string) : title_ok ti -> title_accepted (JStr ti) = true.
Proof.
  intros [E L]. simpl. rewrite E. apply andb_true_iff. split.
  - apply Nat.ltb_lt. lia.
  - apply Nat.leb_le. lia.
Qed.

(** The constructor on an object literal with all five fields, the
    identity fields being truthy: nothing is generated, the world is left
    as it is. *)
Lemma new_literal_accepted (i t ca o : JSValue) (c : bool) (s : State) :
  truthy i = true -> truthy ca = true -> title_accepted t = true ->
  Task.new (Task.literal i t (JBool c) ca o) s =
  (Return {| id := i; title := trim (Task.string_of t); completed := c;
             createdAt := ca; order := with_default o (JNum 0) |}, s).
Proof.
  intros Hi Hca Ht. unfold Task.new, Task.literal, get_prop. simpl lookup_prop.
  unfold bind. rewrite (validateTitle_accepted t s Ht).
  rewrite (truthy_defined i JNull Hi), (truthy_defined ca JNull Hca), Hi, Hca.
  unfold ret. simpl. now destruct c.
Qed.

Lemma new_literal_rejected (i t ca o : JSValue) (c : bool) (s : State) :
  title_accepted t = false ->
  exists e, Task.new (Task.literal i t (JBool c) ca o) s = (Throw e, s) /\
            (e = Error_title_required \/ e = Error_title_empty \/ e = Error_title_too_long).
Proof.
  intros Ht. unfold Task.new, Task.literal, get_prop. simpl lookup_prop.
  destruct (validateTitle_rejected t s Ht) as (e & E & Hcase).
  exists e. split; [|exact Hcase]. unfold bind. now rewrite E.
Qed.

Lemma fromJSON_toJSON (t : Task) (s : State) :
  Task_valid t -> Task.fromJSON (Task.toJSON t) s = (Return t, s).
Proof.
  intros (Ht & Hi & Hca & Ho). unfold Task.fromJSON, Task.toJSON.
  rewrite new_literal_accepted by (auto using title_ok_accepted).
  simpl Task.string_of. destruct Ht as [-> _].
  destruct t as [i ti c ca o]; simpl in *. now destruct o.
Qed.

Lemma updateOrder_valid (t : Task) (newOrder : JSValue) (s : State) :
  Task_valid t ->
  Task.updateOrder t newOrder s =
  (Return {| id := id t; title := title t; completed := completed t;
             createdAt := createdAt t; order := with_default newOrder (JNum 0) |}, s).
Proof.
  intros (Ht & Hi & Hca & Ho). unfold Task.updateOrder.
  rewrite new_literal_accepted by (auto using title_ok_accepted).
  simpl Task.string_of. now destruct Ht as [-> _].
Qed.

Lemma toggleCompleted_valid (t : Task) (s : State) :
  Task_valid t ->
  Task.toggleCompleted t s =
  (Return {| id := id t; title := title t; completed := negb (completed t);
             createdAt := createdAt t; order := order t |}, s).
Proof.
  intros (Ht & Hi & Hca & Ho). unfold Task.toggleCompleted.
  rewrite new_literal_accepted by (auto using title_ok_accepted).
  simpl Task.string_of. destruct Ht as [-> _]. now destruct (order t).
Qed.

Lemma updateTitle_accepted (t : Task) (newTitle : JSValue) (s : State) :
  Task_valid t -> title_accepted newTitle = true ->
  Task.updateTitle t newTitle s =
  (Return {| id := id t; title := trim (Task.string_of newTitle);
             completed := completed t; createdAt := createdAt t;
             order := order t |}, s).
Proof.
  intros (Ht & Hi & Hca & Ho) Hn. unfold Task.updateTitle.
  rewrite new_literal_accepted by auto. now destruct (order t).
Qed.

Lemma updateTitle_rejected (t : Task) (newTitle : JSValue) (s : State) :
  title_accepted newTitle = false ->
  exists e, Task.updateTitle t newTitle s = (Throw e, s) /\
            (e = Error_title_required \/ e = Error_title_empty \/ e = Error_title_too_long).
Proof. intros Hn. now apply new_literal_rejected. Qed.

(** Every value the constructor returns satisfies the class invariant. *)
Lemma new_valid (data : JSValue) (s s' : State) (t : Task) :
  Task.new data s = (Return t, s') -> Task_valid t.
Proof.
  unfold Task.new.
  set (ti := get_prop data "title").
  set (i := with_default (get_prop data "id") JNull).
  set (ca := with_default (get_prop data "createdAt") JNull).
  set (o := with_default (get_prop data "order") (JNum 0)).
  assert (Ho : is_undefined o = false).
  { subst o. now destruct (get_prop data "order"). }
  assert (Body :
    (Task.validateTitle ti ;;
     id' <- (if truthy i then ret i else Task.generateId) ;;
     createdAt' <- (if truthy ca then ret ca else Date_dot_now) ;;
     ret {| id := id'; title := trim (Task.string_of ti);
            completed := truthy (with_default (get_prop data "completed") (JBool false));
            createdAt := createdAt'; order := o |}) s = (Return t, s') ->
    Task_valid t).
  { unfold bind. destruct (title_accepted ti) eqn:Ht.
    - rewrite (validateTitle_accepted ti s Ht).
      pose proof (title_accepted_ok ti Ht) as Hok.
      destruct (truthy i) eqn:Hi; destruct (truthy ca) eqn:Hca;
        unfold ret, Task.generateId, crypto_randomUUID, Date_dot_now; simpl;
        intros E; injection E as <- _; repeat split; simpl;
        auto using truthy_uuid; apply Hok.
    - destruct (validateTitle_rejected ti s Ht) as (e & -> & _). discriminate. }
  destruct data; try exact Body; discriminate.
Qed.

(** ** The Map *)

Lemma Map_has_get (k : JSValue) (m : TaskMap) :
  Map_has k m = match Map_get k m with Some _ => true | None => false end.
Proof.
  induction m as [|[k' v] m IH]; [reflexivity|].
  simpl. destruct (JSValue_eqb k' k); [reflexivity | exact IH].
Qed.

Lemma Map_has_In (k : JSValue) (m : TaskMap) :
  Map_has k m = true <-> In k (List.map fst m).
Proof.
  induction m as [|[k' v] m IH]; simpl; [split; [discriminate | tauto]|].
  rewrite orb_true_iff, JSValue_eqb_eq, IH. tauto.
Qed.

Lemma Map_get_In (k : JSValue) (v : Task) (m : TaskMap) :
  Map_get k m = Some v -> In (k, v) m.
Proof.
  induction m as [|[k' v'] m IH]; simpl; [discriminate|].
  destruct (JSValue_eqb k' k) eqn:E.
  - apply JSValue_eqb_true in E. intros [= ->]. left. now subst.
  - intros H. right. now apply IH.
Qed.

(** Putting the previous value back after an overwrite restores the map. *)
Lemma Map_set_restore (k : JSValue) (v previous : Task) (m : TaskMap) :
  Map_get k m = Some previous -> Map_set k previous (Map_set k v m) = m.
Proof.
  induction m as [|[k' v'] m IH]; simpl; [discriminate|].
  destruct (JSValue_eqb k' k) eqn:E; simpl; rewrite E.
  - now intros [= ->].
  - intros H. now rewrite IH.
Qed.

Lemma Map_set_new (k : JSValue) (v : Task) (m : TaskMap) :
  Map_has k m = false -> Map_set k v m = (m ++ [(k, v)])%list.
Proof.
  induction m as [|[k' v'] m IH]; simpl; [reflexivity|].
  destruct (JSValue_eqb k' k); [discriminate|]. simpl. intros H. now rewrite IH.
Qed.

Lemma Map_delete_absent (k : JSValue) (m : TaskMap) :
  Map_has k m = false -> Map_delete k m = m.
Proof.
  induction m as [|[k' v'] m IH]; simpl; [reflexivity|].
  destruct (JSValue_eqb k' k); [discriminate|]. simpl. intros H. now rewrite IH.
Qed.

(** Removing a key that was just added restores the map. *)
Lemma Map_delete_set_new (k : JSValue) (v : Task) (m : TaskMap) :
  Map_has k m = false -> Map_delete k (Map_set k v m) = m.
Proof.
  induction m as [|[k' v'] m IH]; simpl.
  - now rewrite JSValue_eqb_refl.
  - destruct (JSValue_eqb k' k) eqn:E; [discriminate|]. simpl. rewrite E.
    intros H. now rewrite IH.
Qed.

Lemma Map_has_delete (k : JSValue) (m : TaskMap) :
  NoDup (List.map fst m) -> Map_has k (Map_delete k m) = false.
Proof.
  induction m as [|[k' v'] m IH]; simpl; [reflexivity|].
  intros ND. inversion ND as [|? ? Hnot ND']; subst.
  destruct (JSValue_eqb k' k) eqn:E.
  - apply JSValue_eqb_true in E. subst.
    destruct (Map_has k m) eqn:H; [|reflexivity].
    now apply Map_has_In in H.
  - simpl. rewrite E. now apply IH.
Qed.

(** Deleting a key and setting it again keeps the entries and moves the
    entry to the last position. *)
Lemma Map_delete_set_Permutation (k : JSValue) (v : Task) (m : TaskMap) :
  NoDup (List.map fst m) -> Map_get k m = Some v ->
  Map_set k v (Map_delete k m) = (Map_delete k m ++ [(k, v)])%list /\
  Permutation (Map_set k v (Map_delete k m)) m.
Proof.
  intros ND G.
  rewrite Map_set_new by now apply Map_has_delete.
  split; [reflexivity|].
  clear ND. induction m as [|[k' v'] m IH]; simpl in *; [discriminate|].
  destruct (JSValue_eqb k' k) eqn:E.
  - apply JSValue_eqb_true in E. injection G as ->. subst.
    symmetry. apply Permutation_cons_append.
  - simpl. constructor. now apply IH.
Qed.

(** ** States *)

Lemma set_tasks_same (s : State) : set_tasks (tasks (repo s)) s = s.
Proof. now destruct s as [g [m k i]]. Qed.

Lemma set_tasks_twice (a b : TaskMap) (s : State) :
  set_tasks a (set_tasks b s) = set_tasks a s.
Proof. reflexivity. Qed.

(** ** [#persist] *)

Lemma persist_fails (s : State) (name message : string) :
  write_fails s (tasks (repo s)) name message ->
  TaskRepository.persist s = (Throw (persist_error name message), s).
Proof.
  unfold write_fails, blob_of, TaskRepository.persist, try_catch, bind,
    read_tasks, JSON_dot_stringify, TaskRepository.key, localStorage_setItem.
  intros ->. unfold persist_error, exn_name.
  now destruct (String.eqb name "QuotaExceededError").
Qed.

Lemma persist_succeeds (s : State) :
  write_succeeds s (tasks (repo s)) ->
  TaskRepository.persist s = (Return tt, stored (tasks (repo s)) s).
Proof.
  unfold write_succeeds, blob_of, TaskRepository.persist, try_catch, bind,
    read_tasks, JSON_dot_stringify, TaskRepository.key, localStorage_setItem.
  now intros ->.
Qed.

(** ** Rollback of the mutating methods when the write is rejected *)

Lemma save_rollback (task : Task) (s : State) (name message : string) :
  write_fails s (Map_set (id task) task (tasks (repo s))) name message ->
  TaskRepository.save task s = (Throw (Error_save (persist_error name message)), s).
Proof.
  intros F. unfold TaskRepository.save. run_monad. simpl.
  rewrite (persist_fails (set_tasks _ s) name message F). simpl.
  rewrite Map_has_get.
  destruct (Map_get (id task) (tasks (repo s))) as [previous|] eqn:G; simpl.
  - rewrite (Map_set_restore _ _ _ _ G). now rewrite set_tasks_twice, set_tasks_same.
  - rewrite Map_delete_set_new by now rewrite Map_has_get, G.
    now rewrite set_tasks_twice, set_tasks_same.
Qed.

(** The loop of [deleteMany] only changes the map; it counts at least one
    deletion as soon as one of the ids is stored. *)
Lemma delete_each_run (ids : list JSValue) (n : Z) (s : State) :
  exists n' m',
    TaskRepository.delete_each ids n s = (Return n', set_tasks m' s) /\
    n <= n' /\
    ((exists i, In i ids /\ Map_has i (tasks (repo s)) = true) -> n < n') /\
    ((forall i, In i ids -> Map_has i (tasks (repo s)) = false) ->
     n' = n /\ m' = tasks (repo s)).
Proof.
  revert n s. induction ids as [|i ids IH]; intros n s; simpl.
  - exists n, (tasks (repo s)). unfold ret. rewrite set_tasks_same.
    repeat split; try lia. now intros (i & [] & _).
  - run_monad. simpl.
    destruct (IH (if Map_has i (tasks (repo s)) then n + 1 else n)
                 (set_tasks (Map_delete i (tasks (repo s))) s))
      as (n' & m' & E & Hle & Hlt & Hnone).
    exists n', m'. rewrite E. simpl in *.
    destruct (Map_has i (tasks (repo s))) eqn:Hi.
    + split; [reflexivity|]. split; [lia|]. split; [intros _; lia|].
      intros Hall. specialize (Hall i (or_introl eq_refl)). congruence.
    + rewrite (Map_delete_absent i _ Hi) in *.
      split; [reflexivity|]. split; [lia|]. split.
      * intros (j & [<- | Hj] & Hhas); [congruence|]. apply Hlt. now exists j.
      * intros Hall. apply Hnone. intros j Hj. apply Hall. now right.
Qed.

Lemma deleteMany_rollback (ids : list JSValue) (s : State) (name message : string) :
  (forall m, write_fails s m name message) ->
  (exists i, In i ids /\ Map_has i (tasks (repo s)) = true) ->
  TaskRepository.deleteMany ids s
  = (Throw (Error_deleteMany (persist_error name message)), s).
Proof.
  intros F Hsome. unfold TaskRepository.deleteMany. run_monad. simpl.
  destruct (delete_each_run ids 0 s) as (n' & m' & E & _ & Hlt & _). rewrite E.
  specialize (Hlt Hsome).
  destruct (Z.eqb_spec n' 0) as [->|_]; [lia|].
  rewrite (persist_fails (set_tasks m' s) name message (F m')). simpl.
  now rewrite set_tasks_twice, set_tasks_same.
Qed.

Lemma clear_rollback (s : State) (name message : string) :
  write_fails s [] name message ->
  tasks (repo s) <> [] ->
  TaskRepository.clear s = (Throw (Error_clear (persist_error name message)), s).
Proof.
  intros F Hne. unfold TaskRepository.clear. run_monad. simpl.
  unfold Map_size. destruct (tasks (repo s)) as [|kv m] eqn:Em; [congruence|].
  destruct (Z.eqb_spec (Z.of_nat (List.length (kv :: m))) 0) as [E|_];
    [simpl in E; lia|].
  rewrite (persist_fails (set_tasks [] s) name message F). simpl.
  rewrite <- Em. now rewrite set_tasks_twice, set_tasks_same.
Qed.

Lemma forEach_set (l : list Task) (s : State) :
  forEach (fun task => TaskRepository.tasks_set (id task) task) l s
  = (Return tt,
     set_tasks (List.fold_left (fun m task => Map_set (id task) task m) l
                               (tasks (repo s))) s).
Proof.
  revert s. induction l as [|t l IH]; intros s; simpl.
  - unfold ret. now rewrite set_tasks_same.
  - run_monad. simpl. now rewrite IH.
Qed.

Lemma saveMany_rollback (l : list Task) (s : State) (name message : string) :
  write_fails s (List.fold_left (fun m task => Map_set (id task) task m) l
                                (tasks (repo s))) name message ->
  TaskRepository.saveMany l s
  = (Throw (Error_saveMany (persist_error name message)), s).
Proof.
  intros F. unfold TaskRepository.saveMany.
  unfold bind at 1. unfold read_tasks at 1. unfold try_catch, bind.
  rewrite forEach_set.
  rewrite (persist_fails (set_tasks _ s) name message F).
  unfold write_tasks, throw. simpl. now rewrite set_tasks_twice, set_tasks_same.
Qed.

(** [delete] puts the task back with [set], which appends it: the entries
    are those of before, the deleted one now being the last. *)
Lemma delete_rollback (i : JSValue) (t : Task) (s : State) (name message : string) :
  NoDup (List.map fst (tasks (repo s))) ->
  Map_get i (tasks (repo s)) = Some t ->
  write_fails s (Map_delete i (tasks (repo s))) name message ->
  TaskRepository.delete i s
  = (Throw (Error_delete (persist_error name message)),
     set_tasks (Map_delete i (tasks (repo s)) ++ [(i, t)])%list s)
  /\ Permutation (Map_delete i (tasks (repo s)) ++ [(i, t)])%list (tasks (repo s)).
Proof.
  intros ND G F.
  destruct (Map_delete_set_Permutation i t _ ND G) as [E P].
  split; [|now rewrite <- E].
  unfold TaskRepository.delete. run_monad. simpl. rewrite G.
  rewrite (persist_fails (set_tasks _ s) name message F). simpl.
  now rewrite E, set_tasks_twice.
Qed.

(** The constructor changes nothing of the world but the count of random
    draws. *)
Lemma new_state (data : JSValue) (s : State) :
  exists r n, Task.new data s = (r, set_drawn n s).
Proof.
  assert (Same : set_drawn (crypto_drawn (globals s)) s = s).
  { now destruct s as [[] ?]. }
  unfold Task.new.
  assert (Body : forall ti i ca (k : JSValue -> JSValue -> Task),
    exists r n,
      (Task.validateTitle ti ;;
       id' <- (if truthy i then ret i else Task.generateId) ;;
       createdAt' <- (if truthy ca then ret ca else Date_dot_now) ;;
       ret (k id' createdAt')) s = (r, set_drawn n s)).
  { intros ti i ca k. unfold bind. destruct (title_accepted ti) eqn:Ht.
    - rewrite (validateTitle_accepted ti s Ht).
      destruct (truthy i); destruct (truthy ca);
        unfold ret, Task.generateId, crypto_randomUUID, Date_dot_now; simpl;
        first [ eexists; eexists; reflexivity
              | eexists; exists (crypto_drawn (globals s)); rewrite Same; reflexivity ].
    - destruct (validateTitle_rejected ti s Ht) as (e & -> & _).
      exists (Throw e), (crypto_drawn (globals s)). now rewrite Same. }
  destruct data;
    try (eexists; exists (crypto_drawn (globals s)); unfold throw; rewrite Same;
         reflexivity);
    apply (Body _ _ _ (fun a b => mkTask a _ _ b _)).
Qed.

Lemma import_each_state (items : list JSValue) (acc : TaskMap) (s : State) :
  exists r n, TaskRepository.import_each items acc s = (r, set_drawn n s).
Proof.
  revert acc s. induction items as [|d items IH]; intros acc s; simpl.
  - exists (Return acc), (crypto_drawn (globals s)). unfold ret.
    now destruct s as [[] ?].
  - unfold bind, Task.fromJSON. destruct (new_state d s) as (r & n & ->).
    destruct r as [t|e].
    + destruct (IH (Map_set (id t) t acc) (set_drawn n s)) as (r' & n' & ->).
      now exists r', n'.
    + now exists (Throw e), n.
Qed.

(** Whenever [import] throws, the error wraps its cause, and the map and
    the stored blobs are those of before the call. *)
Lemma import_rollback (text : string) (s s' : State) (e : Exn) :
  TaskRepository.import text s = (Throw e, s') ->
  (exists cause, e = Error_import cause) /\
  tasks (repo s') = tasks (repo s) /\
  localStorage_items (globals s') = localStorage_items (globals s).
Proof.
  unfold TaskRepository.import. run_monad. unfold JSON_dot_parse. simpl.
  destruct (JSON_parse (globals s) text) as [v|]; simpl.
  2:{ intros [= <- <-]. eauto. }
  destruct v; simpl; try (intros [= <- <-]; now eauto).
  destruct (import_each_state items [] s) as (r & n & ->).
  destruct r as [tempMap|e0]; simpl.
  2:{ intros [= <- <-]. eauto. }
  unfold JSON_dot_stringify, TaskRepository.key, localStorage_setItem. simpl.
  destruct (localStorage_fault (globals s) (storageKey (repo s))
              (JSON_stringify (globals s)
                 (JArr (List.map Task.toJSON (Map_values tempMap))) None))
    as [[name message]|] eqn:F; simpl.
  - intros [= <- <-]. eauto.
  - unfold TaskRepository.persist, try_catch, bind, read_tasks,
      JSON_dot_stringify, TaskRepository.key, localStorage_setItem. simpl.
    rewrite F. simpl. discriminate.
Qed.

(** When the storage rejects every write, [import] throws. *)
Lemma import_rejected (text : string) (s : State) :
  (forall key value, localStorage_fault (globals s) key value <> None) ->
  exists e s', TaskRepository.import text s = (Throw e, s').
Proof.
  intros F. unfold TaskRepository.import. run_monad. unfold JSON_dot_parse. simpl.
  destruct (JSON_parse (globals s) text) as [v|]; simpl; [|eauto].
  destruct v; simpl; eauto.
  destruct (import_each_state items [] s) as (r & n & ->).
  destruct r as [tempMap|e0]; simpl; [|eauto].
  unfold JSON_dot_stringify, TaskRepository.key, localStorage_setItem. simpl.
  destruct (localStorage_fault (globals s) (storageKey (repo s))
              (JSON_stringify (globals s)
                 (JArr (List.map Task.toJSON (Map_values tempMap))) None))
    as [[name message]|] eqn:E; simpl; [eauto|].
  now apply F in E.
Qed.

(** ** The reads *)

Lemma Repo_valid_values (m : TaskMap) :
  Repo_valid m -> forall t, In t (Map_values m) -> Task_valid t.
Proof.
  intros [_ F] t Ht. unfold Map_values in Ht. apply in_map_iff in Ht as ([k t'] & <- & Hin).
  rewrite Forall_forall in F. now destruct (F _ Hin).
Qed.

Lemma Repo_valid_get (m : TaskMap) (k : JSValue) (t : Task) :
  Repo_valid m -> Map_get k m = Some t -> Task_valid t /\ id t = k.
Proof.
  intros [_ F] G. apply Map_get_In in G. rewrite Forall_forall in F.
  destruct (F _ G) as [E V]. simpl in *. now split.
Qed.

(** On a valid map [findAll] returns the stored tasks, in insertion order,
    and leaves the world as it is. *)
Lemma findAll_valid (s : State) :
  Repo_valid (tasks (repo s)) ->
  TaskRepository.findAll s = (Return (Map_values (tasks (repo s))), s).
Proof.
  intros V. unfold TaskRepository.findAll, bind, read_tasks.
  rewrite (mapM_pure _ (fun t => t)).
  - now rewrite List.map_id.
  - intros t Ht. apply fromJSON_toJSON. now apply (Repo_valid_values _ V).
Qed.

Lemma findBy_valid (predicate : Task -> bool) (s : State) :
  Repo_valid (tasks (repo s)) ->
  TaskRepository.findBy predicate s
  = (Return (List.filter predicate (Map_values (tasks (repo s)))), s).
Proof.
  intros V. unfold TaskRepository.findBy, bind. now rewrite (findAll_valid s V).
Qed.

Lemma findById_valid (i : JSValue) (s : State) :
  Repo_valid (tasks (repo s)) ->
  TaskRepository.findById i s = (Return (Map_get i (tasks (repo s))), s).
Proof.
  intros V. unfold TaskRepository.findById, bind, read_tasks.
  destruct (Map_get i (tasks (repo s))) as [t|] eqn:G; [|reflexivity].
  destruct (Repo_valid_get _ _ _ V G) as [Vt _].
  now rewrite (fromJSON_toJSON t s Vt).
Qed.

Lemma ensureTaskExists_found (i : JSValue) (t : Task) (s : State) :
  Repo_valid (tasks (repo s)) -> Map_get i (tasks (repo s)) = Some t ->
  TaskService.ensureTaskExists TaskRepository_instance i s = (Return t, s).
Proof.
  intros V G. unfold TaskService.ensureTaskExists, call, bind. simpl.
  now rewrite (findById_valid i s V), G.
Qed.

Lemma ensureTaskExists_missing (i : JSValue) (s : State) :
  Repo_valid (tasks (repo s)) -> Map_has i (tasks (repo s)) = false ->
  TaskService.ensureTaskExists TaskRepository_instance i s
  = (Throw (Error_not_found i), s).
Proof.
  intros V H. unfold TaskService.ensureTaskExists, call, bind. simpl.
  rewrite (findById_valid i s V). rewrite Map_has_get in H.
  now destruct (Map_get i (tasks (repo s))).
Qed.

(** ** The sample map *)

Lemma sample_map_valid : Repo_valid sample_map.
Proof.
  split.
  - repeat constructor; simpl; intuition discriminate.
  - repeat constructor; simpl; lia.
Qed.

(** ** C1: atomicity of the mutating methods *)

(** C1 (the code departs from it).  With a storage that rejects every write
    and a repository holding the tasks [a] and [b] in that order,
    [delete("a")] throws the error of a failed persistence, as the claim
    says, but [findAll()] afterwards answers [b, a] where it answered
    [a, b] before the call: the rollback of [delete] re-inserts the task
    with [Map.set], which puts it last.  What is observed through
    [findAll()] is not identical to the snapshot taken before the call. *)
Theorem delete_rollback_reorders :
  let s := sample_state quota_exhausted [(JStr "a", task_a); (JStr "b", task_b)] in
  let s' := set_tasks [(JStr "b", task_b); (JStr "a", task_a)] s in
  TaskRepository.findAll s = (Return [task_a; task_b], s) /\
  TaskRepository.delete (JStr "a") s
  = (Throw (Error_delete Error_quota_exceeded), s') /\
  TaskRepository.findAll s' = (Return [task_b; task_a], s') /\
  fst (TaskRepository.findAll s') <> fst (TaskRepository.findAll s).
Proof.
  cbv zeta. repeat split; try reflexivity. discriminate.
Qed.

(** ** C2 and C3: the statistics *)

Lemma completed_count (l : list Task) (n : Z) :
  List.fold_left (fun k task => if completed task then k + 1 else k) l n
  = n + Z.of_nat (List.length (List.filter completed l)).
Proof.
  revert n. induction l as [|t l IH]; intros n; simpl; [lia|].
  rewrite IH. destruct (completed t); simpl List.length; lia.
Qed.

(** The repository's own statistics, from the number of tasks and the
    number of completed ones. *)
Lemma getStats_counts (s : State) :
  let m := tasks (repo s) in
  let c := Z.of_nat (List.length (List.filter completed (Map_values m))) in
  TaskRepository.getStats s
  = (Return {| stats_total := Map_size m;
               stats_completed := c;
               stats_pending := Map_size m - c;
               stats_completionRate :=
                 if 0 <? Map_size m
                 then toFixed1 (percentage c (Map_size m)) ++ "%"
                 else "0%" |}, s).
Proof.
  cbv zeta. unfold TaskRepository.getStats, bind, read_tasks, ret.
  now rewrite completed_count.
Qed.

(** The service's statistics over a repository object that answers
    [count()] and [countBy(predicate)] without touching the world. *)
Lemma getStatistics_counts (r : RepositoryObject) (s : State)
      (count : M Z) (countBy : (Task -> bool) -> M Z) (n c : Z) :
  method_count r = Some count -> method_countBy r = Some countBy ->
  count s = (Return n, s) ->
  countBy (fun task => completed task) s = (Return c, s) ->
  TaskService.getStatistics r s
  = (Return {| total := n; completedTotal := c; pending := n - c;
               completionRate :=
                 if 0 <? n then Math_round (percentage c n) else 0 |}, s).
Proof.
  intros Hc Hcb Ec Ecb. unfold TaskService.getStatistics, call, bind.
  now rewrite Hc, Hcb, Ec, Ecb.
Qed.

(** C2 (the code departs from it).  For every repository holding exactly
    three tasks of which exactly one is completed, [getStats()] returns the
    counts 3, 1, 2 and the rate ["33.3%"], as the claim says; but
    [TaskService.getStatistics()] over that repository returns nothing: it
    throws the [TypeError] of calling [repository.count], which
    [TaskRepository] does not define. *)
Theorem statistics_three_tasks_one_completed (s : State) :
  List.length (tasks (repo s)) = 3%nat ->
  List.length (List.filter completed (Map_values (tasks (repo s)))) = 1%nat ->
  TaskRepository.getStats s
  = (Return {| stats_total := 3; stats_completed := 1; stats_pending := 2;
               stats_completionRate := "33.3%" |}, s) /\
  TaskService.getStatistics TaskRepository_instance s
  = (Throw (TypeError_not_a_function "count"), s).
Proof.
  intros Hn Hc. split; [|reflexivity].
  rewrite getStats_counts. cbv zeta. unfold Map_size. rewrite Hn, Hc.
  reflexivity.
Qed.

Lemma statistics_three_tasks_one_completed_witness :
  TaskRepository.getStats (sample_state accepts_all sample_map)
  = (Return {| stats_total := 3; stats_completed := 1; stats_pending := 2;
               stats_completionRate := "33.3%" |},
     sample_state accepts_all sample_map) /\
  TaskService.getStatistics TaskRepository_instance (sample_state accepts_all sample_map)
  = (Throw (TypeError_not_a_function "count"), sample_state accepts_all sample_map).
Proof.
  apply (statistics_three_tasks_one_completed (sample_state accepts_all sample_map));
    reflexivity.
Defined.

(** With a repository object that does provide the two aggregate queries,
    three tasks of which one is completed give the integer rate 33. *)
Lemma getStatistics_three_one (r : RepositoryObject) (s : State)
      (count : M Z) (countBy : (Task -> bool) -> M Z) :
  method_count r = Some count -> method_countBy r = Some countBy ->
  count s = (Return 3, s) ->
  countBy (fun task => completed task) s = (Return 1, s) ->
  TaskService.getStatistics r s
  = (Return {| total := 3; completedTotal := 1; pending := 2;
               completionRate := 33 |}, s).
Proof.
  intros Hc Hcb Ec Ecb.
  now rewrite (getStatistics_counts r s count countBy 3 1 Hc Hcb Ec Ecb).
Qed.

(** C3.  Over an instance of [TaskRepository], [getStatistics()],
    [hasTask()], [hasCompletedTasks()] and [hasPendingTasks()] throw in every
    state, and return neither counts nor booleans: the first two call
    [repository.count], the last two [repository.countBy], and the class
    defines neither method.  The state is left as it was. *)
Theorem aggregate_queries_throw (s : State) :
  TaskService.getStatistics TaskRepository_instance s
  = (Throw (TypeError_not_a_function "count"), s) /\
  TaskService.hasTask TaskRepository_instance s
  = (Throw (TypeError_not_a_function "count"), s) /\
  TaskService.hasCompletedTasks TaskRepository_instance s
  = (Throw (TypeError_not_a_function "countBy"), s) /\
  TaskService.hasPendingTasks TaskRepository_instance s
  = (Throw (TypeError_not_a_function "countBy"), s).
Proof. repeat split. Qed.

(** ** C5: [reorderTasks] and a missing id *)

Lemma reorder_map_missing (entries : list (JSValue * JSValue)) (s : State) :
  Repo_valid (tasks (repo s)) ->
  (exists e, In e entries /\ Map_has (fst e) (tasks (repo s)) = false) ->
  exists missing,
    In missing (List.map fst entries) /\
    Map_has missing (tasks (repo s)) = false /\
    mapM reorder_step (List.map reorder_entry entries) s
    = (Throw (Error_not_found missing), s).
Proof.
  intros V.
  induction entries as [|[i o] entries IH]; intros (e & Hin & Hmiss).
  - destruct Hin.
  - simpl List.map. simpl mapM. unfold bind. simpl get_prop.
    destruct (Map_has i (tasks (repo s))) eqn:Hi.
    + destruct Hin as [<- | Hin]; [simpl in Hmiss; congruence|].
      destruct IH as (missing & Hm & Hhas & E); [now exists e|].
      exists missing. split; [now right|]. split; [exact Hhas|].
      rewrite Map_has_get in Hi.
      destruct (Map_get i (tasks (repo s))) as [t|] eqn:G; [|discriminate].
      destruct (Repo_valid_get _ _ _ V G) as [Vt _].
      rewrite (ensureTaskExists_found i t s V G).
      rewrite (updateOrder_valid t o s Vt).
      now rewrite E.
    + exists i. split; [now left|]. split; [exact Hi|].
      now rewrite (ensureTaskExists_missing i s V Hi).
Qed.

(** C5.  If some entry of the list names an id that the repository does not
    hold, [reorderTasks] throws the not-found error of
    [#ensureTaskExists] (for the first such id of the list) and the state
    is exactly the one before the call: the map in memory, the blob in the
    storage and every other part of the world are unchanged, so no task has
    its order updated and nothing is written. *)
Theorem reorderTasks_missing_id (entries : list (JSValue * JSValue)) (s : State) :
  Repo_valid (tasks (repo s)) ->
  (exists e, In e entries /\ Map_has (fst e) (tasks (repo s)) = false) ->
  exists missing,
    In missing (List.map fst entries) /\
    Map_has missing (tasks (repo s)) = false /\
    TaskService.reorderTasks TaskRepository_instance (List.map reorder_entry entries) s
    = (Throw (Error_not_found missing), s).
Proof.
  intros V H.
  destruct (reorder_map_missing entries s V H) as (missing & Hm & Hhas & E).
  exists missing. split; [exact Hm|]. split; [exact Hhas|].
  unfold TaskService.reorderTasks, bind.
  change (mapM _ (List.map reorder_entry entries) s)
    with (mapM reorder_step (List.map reorder_entry entries) s).
  now rewrite E.
Qed.

Lemma reorderTasks_missing_id_witness :
  exists missing,
    In missing (List.map fst [(JStr "missing", JNum 0)]) /\
    Map_has missing (tasks (repo (sample_state accepts_all sample_map))) = false /\
    TaskService.reorderTasks TaskRepository_instance
      (List.map reorder_entry [(JStr "missing", JNum 0)])
      (sample_state accepts_all sample_map)
    = (Throw (Error_not_found missing), sample_state accepts_all sample_map).
Proof.
  apply (reorderTasks_missing_id [(JStr "missing", JNum 0)]
                                 (sample_state accepts_all sample_map)).
  - exact sample_map_valid.
  - exists (JStr "missing", JNum 0). split; [now left | reflexivity].
Defined.

(** ** C6: [updateTask] *)








Lemma save_succeeds (task : Task) (s : State) :
  let m := Map_set (id task) task (tasks (repo s)) in
  write_succeeds s m ->
  TaskRepository.save task s = (Return task, stored m (set_tasks m s)).
Proof.
  cbv zeta. intros W. unfold TaskRepository.save. run_monad. simpl.
  now rewrite (persist_succeeds (set_tasks _ s) W).
Qed.


(** ** C7: the title invariant *)

(** The titles [#validateTitle] rejects are the ones the specification
    lists: not a string (which covers a missing title), empty after trimming,
    longer than 200 characters after trimming. *)
Lemma title_rejected_cases (v : JSValue) :
  title_accepted v = false <->
  (Task.is_string v = false \/
   exists str, v = JStr str /\
               (trim str = EmptyString \/ (200 < String.length (trim str))%nat)).
Proof.
  destruct v as [| | | |str| |]; simpl; try (split; [now left | reflexivity]).
  rewrite andb_false_iff, Nat.ltb_ge, Nat.leb_gt. split.
  - intros [H|H]; right; exists str; (split; [reflexivity|]).
    + left. destruct (trim str); [reflexivity | simpl in H; lia].
    + now right.
  - intros [H | (str' & [= <-] & [H|H])]; [discriminate | |].
    + left. rewrite H. simpl. lia.
    + now right.
Qed.

(** C7.  Every Task returned by the constructor, by [fromJSON], by
    [updateTitle], by [updateOrder] or by [toggleCompleted] has a title that
    is trimmed, not empty and at most 200 characters long; and the
    constructor throws, building no Task and leaving the world as it was,
    when the title of its argument is not a string (a missing title is
    [undefined]), is empty once trimmed, or is longer than 200 characters once
    trimmed: the error is one of the three errors of [#validateTitle], or the
    [TypeError] of destructuring [null] or [undefined]. *)
Theorem title_invariant :
  (forall data s s' t, Task.new data s = (Return t, s') -> title_ok (title t)) /\
  (forall data s s' t, Task.fromJSON data s = (Return t, s') -> title_ok (title t)) /\
  (forall this newTitle s s' t,
     Task.updateTitle this newTitle s = (Return t, s') -> title_ok (title t)) /\
  (forall this newOrder s s' t,
     Task.updateOrder this newOrder s = (Return t, s') -> title_ok (title t)) /\
  (forall this s s' t,
     Task.toggleCompleted this s = (Return t, s') -> title_ok (title t)) /\
  (forall data s,
     let v := get_prop data "title" in
     Task.is_string v = false \/
     (exists str, v = JStr str /\
                  (trim str = EmptyString \/ (200 < String.length (trim str))%nat)) ->
     exists e,
       Task.new data s = (Throw e, s) /\
       (e = Error_title_required \/ e = Error_title_empty \/
        e = Error_title_too_long \/ e = TypeError_destructure)).
Proof.
  repeat split; try (intros; eapply new_valid; eassumption).
  intros data s v H. apply title_rejected_cases in H.
  destruct (validateTitle_rejected v s H) as (e & E & Hcase).
  destruct data;
    try (exists TypeError_destructure; split; [reflexivity | tauto]);
    (exists e; split; [| tauto]; unfold Task.new, bind; fold v; now rewrite E).
Qed.

Lemma title_invariant_witness :
  title_ok "Buy milk" /\
  exists e,
    Task.new (JObj [("title", JStr "   ")]) (sample_state accepts_all [])
    = (Throw e, sample_state accepts_all []) /\
    (e = Error_title_required \/ e = Error_title_empty \/
     e = Error_title_too_long \/ e = TypeError_destructure).
Proof.
  destruct title_invariant as (Hnew & _ & _ & _ & _ & Hthrow).
  split.
  - apply (Hnew (JObj [("title", JStr "  Buy milk ")])
                (sample_state accepts_all [])
                (set_drawn 1 (sample_state accepts_all []))
                {| id := JStr "00000000-0000-4005-9aa5-4d38e5267eea";
                   title := "Buy milk"; completed := false;
                   createdAt := JNum 1700000000000; order := JNum 0 |}).
    reflexivity.
  - apply (Hthrow (JObj [("title", JStr "   ")]) (sample_state accepts_all [])).
    right. exists "   ". split; [reflexivity | now left].
Defined.

(** ** C8 and C9: [searchTasks] *)

Lemma filter_all {A} (f : A -> bool) (l : list A) :
  (forall a, In a l -> f a = true) -> List.filter f l = l.
Proof.
  induction l as [|a l IH]; intros H; simpl; [reflexivity|].
  rewrite (H a (or_introl eq_refl)). f_equal. apply IH. intros; apply H. now right.
Qed.

Lemma searchTasks_string (term : string) (s : State) :
  term <> EmptyString ->
  Repo_valid (tasks (repo s)) ->
  TaskService.searchTasks TaskRepository_instance (JStr term) s
  = (Return (List.filter
               (fun task => includes (toLowerCase (title task))
                                     (toLowerCase (trim term)))
               (Map_values (tasks (repo s)))), s).
Proof.
  intros Hne V. unfold TaskService.searchTasks, call.
  destruct term as [|c r]; [congruence|]. simpl.
  now rewrite (findBy_valid _ s V).
Qed.



(** C9.  For a term that is not empty and consists of white space only,
    [searchTasks] returns every stored task (a copy of each, in the order of
    the map): the trimmed term is the empty string, which every title
    includes.  The result is empty only when the repository is. *)
Theorem searchTasks_whitespace (term : string) (s : State) :
  Repo_valid (tasks (repo s)) ->
  term <> EmptyString -> all_whitespace term = true ->
  trim term = EmptyString /\
  (forall task, includes (toLowerCase (title task)) EmptyString = true) /\
  TaskRepository.findAll s = (Return (Map_values (tasks (repo s))), s) /\
  TaskService.searchTasks TaskRepository_instance (JStr term) s
  = (Return (Map_values (tasks (repo s))), s) /\
  (tasks (repo s) <> [] ->
   fst (TaskService.searchTasks TaskRepository_instance (JStr term) s) <> Return []).
Proof.
  intros V Hne W.
  assert (E : TaskService.searchTasks TaskRepository_instance (JStr term) s
              = (Return (Map_values (tasks (repo s))), s)).
  { rewrite (searchTasks_string term s Hne V), (trim_all_whitespace term W).
    rewrite filter_all; [reflexivity|]. intros task _. apply includes_empty. }
  split; [now apply trim_all_whitespace|].
  split; [intros; apply includes_empty|].
  split; [now apply findAll_valid|].
  split; [exact E|].
  intros Hm. rewrite E. simpl. destruct (tasks (repo s)); [congruence | discriminate].
Qed.

Lemma searchTasks_whitespace_witness :
  TaskService.searchTasks TaskRepository_instance (JStr " ")
    (sample_state accepts_all sample_map)
  = (Return [task_a; task_b; task_c], sample_state accepts_all sample_map).
Proof.
  apply (searchTasks_whitespace " " (sample_state accepts_all sample_map)
                                sample_map_valid).
  - discriminate.
  - reflexivity.
Defined.

(** ** C4 and C10: export, import and the falsy identity fields *)

Lemma items_set_twice (key value : string) (items : list (string * string)) :
  items_set key value (items_set key value items) = items_set key value items.
Proof.
  induction items as [|[k v] items IH]; simpl.
  - now rewrite String.eqb_refl.
  - destruct (String.eqb k key) eqn:E; simpl; rewrite E; [reflexivity|].
    now rewrite IH.
Qed.

(** A successful [import]: the parsed array is converted record by record,
    the new map replaces the old one, and the blob of the new map is what
    the storage holds under the key (it is written twice). *)
Lemma import_succeeds (text : string) (items : list JSValue) (tempMap : TaskMap)
      (s s1 : State) :
  JSON_parse (globals s) text = Some (JArr items) ->
  TaskRepository.import_each items [] s = (Return tempMap, s1) ->
  write_succeeds s1 tempMap ->
  TaskRepository.import text s
  = (Return (Map_size tempMap), stored tempMap (set_tasks tempMap s1)).
Proof.
  intros P E W. unfold TaskRepository.import. run_monad.
  unfold JSON_dot_parse. simpl. rewrite P. simpl. rewrite E.
  unfold JSON_dot_stringify, TaskRepository.key, localStorage_setItem. simpl.
  unfold write_succeeds, blob_of in W. rewrite W. simpl.
  unfold TaskRepository.persist, try_catch, bind, read_tasks,
    JSON_dot_stringify, TaskRepository.key, localStorage_setItem. simpl.
  rewrite W. simpl. unfold stored, blob_of, set_items, set_tasks. simpl.
  now rewrite items_set_twice.
Qed.


(** Setting the entries of a map, in their order, into another map that
    has none of their keys appends them. *)
Lemma rebuild_map (m acc : TaskMap) :
  NoDup (List.map fst (acc ++ m)) ->
  Forall (fun kv => fst kv = id (snd kv)) m ->
  List.fold_left (fun a task => Map_set (id task) task a) (Map_values m) acc
  = (acc ++ m)%list.
Proof.
  revert acc. induction m as [|[k t] m IH]; intros acc ND K; simpl.
  - now rewrite app_nil_r.
  - inversion K as [|? ? Hk K']; subst. simpl in Hk. subst k.
    rewrite Map_set_new.
    + rewrite (IH (acc ++ [(id t, t)])%list).
      * now rewrite <- app_assoc.
      * now rewrite <- app_assoc.
      * exact K'.
    + destruct (Map_has (id t) acc) eqn:H; [|reflexivity].
      apply Map_has_In in H. rewrite map_app in ND.
      apply NoDup_remove_2 in ND. exfalso. apply ND.
      apply in_or_app. now left.
Qed.

Lemma Repo_valid_rebuild (m : TaskMap) :
  Repo_valid m ->
  List.fold_left (fun a task => Map_set (id task) task a) (Map_values m) [] = m.
Proof.
  intros [ND F]. apply (rebuild_map m []); [exact ND|].
  eapply Forall_impl; [|exact F]. now intros kv [E _].
Qed.



(** The constructor on an object whose title is acceptable, in full. *)
Lemma new_object (props : list (string * JSValue)) (s : State) :
  let data := JObj props in
  let i := with_default (get_prop data "id") JNull in
  let ca := with_default (get_prop data "createdAt") JNull in
  title_accepted (get_prop data "title") = true ->
  Task.new data s
  = (Return {| id := if truthy i then i
                     else JStr (uuid_string (crypto_entropy (globals s)
                                                            (crypto_drawn (globals s))));
               title := trim (Task.string_of (get_prop data "title"));
               completed := truthy (with_default (get_prop data "completed")
                                                 (JBool false));
               createdAt := if truthy ca then ca
                            else JNum (Z.pos (Date_now (globals s)));
               order := with_default (get_prop data "order") (JNum 0) |},
     if truthy i then s else set_drawn (S (crypto_drawn (globals s))) s).
Proof.
  cbv zeta. intros Ht. unfold Task.new, bind.
  rewrite (validateTitle_accepted _ s Ht).
  destruct (truthy (with_default (get_prop (JObj props) "id") JNull));
    destruct (truthy (with_default (get_prop (JObj props) "createdAt") JNull));
    reflexivity.
Qed.



(** ** The invariant of the repository *)

Lemma Map_set_keys (k : JSValue) (v : Task) (m : TaskMap) :
  List.map fst (Map_set k v m)
  = if Map_has k m then List.map fst m else (List.map fst m ++ [k])%list.
Proof.
  induction m as [|[k' v'] m IH]; simpl; [reflexivity|].
  destruct (JSValue_eqb k' k) eqn:E; simpl; [reflexivity|].
  rewrite IH. now destruct (Map_has k m).
Qed.

Lemma Map_set_In (k : JSValue) (v : Task) (m : TaskMap) (kv : JSValue * Task) :
  In kv (Map_set k v m) -> In kv m \/ kv = (k, v).
Proof.
  induction m as [|[k' v'] m IH]; simpl.
  - intros [<- | []]. now right.
  - destruct (JSValue_eqb k' k) eqn:E; simpl.
    + apply JSValue_eqb_true in E. subst. intros [<- | H]; [now right | left; now right].
    + intros [<- | H]; [left; now left|]. destruct (IH H); [left; now right | now right].
Qed.

Lemma Map_delete_In (k : JSValue) (m : TaskMap) (kv : JSValue * Task) :
  In kv (Map_delete k m) -> In kv m.
Proof.
  induction m as [|[k' v'] m IH]; simpl; [tauto|].
  destruct (JSValue_eqb k' k); simpl; [now right|].
  intros [<- | H]; [now left | right; now apply IH].
Qed.

Lemma Map_delete_NoDup (k : JSValue) (m : TaskMap) :
  NoDup (List.map fst m) -> NoDup (List.map fst (Map_delete k m)).
Proof.
  induction m as [|[k' v'] m IH]; simpl; [trivial|].
  intros ND. inversion ND as [|? ? Hnot ND']; subst.
  destruct (JSValue_eqb k' k); simpl; [exact ND'|].
  constructor; [|now apply IH].
  intros Hin. apply Hnot. apply in_map_iff in Hin as (kv & <- & Hkv).
  apply in_map. now apply Map_delete_In in Hkv.
Qed.

Lemma Repo_valid_nil : Repo_valid [].
Proof. split; constructor. Qed.

Lemma Repo_valid_set (t : Task) (m : TaskMap) :
  Task_valid t -> Repo_valid m -> Repo_valid (Map_set (id t) t m).
Proof.
  intros Vt [ND F]. split.
  - rewrite Map_set_keys. destruct (Map_has (id t) m) eqn:H; [exact ND|].
    apply NoDup_app; [exact ND | repeat constructor; intros [] |].
    intros x Hx [<- | []]. apply Map_has_In in Hx. congruence.
  - rewrite Forall_forall in *. intros kv Hin.
    destruct (Map_set_In _ _ _ _ Hin) as [H | ->]; [now apply F | now split].
Qed.

Lemma Repo_valid_delete (k : JSValue) (m : TaskMap) :
  Repo_valid m -> Repo_valid (Map_delete k m).
Proof.
  intros [ND F]. split; [now apply Map_delete_NoDup|].
  rewrite Forall_forall in *. intros kv Hin. apply F. now apply Map_delete_In in Hin.
Qed.

Lemma persist_repo (s : State) : repo (snd (TaskRepository.persist s)) = repo s.
Proof.
  unfold TaskRepository.persist, try_catch, bind, read_tasks,
    JSON_dot_stringify, TaskRepository.key, localStorage_setItem. simpl.
  destruct (localStorage_fault _ _ _) as [[name message]|]; simpl; [|reflexivity].
  now destruct (String.eqb name "QuotaExceededError").
Qed.

Lemma persist_outcome (s : State) :
  exists r s', TaskRepository.persist s = (r, s') /\ repo s' = repo s.
Proof.
  exists (fst (TaskRepository.persist s)), (snd (TaskRepository.persist s)).
  split; [now destruct (TaskRepository.persist s) | apply persist_repo].
Qed.

Lemma save_preserves (task : Task) (s : State) :
  Task_valid task -> Repo_valid (tasks (repo s)) ->
  Repo_valid (tasks (repo (snd (TaskRepository.save task s)))).
Proof.
  intros Vt V. unfold TaskRepository.save. run_monad. simpl.
  destruct (persist_outcome (set_tasks (Map_set (id task) task (tasks (repo s))) s))
    as (r & s1 & -> & E).
  destruct r as [[]|e]; simpl.
  - rewrite E. simpl. now apply Repo_valid_set.
  - rewrite Map_has_get.
    destruct (Map_get (id task) (tasks (repo s))) as [previous|] eqn:G; simpl;
      rewrite E; simpl.
    + rewrite (Map_set_restore _ _ _ _ G). exact V.
    + rewrite Map_delete_set_new by now rewrite Map_has_get, G. exact V.
Qed.

Lemma delete_preserves (i : JSValue) (s : State) :
  Repo_valid (tasks (repo s)) ->
  Repo_valid (tasks (repo (snd (TaskRepository.delete i s)))).
Proof.
  intros V. unfold TaskRepository.delete. run_monad. simpl.
  destruct (Map_get i (tasks (repo s))) as [t|] eqn:G; [|exact V].
  destruct (persist_outcome (set_tasks (Map_delete i (tasks (repo s))) s))
    as (r & s1 & -> & E).
  destruct (Repo_valid_get _ _ _ V G) as [Vt <-].
  destruct r as [[]|e]; simpl; rewrite E; simpl.
  - now apply Repo_valid_delete.
  - apply Repo_valid_set; [exact Vt | now apply Repo_valid_delete].
Qed.

Lemma delete_each_preserves (ids : list JSValue) (n : Z) (s : State) :
  Repo_valid (tasks (repo s)) ->
  Repo_valid (tasks (repo (snd (TaskRepository.delete_each ids n s)))).
Proof.
  revert n s. induction ids as [|i ids IH]; intros n s V; simpl; [exact V|].
  run_monad. simpl. apply IH. simpl. now apply Repo_valid_delete.
Qed.

Lemma deleteMany_preserves (ids : list JSValue) (s : State) :
  Repo_valid (tasks (repo s)) ->
  Repo_valid (tasks (repo (snd (TaskRepository.deleteMany ids s)))).
Proof.
  intros V. unfold TaskRepository.deleteMany. run_monad. simpl.
  pose proof (delete_each_preserves ids 0 s V) as Vd.
  destruct (TaskRepository.delete_each ids 0 s) as [[n|e] s1]; simpl in *; [|exact V].
  destruct (n =? 0); simpl; [exact Vd|].
  destruct (persist_outcome s1) as (r & s2 & -> & E).
  destruct r as [[]|e]; simpl; [now rewrite E | exact V].
Qed.

Lemma clear_preserves (s : State) :
  Repo_valid (tasks (repo s)) ->
  Repo_valid (tasks (repo (snd (TaskRepository.clear s)))).
Proof.
  intros V. unfold TaskRepository.clear. run_monad. simpl.
  destruct (Map_size (tasks (repo s)) =? 0); simpl; [exact V|].
  destruct (persist_outcome (set_tasks [] s)) as (r & s2 & -> & E).
  destruct r as [[]|e]; simpl; [rewrite E; apply Repo_valid_nil | exact V].
Qed.

Lemma saveMany_preserves (l : list Task) (s : State) :
  Forall Task_valid l -> Repo_valid (tasks (repo s)) ->
  Repo_valid (tasks (repo (snd (TaskRepository.saveMany l s)))).
Proof.
  intros Vl V. unfold TaskRepository.saveMany.
  unfold bind at 1. unfold read_tasks at 1. unfold try_catch, bind.
  rewrite forEach_set.
  destruct (persist_outcome
              (set_tasks (List.fold_left (fun m task => Map_set (id task) task m) l
                                         (tasks (repo s))) s))
    as (r & s2 & -> & E).
  destruct r as [[]|e]; simpl; [|exact V].
  rewrite E. simpl. clear E. revert V. generalize (tasks (repo s)).
  induction Vl as [|t l Vt _ IH]; intros m V; simpl; [exact V|].
  apply IH. now apply Repo_valid_set.
Qed.

Lemma import_each_preserves (items : list JSValue) (acc tempMap : TaskMap)
      (s s1 : State) :
  Repo_valid acc ->
  TaskRepository.import_each items acc s = (Return tempMap, s1) ->
  Repo_valid tempMap.
Proof.
  revert acc s. induction items as [|d items IH]; intros acc s V; simpl.
  - now intros [= <- _].
  - unfold bind, Task.fromJSON.
    destruct (Task.new d s) as [[t|e] s0] eqn:E; [|discriminate].
    apply IH. apply Repo_valid_set; [|exact V]. now apply (new_valid d s s0).
Qed.

Lemma import_preserves (text : string) (s : State) :
  Repo_valid (tasks (repo s)) ->
  Repo_valid (tasks (repo (snd (TaskRepository.import text s)))).
Proof.
  intros V. unfold TaskRepository.import. run_monad. unfold JSON_dot_parse. simpl.
  destruct (JSON_parse (globals s) text) as [v|]; simpl; [|exact V].
  destruct v; simpl; try exact V.
  destruct (TaskRepository.import_each items [] s) as [[tempMap|e] s1] eqn:E;
    simpl; [|exact V].
  pose proof (import_each_preserves _ _ _ _ _ Repo_valid_nil E) as Vt.
  unfold JSON_dot_stringify, TaskRepository.key, localStorage_setItem. simpl.
  destruct (localStorage_fault _ _ _) as [[name message]|]; simpl; [exact V|].
  match goal with
  | |- context [TaskRepository.persist ?x] =>
      destruct (persist_outcome x) as (r & s2 & -> & E2)
  end.
  destruct r as [[]|e]; simpl; [now rewrite E2 | exact V].
Qed.

Lemma load_each_preserves (items : list JSValue) (s : State) :
  Repo_valid (tasks (repo s)) ->
  Repo_valid (tasks (repo (snd (forEach load_step items s)))).
Proof.
  revert s. induction items as [|d items IH]; intros s V; simpl; [exact V|].
  unfold bind at 1.
  assert (Step : Repo_valid (tasks (repo (snd (load_step d s)))) /\
                 exists s1, load_step d s = (Return tt, s1)).
  { unfold load_step, try_catch, bind, Task.fromJSON.
    destruct (new_state d s) as (r & n & E). rewrite E.
    destruct r as [t|e]; simpl.
    - split; [|eexists; reflexivity].
      apply Repo_valid_set; [|exact V]. now apply (new_valid d s _ t E).
    - split; [exact V | eexists; reflexivity]. }
  destruct Step as [V1 (s1 & E1)]. rewrite E1 in *. simpl in V1. now apply IH.
Qed.

Lemma load_preserves (s : State) :
  Repo_valid (tasks (repo s)) ->
  Repo_valid (tasks (repo (snd (TaskRepository.load s)))).
Proof.
  intros V. unfold TaskRepository.load, try_catch.
  unfold bind at 1. unfold TaskRepository.key at 1.
  unfold bind at 1. unfold localStorage_getItem at 1.
  destruct (items_get (storageKey (repo s)) (localStorage_items (globals s)))
    as [[|c text]|]; simpl; try exact V.
  unfold bind at 1. unfold JSON_dot_parse at 1.
  destruct (JSON_parse (globals s) (String c text)) as [v|]; simpl; [|exact V].
  destruct v; simpl; try exact V.
  unfold bind at 1. unfold write_tasks at 1.
  pose proof (load_each_preserves items (set_tasks [] s) Repo_valid_nil) as Vl.
  change (forEach _ items (set_tasks [] s))
    with (forEach load_step items (set_tasks [] s)).
  destruct (forEach load_step items (set_tasks [] s)) as [[[]|e] s1]; simpl in *;
    [exact Vl|].
  destruct e; exact Vl.
Qed.

(** The invariant holds in every state a repository can reach: the
    constructor establishes it, whatever the storage holds, and every public
    method keeps it, whether it returns or throws ([save] and [saveMany] take
    Task instances, which satisfy the class invariant). *)
Theorem Repo_valid_invariant :
  (forall key s, Repo_valid (tasks (repo (snd (TaskRepository.new key s))))) /\
  (forall s, Repo_valid (tasks (repo s)) ->
     (forall task, Task_valid task ->
        Repo_valid (tasks (repo (snd (TaskRepository.save task s))))) /\
     (forall l, Forall Task_valid l ->
        Repo_valid (tasks (repo (snd (TaskRepository.saveMany l s))))) /\
     (forall i, Repo_valid (tasks (repo (snd (TaskRepository.delete i s))))) /\
     (forall ids, Repo_valid (tasks (repo (snd (TaskRepository.deleteMany ids s))))) /\
     Repo_valid (tasks (repo (snd (TaskRepository.clear s)))) /\
     (forall text, Repo_valid (tasks (repo (snd (TaskRepository.import text s)))))).
Proof.
  split.
  - intros key s. unfold TaskRepository.new, TaskRepository.initialize.
    unfold bind at 1. unfold try_catch. unfold bind at 1.
    match goal with
    | |- context [TaskRepository.load ?x] =>
        pose proof (load_preserves x Repo_valid_nil) as Vl;
        destruct (TaskRepository.load x) as [[[]|e] s1]
    end; simpl in *; [exact Vl | apply Repo_valid_nil].
  - intros s V.
    split; [intros; now apply save_preserves|].
    split; [intros; now apply saveMany_preserves|].
    split; [intros; now apply delete_preserves|].
    split; [intros; now apply deleteMany_preserves|].
    split; [now apply clear_preserves | intros; now apply import_preserves].
Qed.

(** ** Rollback, all methods together *)

(** With a storage that rejects every write: [save], [deleteMany], [clear]
    and [saveMany] throw the wrapped persistence error and leave the whole
    state as it was; [import] throws its wrapped error and leaves the map and
    the storage as they were; [delete] throws the wrapped persistence error
    and leaves the same entries, the deleted one moved to the last place. *)
Theorem rejected_write_rolls_back (s : State) (name message : string) :
  (forall key value, localStorage_fault (globals s) key value = Some (name, message)) ->
  let failure := persist_error name message in
  (forall task, TaskRepository.save task s = (Throw (Error_save failure), s)) /\
  (forall ids, (exists i, In i ids /\ Map_has i (tasks (repo s)) = true) ->
     TaskRepository.deleteMany ids s = (Throw (Error_deleteMany failure), s)) /\
  (tasks (repo s) <> [] ->
     TaskRepository.clear s = (Throw (Error_clear failure), s)) /\
  (forall l, TaskRepository.saveMany l s = (Throw (Error_saveMany failure), s)) /\
  (forall text, exists cause s',
     TaskRepository.import text s = (Throw (Error_import cause), s') /\
     tasks (repo s') = tasks (repo s) /\
     localStorage_items (globals s') = localStorage_items (globals s)) /\
  (forall i t, NoDup (List.map fst (tasks (repo s))) ->
     Map_get i (tasks (repo s)) = Some t ->
     exists s',
       TaskRepository.delete i s = (Throw (Error_delete failure), s') /\
       tasks (repo s') = (Map_delete i (tasks (repo s)) ++ [(i, t)])%list /\
       Permutation (tasks (repo s')) (tasks (repo s)) /\
       localStorage_items (globals s') = localStorage_items (globals s)).
Proof.
  intros F. cbv zeta.
  assert (Fm : forall m, write_fails s m name message) by (intros m; apply F).
  split; [intros; now apply save_rollback|].
  split; [intros; now apply deleteMany_rollback|].
  split; [intros; now apply clear_rollback|].
  split; [intros; now apply saveMany_rollback|].
  split.
  - intros text.
    destruct (import_rejected text s) as (e & s' & E).
    { intros key value. rewrite F. discriminate. }
    destruct (import_rollback text s s' e E) as ((cause & ->) & Ht & Hi).
    now exists cause, s'.
  - intros i t ND G.
    destruct (delete_rollback i t s name message ND G (Fm _)) as [E P].
    eexists. split; [exact E|]. split; [reflexivity|]. split; [exact P | reflexivity].
Qed.

Lemma rejected_write_rolls_back_witness :
  let s := sample_state quota_exhausted sample_map in
  TaskRepository.save task_b s = (Throw (Error_save Error_quota_exceeded), s) /\
  TaskRepository.clear s = (Throw (Error_clear Error_quota_exceeded), s) /\
  TaskRepository.deleteMany [JStr "b"; JStr "zzz"] s
  = (Throw (Error_deleteMany Error_quota_exceeded), s).
Proof.
  cbv zeta.
  destruct (rejected_write_rolls_back (sample_state quota_exhausted sample_map)
              "QuotaExceededError" "The quota has been exceeded."
              (fun _ _ => eq_refl))
    as (Hsave & HdeleteMany & Hclear & _).
  split; [apply Hsave|]. split; [apply Hclear; discriminate|].
  apply HdeleteMany. exists (JStr "b"). split; [now left | reflexivity].
Defined.

(** [clear()] on an empty repository returns 0 and writes nothing, and so
    does [deleteMany(ids)] when none of the ids is stored. *)
Theorem nothing_to_remove (s : State) :
  (tasks (repo s) = [] -> TaskRepository.clear s = (Return 0, s)) /\
  (forall ids, (forall i, In i ids -> Map_has i (tasks (repo s)) = false) ->
     TaskRepository.deleteMany ids s = (Return 0, s)).
Proof.
  split.
  - intros E. unfold TaskRepository.clear. run_monad. now rewrite E.
  - intros ids H. unfold TaskRepository.deleteMany. run_monad. simpl.
    destruct (delete_each_run ids 0 s) as (n' & m' & E & _ & _ & Hnone).
    destruct (Hnone H) as [-> ->]. rewrite E. simpl. now rewrite set_tasks_same.
Qed.

Lemma nothing_to_remove_witness :
  TaskRepository.clear (sample_state quota_exhausted [])
  = (Return 0, sample_state quota_exhausted []) /\
  TaskRepository.deleteMany [JStr "zzz"] (sample_state quota_exhausted sample_map)
  = (Return 0, sample_state quota_exhausted sample_map).
Proof.
  split.
  - apply (nothing_to_remove (sample_state quota_exhausted [])). reflexivity.
  - apply (nothing_to_remove (sample_state quota_exhausted sample_map)).
    intros i [<- | []]. reflexivity.
Defined.

(** Immutability of the entity: toggling a Task returns a Task with the same
    id, creation time, title and order and the opposite completion, and
    changes nothing else. *)
Theorem toggleCompleted_immutable (t : Task) (s : State) :
  Task_valid t ->
  exists t',
    Task.toggleCompleted t s = (Return t', s) /\
    id t' = id t /\ createdAt t' = createdAt t /\ title t' = title t /\
    order t' = order t /\ completed t' = negb (completed t) /\
    completed t' <> completed t.
Proof.
  intros V. eexists. split; [now apply toggleCompleted_valid|]. simpl.
  repeat split. now destruct (completed t).
Qed.

Lemma toggleCompleted_immutable_witness :
  exists t',
    Task.toggleCompleted task_a (sample_state accepts_all []) =
      (Return t', sample_state accepts_all []) /\
    id t' = id task_a /\ createdAt t' = createdAt task_a /\ title t' = title task_a /\
    order t' = order task_a /\ completed t' = negb (completed task_a) /\
    completed t' <> completed task_a.
Proof.
  apply (toggleCompleted_immutable task_a (sample_state accepts_all [])).
  apply (Repo_valid_values _ sample_map_valid). now left.
Defined.

(* ================================================================== *)
(** * Further properties of the three classes *)

(** ** The entity: serialisation and updates *)

(** Reading back the serialised form of a Task gives the same Task: for
    every Task the constructor returns, [Task.fromJSON(t.toJSON())] returns a
    Task with the same five fields, in any world, and generates nothing. *)
Theorem Task_json_roundtrip (data : JSValue) (s s' s2 : State) (t : Task) :
  Task.new data s = (Return t, s') ->
  Task.fromJSON (Task.toJSON t) s2 = (Return t, s2).
Proof. intros E. apply fromJSON_toJSON. exact (new_valid data s s' t E). Qed.

Lemma Task_json_roundtrip_witness :
  Task.fromJSON (Task.toJSON task_b) (sample_state quota_exhausted sample_map)
  = (Return task_b, sample_state quota_exhausted sample_map).
Proof.
  apply (Task_json_roundtrip (Task.toJSON task_b) (sample_state accepts_all [])
                             (sample_state accepts_all [])).
  reflexivity.
Defined.

Lemma Task_valid_fields (t : Task) (ti : string) (c : bool) (o : JSValue) :
  Task_valid t -> title_ok ti -> is_undefined o = false ->
  Task_valid {| id := id t; title := ti; completed := c;
                createdAt := createdAt t; order := o |}.
Proof. unfold Task_valid. simpl. tauto. Qed.

Lemma new_literal_rejected_same (i i' t ca ca' o o' : JSValue) (c c' : bool) (s : State) :
  title_accepted t = false ->
  Task.new (Task.literal i t (JBool c) ca o) s
  = Task.new (Task.literal i' t (JBool c') ca' o') s.
Proof.
  intros Ht.
  destruct (new_literal_rejected i t ca o c s Ht) as (e & E & _).
  destruct (new_literal_rejected i' t ca' o' c' s Ht) as (e' & E' & _).
  rewrite E, E'. f_equal. f_equal.
  revert E E'. unfold Task.new, Task.literal, get_prop. simpl lookup_prop.
  destruct (validateTitle_rejected t s Ht) as (e0 & E0 & _).
  unfold bind. rewrite E0. congruence.
Qed.

Lemma with_default_defined (o : JSValue) (d : Z) : is_undefined (with_default o (JNum d)) = false.
Proof. now destruct o. Qed.

(** What the two field updates return.  [updateOrder] keeps every field but
    the order, which becomes the argument, or 0 when the argument is
    [undefined]; [updateTitle] keeps every field but the title, which becomes
    the trimmed argument, and throws one of the three validation errors,
    leaving the world as it was, when the argument is not an acceptable
    title. *)
Theorem Task_update_results (t : Task) (s : State) :
  Task_valid t ->
  (forall newOrder,
     Task.updateOrder t newOrder s
     = (Return {| id := id t; title := title t; completed := completed t;
                  createdAt := createdAt t;
                  order := if is_undefined newOrder then JNum 0 else newOrder |}, s)) /\
  (forall newTitle,
     title_accepted newTitle = true ->
     Task.updateTitle t newTitle s
     = (Return {| id := id t; title := trim (Task.string_of newTitle);
                  completed := completed t; createdAt := createdAt t;
                  order := order t |}, s)) /\
  (forall newTitle,
     title_accepted newTitle = false ->
     exists e,
       Task.updateTitle t newTitle s = (Throw e, s) /\
       (e = Error_title_required \/ e = Error_title_empty \/ e = Error_title_too_long)) /\
  Task.updateTitle t (JStr (title t)) s = (Return t, s).
Proof.
  intros V. split; [|split; [|split]].
  - intros newOrder. rewrite (updateOrder_valid t newOrder s V). now destruct newOrder.
  - intros newTitle H. now apply updateTitle_accepted.
  - intros newTitle H. now apply updateTitle_rejected.
  - rewrite updateTitle_accepted; [|exact V | apply title_ok_accepted, V].
    simpl. destruct V as ([-> _] & _). now destruct t.
Qed.

Lemma Task_update_results_witness :
  let s := sample_state accepts_all [] in
  Task.updateOrder task_a JUndefined s
  = (Return {| id := JStr "a"; title := "Buy milk"; completed := true;
               createdAt := JNum 1700000000000; order := JNum 0 |}, s) /\
  Task.updateTitle task_a (JStr "  Buy bread  ") s
  = (Return {| id := JStr "a"; title := "Buy bread"; completed := true;
               createdAt := JNum 1700000000000; order := JNum 2 |}, s) /\
  exists e, Task.updateTitle task_a (JNum 3) s = (Throw e, s).
Proof.
  cbv zeta.
  destruct (Task_update_results task_a (sample_state accepts_all [])
              (Repo_valid_values _ sample_map_valid task_a (or_introl eq_refl)))
    as (Horder & Htitle & Hrejected & _).
  split; [apply (Horder JUndefined)|].
  split; [apply (Htitle (JStr "  Buy bread  ")); reflexivity|].
  destruct (Hrejected (JNum 3) eq_refl) as (e & E & _). now exists e.
Defined.

(** How the updates compose, on a Task satisfying the class invariant:
    toggling twice gives the Task back; of two successive updates of the
    order, or of the title, only the second counts; and updates of different
    fields commute, also when the title is rejected (both orders then throw
    the same error). *)
Theorem Task_updates_compose (t : Task) (s : State) :
  Task_valid t ->
  (t1 <- Task.toggleCompleted t ;; Task.toggleCompleted t1) s = (Return t, s) /\
  (forall o1 o2,
     (t1 <- Task.updateOrder t o1 ;; Task.updateOrder t1 o2) s
     = Task.updateOrder t o2 s) /\
  (forall v1 v2, title_accepted v1 = true ->
     (t1 <- Task.updateTitle t v1 ;; Task.updateTitle t1 v2) s
     = Task.updateTitle t v2 s) /\
  (forall v o,
     (t1 <- Task.updateTitle t v ;; Task.updateOrder t1 o) s
     = (t1 <- Task.updateOrder t o ;; Task.updateTitle t1 v) s) /\
  (forall o,
     (t1 <- Task.toggleCompleted t ;; Task.updateOrder t1 o) s
     = (t1 <- Task.updateOrder t o ;; Task.toggleCompleted t1) s) /\
  (forall v,
     (t1 <- Task.toggleCompleted t ;; Task.updateTitle t1 v) s
     = (t1 <- Task.updateTitle t v ;; Task.toggleCompleted t1) s).
Proof.
  intros V.
  assert (Vt := V). destruct Vt as (Ht & Hi & Hca & Ho).
  assert (Vtoggle : Task_valid {| id := id t; title := title t;
                                  completed := negb (completed t);
                                  createdAt := createdAt t; order := order t |})
    by now apply Task_valid_fields.
  assert (Vorder : forall o,
             Task_valid {| id := id t; title := title t; completed := completed t;
                           createdAt := createdAt t;
                           order := with_default o (JNum 0) |}).
  { intros o. apply Task_valid_fields; auto using with_default_defined. }
  assert (Vtitle : forall v, title_accepted v = true ->
             Task_valid {| id := id t; title := trim (Task.string_of v);
                           completed := completed t;
                           createdAt := createdAt t; order := order t |}).
  { intros v Hv. apply Task_valid_fields; auto using title_accepted_ok. }
  unfold bind. repeat split.
  - rewrite (toggleCompleted_valid t s V), (toggleCompleted_valid _ s Vtoggle). simpl.
    rewrite negb_involutive. now destruct t.
  - intros o1 o2.
    now rewrite (updateOrder_valid t o1 s V), (updateOrder_valid _ o2 s (Vorder o1)),
      (updateOrder_valid t o2 s V).
  - intros v1 v2 H1.
    rewrite (updateTitle_accepted t v1 s V H1).
    destruct (title_accepted v2) eqn:H2.
    + now rewrite (updateTitle_accepted _ v2 s (Vtitle v1 H1) H2),
        (updateTitle_accepted t v2 s V H2).
    + unfold Task.updateTitle. cbn [id title completed createdAt order].
      apply (new_literal_rejected_same _ _ _ _ _ _ _ _ _ s H2).
  - intros v o. rewrite (updateOrder_valid t o s V).
    destruct (title_accepted v) eqn:Hv.
    + now rewrite (updateTitle_accepted t v s V Hv),
        (updateOrder_valid _ o s (Vtitle v Hv)),
        (updateTitle_accepted _ v s (Vorder o) Hv).
    + destruct (updateTitle_rejected t v s Hv) as (e & E & _). rewrite E.
      rewrite <- E. unfold Task.updateTitle. cbn [id title completed createdAt order].
      apply (new_literal_rejected_same _ _ _ _ _ _ _ _ _ s Hv).
  - intros o.
    now rewrite (toggleCompleted_valid t s V), (updateOrder_valid _ o s Vtoggle),
      (updateOrder_valid t o s V), (toggleCompleted_valid _ s (Vorder o)).
  - intros v. rewrite (toggleCompleted_valid t s V).
    destruct (title_accepted v) eqn:Hv.
    + now rewrite (updateTitle_accepted _ v s Vtoggle Hv),
        (updateTitle_accepted t v s V Hv), (toggleCompleted_valid _ s (Vtitle v Hv)).
    + destruct (updateTitle_rejected t v s Hv) as (e & E & _). rewrite E.
      rewrite <- E. unfold Task.updateTitle. cbn [id title completed createdAt order].
      apply (new_literal_rejected_same _ _ _ _ _ _ _ _ _ s Hv).
Qed.

Lemma Task_updates_compose_witness :
  (t1 <- Task.toggleCompleted task_c ;; Task.toggleCompleted t1)
    (sample_state accepts_all [])
  = (Return task_c, sample_state accepts_all []).
Proof.
  refine (proj1 (Task_updates_compose task_c (sample_state accepts_all []) _)).
  apply (Repo_valid_values _ sample_map_valid). right. right. now left.
Defined.

(** ** The map and the storage, operation by operation *)

Lemma JSValue_eqb_neq (x y : JSValue) : x <> y -> JSValue_eqb x y = false.
Proof.
  intros N. destruct (JSValue_eqb x y) eqn:E; [|reflexivity].
  now apply JSValue_eqb_true in E.
Qed.

Lemma Map_get_set_same (k : JSValue) (v : Task) (m : TaskMap) :
  Map_get k (Map_set k v m) = Some v.
Proof.
  induction m as [|[k' v'] m IH]; simpl.
  - now rewrite JSValue_eqb_refl.
  - destruct (JSValue_eqb k' k) eqn:E; simpl; now rewrite E.
Qed.

Lemma Map_get_set_other (k k' : JSValue) (v : Task) (m : TaskMap) :
  k <> k' -> Map_get k' (Map_set k v m) = Map_get k' m.
Proof.
  intros N. induction m as [|[k0 v0] m IH]; simpl.
  - now rewrite (JSValue_eqb_neq k k' N).
  - destruct (JSValue_eqb k0 k) eqn:E; simpl.
    + apply JSValue_eqb_true in E. subst k0. now rewrite (JSValue_eqb_neq k k' N).
    + now rewrite IH.
Qed.



Lemma Map_has_false_In (k : JSValue) (m : TaskMap) :
  Map_has k m = false <-> ~ In k (List.map fst m).
Proof.
  rewrite <- Map_has_In. destruct (Map_has k m); split; intros H; try easy.
Qed.

Lemma Map_delete_filter (k : JSValue) (m : TaskMap) :
  NoDup (List.map fst m) ->
  Map_delete k m = List.filter (fun kv => negb (JSValue_eqb (fst kv) k)) m.
Proof.
  induction m as [|[k' v'] m IH]; simpl; [reflexivity|].
  intros ND. inversion ND as [|? ? Hnot ND']; subst.
  destruct (JSValue_eqb k' k) eqn:E; simpl.
  - apply JSValue_eqb_true in E. subst k'. symmetry. apply filter_all.
    intros [k0 v0] Hin. simpl. rewrite JSValue_eqb_neq; [reflexivity|].
    intros ->. apply Hnot. now apply (in_map fst) in Hin.
  - now rewrite IH.
Qed.

Lemma Repo_valid_ids (m : TaskMap) :
  Repo_valid m -> List.map id (Map_values m) = List.map fst m.
Proof.
  intros [_ F]. unfold Map_values. rewrite List.map_map.
  induction F as [|kv m [E _] _ IH]; simpl; [reflexivity|]. now rewrite E, IH.
Qed.

Lemma items_get_set_same (key value : string) (items : list (string * string)) :
  items_get key (items_set key value items) = Some value.
Proof.
  induction items as [|[k v] items IH]; simpl.
  - now rewrite String.eqb_refl.
  - destruct (String.eqb k key) eqn:E; simpl; now rewrite E.
Qed.

Lemma items_get_set_other (key k' value : string) (items : list (string * string)) :
  k' <> key -> items_get k' (items_set key value items) = items_get k' items.
Proof.
  intros N. assert (Hn : String.eqb key k' = false).
  { apply String.eqb_neq. congruence. }
  induction items as [|[k v] items IH]; simpl.
  - now rewrite Hn.
  - destruct (String.eqb k key) eqn:E; simpl.
    + apply String.eqb_eq in E. subst k. now rewrite Hn.
    + now rewrite IH.
Qed.

Lemma mirrored_stored (m : TaskMap) (s : State) : mirrored (stored m (set_tasks m s)).
Proof. unfold mirrored, stored. simpl. apply items_get_set_same. Qed.

(** ** What a method may change *)

Section Respect.

Variable R : State -> State -> Prop.
Hypothesis R_refl : forall s, R s s.
Hypothesis R_trans : forall a b c, R a b -> R b c -> R a c.

Lemma respects_ret {A} (a : A) : respects R (ret a).
Proof. intros s. apply R_refl. Qed.

Lemma respects_throw {A} (e : Exn) : respects R (@throw A e).
Proof. intros s. apply R_refl. Qed.

Lemma respects_bind_at {A B} (m : M A) (k : A -> M B) (s : State) :
  R s (snd (m s)) -> (forall a, respects R (k a)) -> R s (snd (bind m k s)).
Proof.
  intros Hm Hk. unfold bind. destruct (m s) as [[a|e] s1]; simpl in *; [|exact Hm].
  exact (R_trans _ _ _ Hm (Hk a s1)).
Qed.

Lemma respects_bind {A B} (m : M A) (k : A -> M B) :
  respects R m -> (forall a, respects R (k a)) -> respects R (bind m k).
Proof. intros Hm Hk s. now apply respects_bind_at. Qed.

Lemma respects_try_catch {A} (m : M A) (handler : Exn -> M A) :
  respects R m -> (forall e, respects R (handler e)) -> respects R (try_catch m handler).
Proof.
  intros Hm Hh s. unfold try_catch. generalize (Hm s).
  destruct (m s) as [[a|e] s1]; simpl; [trivial|].
  intros H1. exact (R_trans _ _ _ H1 (Hh e s1)).
Qed.

Lemma respects_mapM {A B} (f : A -> M B) (l : list A) :
  (forall a, respects R (f a)) -> respects R (mapM f l).
Proof.
  intros Hf. induction l as [|a l IH]; simpl; [apply respects_ret|].
  apply respects_bind; [apply Hf|]. intros b.
  apply respects_bind; [exact IH|]. intros bs. apply respects_ret.
Qed.

Lemma respects_forEach {A} (f : A -> M unit) (l : list A) :
  (forall a, respects R (f a)) -> respects R (forEach f l).
Proof.
  intros Hf. induction l as [|a l IH]; simpl; [apply respects_ret|].
  apply respects_bind; [apply Hf|]. intros _. exact IH.
Qed.

Lemma respects_with_key {A} (k : string -> M A) :
  (forall s, R s (snd (k (storageKey (repo s)) s))) ->
  respects R (bind TaskRepository.key k).
Proof. intros H s. exact (H s). Qed.

Lemma respects_unchanged {A} (m : M A) :
  (forall s, snd (m s) = s) -> respects R m.
Proof. intros H s. rewrite H. apply R_refl. Qed.

End Respect.

Lemma draws_only_refl (s : State) : draws_only s s.
Proof. exists (crypto_drawn (globals s)). split; [lia|]. now destruct s as [[] r]. Qed.

Lemma draws_only_trans (a b c : State) : draws_only a b -> draws_only b c -> draws_only a c.
Proof.
  intros (n & Hn & ->) (n' & Hn' & ->). exists n'. simpl in *. split; [lia|reflexivity].
Qed.

Lemma own_entry_only_refl (s : State) : own_entry_only s s.
Proof. unfold own_entry_only. repeat split; auto. Qed.

Lemma own_entry_only_trans (a b c : State) :
  own_entry_only a b -> own_entry_only b c -> own_entry_only a c.
Proof.
  unfold own_entry_only.
  intros (A1 & A2 & A3 & A4 & A5 & A6 & A7 & A8 & A9)
         (B1 & B2 & B3 & B4 & B5 & B6 & B7 & B8 & B9).
  repeat split; try congruence; try lia.
  intros k Hk. rewrite B9 by congruence. now apply A9.
Qed.

Lemma draws_only_own (s s' : State) : draws_only s s' -> own_entry_only s s'.
Proof. intros (n & Hn & ->). unfold own_entry_only. simpl. repeat split; auto. Qed.

Lemma JSON_dot_parse_state (text : string) (s : State) : snd (JSON_dot_parse text s) = s.
Proof. unfold JSON_dot_parse. now destruct (JSON_parse (globals s) text). Qed.

Ltac respects_step refl trans :=
  cbv zeta;
  first
    [ apply (respects_ret _ refl)
    | apply (respects_throw _ refl)
    | apply (respects_unchanged _ refl); reflexivity
    | apply (respects_unchanged _ refl); intro; apply JSON_dot_parse_state
    | apply (respects_bind _ trans); [|intro]
    | apply (respects_try_catch _ trans); [|intro]
    | apply (respects_mapM _ refl trans); intro
    | apply (respects_forEach _ refl trans); intro
    | match goal with
      | |- respects _ (match ?x with _ => _ end) => destruct x
      end ].

Lemma draws_only_randomUUID : respects draws_only crypto_randomUUID.
Proof. intros s. exists (S (crypto_drawn (globals s))). split; [lia|reflexivity]. Qed.

Lemma draws_only_validateTitle (v : JSValue) : respects draws_only (Task.validateTitle v).
Proof.
  unfold Task.validateTitle. repeat respects_step draws_only_refl draws_only_trans.
Qed.

Lemma draws_only_new (data : JSValue) : respects draws_only (Task.new data).
Proof.
  unfold Task.new, Task.generateId.
  destruct data;
    repeat first [ apply draws_only_validateTitle | apply draws_only_randomUUID
                 | respects_step draws_only_refl draws_only_trans ].
Qed.

Ltac draws_only_tac :=
  repeat first [ apply draws_only_new
               | respects_step draws_only_refl draws_only_trans ].

Lemma draws_only_findAll : respects draws_only TaskRepository.findAll.
Proof. unfold TaskRepository.findAll, Task.fromJSON. draws_only_tac. Qed.

Lemma draws_only_findBy (p : Task -> bool) : respects draws_only (TaskRepository.findBy p).
Proof.
  unfold TaskRepository.findBy.
  apply (respects_bind _ draws_only_trans); [apply draws_only_findAll|]. intro.
  draws_only_tac.
Qed.

Lemma draws_only_findById (i : JSValue) : respects draws_only (TaskRepository.findById i).
Proof. unfold TaskRepository.findById, Task.fromJSON. draws_only_tac. Qed.

Lemma draws_only_exists (i : JSValue) : respects draws_only (TaskRepository.exists_ i).
Proof. unfold TaskRepository.exists_. draws_only_tac. Qed.

Lemma draws_only_export : respects draws_only TaskRepository.export.
Proof. unfold TaskRepository.export. draws_only_tac. Qed.

Lemma draws_only_getStats : respects draws_only TaskRepository.getStats.
Proof. unfold TaskRepository.getStats. draws_only_tac. Qed.

Lemma own_entry_lift {A} (m : M A) : respects draws_only m -> respects own_entry_only m.
Proof. intros H s. apply draws_only_own, H. Qed.

Lemma own_entry_write_tasks (m : TaskMap) : respects own_entry_only (write_tasks m).
Proof. intros s. unfold own_entry_only. simpl. repeat split; auto. Qed.

Lemma own_entry_setItem (value : string) (s : State) :
  own_entry_only s (snd (localStorage_setItem (storageKey (repo s)) value s)).
Proof.
  unfold localStorage_setItem.
  destruct (localStorage_fault (globals s) (storageKey (repo s)) value) as [[name message]|];
    simpl; [apply own_entry_only_refl|].
  unfold own_entry_only. simpl. repeat split; auto.
  intros k Hk. now apply items_get_set_other.
Qed.

Ltac own_entry_step :=
  first [ apply own_entry_write_tasks
        | apply own_entry_lift, draws_only_new
        | apply respects_with_key; intro; apply own_entry_setItem
        | apply respects_with_key; intro;
          apply (respects_bind_at _ own_entry_only_trans); [apply own_entry_setItem|intro]
        | respects_step own_entry_only_refl own_entry_only_trans ].

Ltac own_entry_tac := repeat own_entry_step.

Lemma own_entry_tasks_set (k : JSValue) (v : Task) :
  respects own_entry_only (TaskRepository.tasks_set k v).
Proof. unfold TaskRepository.tasks_set. own_entry_tac. Qed.

Lemma own_entry_tasks_delete (k : JSValue) :
  respects own_entry_only (TaskRepository.tasks_delete k).
Proof. unfold TaskRepository.tasks_delete. own_entry_tac. Qed.

Lemma own_entry_persist : respects own_entry_only TaskRepository.persist.
Proof. unfold TaskRepository.persist. own_entry_tac. Qed.

Ltac own_entry_methods :=
  repeat first [ apply own_entry_persist | apply own_entry_tasks_set
               | apply own_entry_tasks_delete | own_entry_step ].

Lemma own_entry_save (task : Task) : respects own_entry_only (TaskRepository.save task).
Proof. unfold TaskRepository.save. own_entry_methods. Qed.

Lemma own_entry_delete (i : JSValue) : respects own_entry_only (TaskRepository.delete i).
Proof. unfold TaskRepository.delete. own_entry_methods. Qed.

Lemma own_entry_delete_each (ids : list JSValue) (n : Z) :
  respects own_entry_only (TaskRepository.delete_each ids n).
Proof.
  revert n. induction ids as [|i ids IH]; intros n; simpl; [own_entry_tac|].
  apply (respects_bind _ own_entry_only_trans); [apply own_entry_tasks_delete|].
  intros deleted. apply IH.
Qed.

Lemma own_entry_deleteMany (ids : list JSValue) :
  respects own_entry_only (TaskRepository.deleteMany ids).
Proof.
  unfold TaskRepository.deleteMany.
  repeat first [ apply own_entry_delete_each | apply own_entry_persist | own_entry_step ].
Qed.

Lemma own_entry_clear : respects own_entry_only TaskRepository.clear.
Proof. unfold TaskRepository.clear. own_entry_methods. Qed.

Lemma own_entry_saveMany (l : list Task) : respects own_entry_only (TaskRepository.saveMany l).
Proof. unfold TaskRepository.saveMany. own_entry_methods. Qed.

Lemma own_entry_import_each (items : list JSValue) (acc : TaskMap) :
  respects own_entry_only (TaskRepository.import_each items acc).
Proof.
  revert acc. induction items as [|d items IH]; intros acc; simpl; [own_entry_tac|].
  unfold Task.fromJSON.
  apply (respects_bind _ own_entry_only_trans); [apply own_entry_lift, draws_only_new|].
  intros task. apply IH.
Qed.

Lemma own_entry_import (text : string) : respects own_entry_only (TaskRepository.import text).
Proof.
  unfold TaskRepository.import.
  repeat first [ apply own_entry_import_each | apply own_entry_persist | own_entry_step ].
Qed.

Ltac call_instance :=
  cbv beta iota delta
    [call TaskRepository_instance method_save method_saveMany method_delete
     method_deleteMany method_clear method_findAll method_findBy method_findById
     method_export method_import method_count method_countBy].

Lemma draws_only_ensureTaskExists (i : JSValue) :
  respects draws_only (TaskService.ensureTaskExists TaskRepository_instance i).
Proof.
  unfold TaskService.ensureTaskExists. call_instance.
  apply (respects_bind _ draws_only_trans); [apply draws_only_findById|]. intro.
  draws_only_tac.
Qed.

Lemma draws_only_searchTasks (term : JSValue) :
  respects draws_only (TaskService.searchTasks TaskRepository_instance term).
Proof.
  unfold TaskService.searchTasks. call_instance.
  repeat first [ apply draws_only_findBy | respects_step draws_only_refl draws_only_trans ].
Qed.

(** No query writes.  In every state, also one that breaks the invariant of
    the map, the queries of the repository ([findAll], [findBy], [findById],
    [exists], [export], [getStats]) and of the service ([getTaskById],
    [searchTasks], [exportTasks]) leave the map, the storage, the storage key
    and the rest of the world as they were, random draws apart (a copy made
    of a stored task without an id draws one). *)
Theorem queries_do_not_write (s : State) :
  draws_only s (snd (TaskRepository.findAll s)) /\
  (forall predicate, draws_only s (snd (TaskRepository.findBy predicate s))) /\
  (forall i, draws_only s (snd (TaskRepository.findById i s))) /\
  (forall i, snd (TaskRepository.exists_ i s) = s) /\
  snd (TaskRepository.export s) = s /\
  snd (TaskRepository.getStats s) = s /\
  (forall i, draws_only s (snd (TaskService.getTaskById TaskRepository_instance i s))) /\
  (forall term,
     draws_only s (snd (TaskService.searchTasks TaskRepository_instance term s))) /\
  snd (TaskService.exportTasks TaskRepository_instance s) = s.
Proof.
  split; [apply draws_only_findAll|].
  split; [intros p; apply draws_only_findBy|].
  split; [intros i; apply draws_only_findById|].
  split; [reflexivity|]. split; [reflexivity|]. split; [reflexivity|].
  split; [intros i; apply draws_only_findById|].
  split; [intros term; apply draws_only_searchTasks|].
  reflexivity.
Qed.

Lemma own_entry_createTask (v : JSValue) :
  respects own_entry_only (TaskService.createTask TaskRepository_instance v).
Proof.
  unfold TaskService.createTask. call_instance.
  repeat first [ apply own_entry_save | own_entry_step ].
Qed.

Lemma own_entry_ensureTaskExists (i : JSValue) :
  respects own_entry_only (TaskService.ensureTaskExists TaskRepository_instance i).
Proof. apply own_entry_lift, draws_only_ensureTaskExists. Qed.

Ltac own_entry_service :=
  call_instance;
  repeat first
    [ apply own_entry_ensureTaskExists | apply own_entry_save | apply own_entry_saveMany
    | apply own_entry_delete | apply own_entry_deleteMany | apply own_entry_clear
    | apply own_entry_import | apply own_entry_lift, draws_only_findBy
    | own_entry_step ].

Lemma own_entry_updateTask (i updates : JSValue) :
  respects own_entry_only (TaskService.updateTask TaskRepository_instance i updates).
Proof.
  unfold TaskService.updateTask, read_prop, Task.updateTitle, Task.toggleCompleted,
    Task.updateOrder.
  own_entry_service.
Qed.

Lemma own_entry_toggleTaskCompletion (i : JSValue) :
  respects own_entry_only (TaskService.toggleTaskCompletion TaskRepository_instance i).
Proof. unfold TaskService.toggleTaskCompletion, Task.toggleCompleted. own_entry_service. Qed.

Lemma own_entry_reorderTasks (l : list JSValue) :
  respects own_entry_only (TaskService.reorderTasks TaskRepository_instance l).
Proof. unfold TaskService.reorderTasks, Task.updateOrder. own_entry_service. Qed.

Lemma own_entry_deleteTask (i : JSValue) :
  respects own_entry_only (TaskService.deleteTask TaskRepository_instance i).
Proof. unfold TaskService.deleteTask. own_entry_service. Qed.

Lemma own_entry_clearCompleted :
  respects own_entry_only (TaskService.clearCompleted TaskRepository_instance).
Proof. unfold TaskService.clearCompleted. own_entry_service. Qed.

(** The repository writes its own storage entry only.  Whatever a mutating
    method of the repository or of the service over it does, and whether it
    returns or throws, the other entries of the storage, the storage key,
    the initialisation flag, the codec, the clock and the verdicts of the
    storage are as before, and random draws are only consumed. *)
Theorem writes_own_entry_only (s : State) :
  (forall task, own_entry_only s (snd (TaskRepository.save task s))) /\
  (forall l, own_entry_only s (snd (TaskRepository.saveMany l s))) /\
  (forall i, own_entry_only s (snd (TaskRepository.delete i s))) /\
  (forall ids, own_entry_only s (snd (TaskRepository.deleteMany ids s))) /\
  own_entry_only s (snd (TaskRepository.clear s)) /\
  (forall text, own_entry_only s (snd (TaskRepository.import text s))) /\
  (forall v, own_entry_only s (snd (TaskService.createTask TaskRepository_instance v s))) /\
  (forall i updates,
     own_entry_only s (snd (TaskService.updateTask TaskRepository_instance i updates s))) /\
  (forall i,
     own_entry_only s
       (snd (TaskService.toggleTaskCompletion TaskRepository_instance i s))) /\
  (forall l,
     own_entry_only s (snd (TaskService.reorderTasks TaskRepository_instance l s))) /\
  (forall i, own_entry_only s (snd (TaskService.deleteTask TaskRepository_instance i s))) /\
  own_entry_only s (snd (TaskService.clearCompleted TaskRepository_instance s)) /\
  own_entry_only s (snd (TaskService.clearAll TaskRepository_instance s)) /\
  (forall text,
     own_entry_only s (snd (TaskService.importTasks TaskRepository_instance text s))).
Proof.
  split; [intros; apply own_entry_save|].
  split; [intros; apply own_entry_saveMany|].
  split; [intros; apply own_entry_delete|].
  split; [intros; apply own_entry_deleteMany|].
  split; [apply own_entry_clear|].
  split; [intros; apply own_entry_import|].
  split; [intros; apply own_entry_createTask|].
  split; [intros; apply own_entry_updateTask|].
  split; [intros; apply own_entry_toggleTaskCompletion|].
  split; [intros; apply own_entry_reorderTasks|].
  split; [intros; apply own_entry_deleteTask|].
  split; [apply own_entry_clearCompleted|].
  split; [apply own_entry_clear|].
  intros; apply own_entry_import.
Qed.

(** ** The queries, in terms of the list [findAll] returns *)

Lemma Map_get_find (i : JSValue) (m : TaskMap) :
  Forall (fun kv => fst kv = id (snd kv)) m ->
  Map_get i m = List.find (fun t => JSValue_eqb (id t) i) (Map_values m).
Proof.
  induction 1 as [|[k v] m E _ IH]; simpl; [reflexivity|].
  simpl in E. subst k. now rewrite IH.
Qed.

Lemma Map_has_existsb (i : JSValue) (m : TaskMap) :
  Forall (fun kv => fst kv = id (snd kv)) m ->
  Map_has i m = List.existsb (fun t => JSValue_eqb (id t) i) (Map_values m).
Proof.
  induction 1 as [|[k v] m E _ IH]; simpl; [reflexivity|].
  simpl in E. subst k. now rewrite IH.
Qed.

Lemma Repo_valid_keys (m : TaskMap) :
  Repo_valid m -> Forall (fun kv => fst kv = id (snd kv)) m.
Proof. intros [_ F]. eapply Forall_impl; [|exact F]. now intros kv [E _]. Qed.

Lemma filter_split_length {A} (f : A -> bool) (l : list A) :
  (List.length (List.filter f l)
   + List.length (List.filter (fun a => negb (f a)) l))%nat = List.length l.
Proof.
  induction l as [|a l IH]; simpl; [reflexivity|].
  destruct (f a); simpl; lia.
Qed.

(** The queries agree with each other.  In a state satisfying the invariant
    of the map none of them throws or changes anything, and all of them are
    determined by the list [all] that [findAll] returns, whose tasks have
    distinct ids: [findBy] filters it, [findById] and [getTaskById] return
    its task with that id or [null], [exists] tells whether there is one, and
    [getStats] counts it, completed and pending tasks adding up to the
    total. *)
Theorem queries_agree (s : State) :
  Repo_valid (tasks (repo s)) ->
  exists all,
    TaskRepository.findAll s = (Return all, s) /\
    NoDup (List.map id all) /\
    Forall Task_valid all /\
    (forall predicate,
       TaskRepository.findBy predicate s = (Return (List.filter predicate all), s)) /\
    (forall i,
       TaskRepository.findById i s
       = (Return (List.find (fun t => JSValue_eqb (id t) i) all), s) /\
       TaskService.getTaskById TaskRepository_instance i s
       = TaskRepository.findById i s /\
       TaskRepository.exists_ i s
       = (Return (List.existsb (fun t => JSValue_eqb (id t) i) all), s)) /\
    exists stats,
      TaskRepository.getStats s = (Return stats, s) /\
      stats_total stats = Z.of_nat (List.length all) /\
      stats_completed stats = Z.of_nat (List.length (List.filter completed all)) /\
      stats_pending stats
      = Z.of_nat (List.length (List.filter (fun t => negb (completed t)) all)) /\
      (all = [] -> stats_completionRate stats = "0%").
Proof.
  intros V. exists (Map_values (tasks (repo s))).
  assert (K := Repo_valid_keys _ V).
  split; [now apply findAll_valid|].
  split; [rewrite (Repo_valid_ids _ V); apply V|].
  split; [apply Forall_forall; now apply Repo_valid_values|].
  split; [intros p; now apply findBy_valid|].
  split.
  - intros i. split; [|split].
    + rewrite (findById_valid i s V). now rewrite (Map_get_find i _ K).
    + reflexivity.
    + unfold TaskRepository.exists_. run_monad. now rewrite (Map_has_existsb i _ K).
  - eexists. split; [apply getStats_counts|]. cbn [stats_total stats_completed stats_pending
      stats_completionRate]. unfold Map_size, Map_values. rewrite List.length_map.
    split; [reflexivity|]. split; [reflexivity|]. split.
    + generalize (filter_split_length completed (List.map snd (tasks (repo s)))).
      rewrite List.length_map. lia.
    + intros E. apply List.map_eq_nil in E. now rewrite E.
Qed.

Lemma queries_agree_witness :
  exists all,
    TaskRepository.findAll (sample_state accepts_all sample_map)
    = (Return all, sample_state accepts_all sample_map).
Proof.
  destruct (queries_agree (sample_state accepts_all sample_map) sample_map_valid)
    as (all & E & _).
  exists all. exact E.
Defined.

(** ** What a successful write leaves *)

Lemma stored_tasks (m m0 : TaskMap) (s : State) :
  tasks (repo (stored m0 (set_tasks m s))) = m.
Proof. reflexivity. Qed.

Lemma Map_values_filter (f : JSValue -> bool) (m : TaskMap) :
  Forall (fun kv => fst kv = id (snd kv)) m ->
  Map_values (List.filter (fun kv => f (fst kv)) m)
  = List.filter (fun t => f (id t)) (Map_values m).
Proof.
  induction 1 as [|[k v] m E _ IH]; simpl; [reflexivity|].
  simpl in E. subst k. destruct (f (id v)); simpl; now rewrite IH.
Qed.

Lemma findById_other (i : JSValue) (s s' : State) :
  Repo_valid (tasks (repo s)) -> Repo_valid (tasks (repo s')) ->
  Map_get i (tasks (repo s')) = Map_get i (tasks (repo s)) ->
  fst (TaskRepository.findById i s') = fst (TaskRepository.findById i s).
Proof.
  intros V V' E. rewrite (findById_valid i s V), (findById_valid i s' V'). simpl.
  now rewrite E.
Qed.

(** After a successful [save] the task is found under its id, every other
    id is found as before, the order of the ids in [findAll] is the old one
    (a new id going last) and the storage entry holds the text of the new
    map. *)
Theorem save_then_find (task : Task) (s : State) :
  Task_valid task -> Repo_valid (tasks (repo s)) ->
  write_succeeds s (Map_set (id task) task (tasks (repo s))) ->
  exists s' all all',
    TaskRepository.save task s = (Return task, s') /\
    TaskRepository.findById (id task) s' = (Return (Some task), s') /\
    (forall i, i <> id task ->
       fst (TaskRepository.findById i s') = fst (TaskRepository.findById i s)) /\
    TaskRepository.findAll s = (Return all, s) /\
    TaskRepository.findAll s' = (Return all', s') /\
    List.map id all'
    = (if List.existsb (fun t => JSValue_eqb (id t) (id task)) all
       then List.map id all else List.map id all ++ [id task])%list /\
    mirrored s'.
Proof.
  intros Vt V W.
  set (m := Map_set (id task) task (tasks (repo s))) in *.
  assert (V' : Repo_valid m) by now apply Repo_valid_set.
  exists (stored m (set_tasks m s)), (Map_values (tasks (repo s))), (Map_values m).
  split; [now apply save_succeeds|].
  split.
  { rewrite findById_valid by exact V'. rewrite stored_tasks.
    unfold m. now rewrite Map_get_set_same. }
  split.
  { intros i Hi. apply findById_other; [exact V | exact V' |].
    rewrite stored_tasks. unfold m. apply Map_get_set_other. congruence. }
  split; [now apply findAll_valid|].
  split; [now apply findAll_valid|].
  split; [|apply mirrored_stored].
  rewrite (Repo_valid_ids _ V), (Repo_valid_ids _ V'). unfold m.
  rewrite Map_set_keys. now rewrite (Map_has_existsb _ _ (Repo_valid_keys _ V)).
Qed.

Lemma save_then_find_witness :
  exists s',
    TaskRepository.save task_b (sample_state accepts_all [(JStr "a", task_a)])
    = (Return task_b, s') /\
    TaskRepository.findById (JStr "b") s' = (Return (Some task_b), s').
Proof.
  destruct (save_then_find task_b (sample_state accepts_all [(JStr "a", task_a)]))
    as (s' & all & all' & E & F & _).
  - apply (Repo_valid_values _ sample_map_valid). right. now left.
  - split; [repeat constructor; intros []|].
    repeat constructor; apply (Repo_valid_values _ sample_map_valid); now left.
  - reflexivity.
  - exists s'. split; [exact E | exact F].
Defined.

Lemma delete_succeeds (i : JSValue) (t : Task) (s : State) :
  let m := Map_delete i (tasks (repo s)) in
  Map_get i (tasks (repo s)) = Some t ->
  write_succeeds s m ->
  TaskRepository.delete i s = (Return true, stored m (set_tasks m s)).
Proof.
  cbv zeta. intros G W. unfold TaskRepository.delete. run_monad. simpl. rewrite G. simpl.
  now rewrite (persist_succeeds (set_tasks _ s) W).
Qed.

Lemma delete_absent (i : JSValue) (s : State) :
  Map_has i (tasks (repo s)) = false -> TaskRepository.delete i s = (Return false, s).
Proof.
  intros H. rewrite Map_has_get in H. unfold TaskRepository.delete. run_monad. simpl.
  now destruct (Map_get i (tasks (repo s))).
Qed.



Lemma Map_delete_length (k : JSValue) (m : TaskMap) :
  Z.of_nat (List.length (Map_delete k m))
  = Z.of_nat (List.length m) - (if Map_has k m then 1 else 0).
Proof.
  induction m as [|[k' v'] m IH]; simpl List.length; simpl Map_has; [reflexivity|].
  simpl Map_delete. destruct (JSValue_eqb k' k); simpl orb; simpl List.length; lia.
Qed.

Lemma without_cons (i : JSValue) (ids : list JSValue) (m : TaskMap) :
  NoDup (List.map fst m) -> without (i :: ids) m = without ids (Map_delete i m).
Proof.
  intros ND. rewrite (Map_delete_filter i m ND). unfold without. clear ND.
  assert (L : forall k, listed (i :: ids) k = JSValue_eqb k i || listed ids k)
    by reflexivity.
  induction m as [|[k v] m IH]; [reflexivity|].
  cbn [List.filter fst]. rewrite L.
  destruct (JSValue_eqb k i); cbn [orb negb List.filter fst]; [exact IH|].
  destruct (listed ids k); cbn [negb]; now rewrite IH.
Qed.

(** The loop of [deleteMany] removes the listed ids and counts the removed
    entries. *)
Lemma delete_each_without (ids : list JSValue) (n : Z) (s : State) :
  NoDup (List.map fst (tasks (repo s))) ->
  TaskRepository.delete_each ids n s
  = (Return (n + (Map_size (tasks (repo s)) - Map_size (without ids (tasks (repo s))))),
     set_tasks (without ids (tasks (repo s))) s).
Proof.
  revert n s. induction ids as [|i ids IH]; intros n s ND.
  - simpl. unfold ret, without. simpl.
    rewrite filter_all by reflexivity. rewrite set_tasks_same. f_equal. f_equal. lia.
  - cbn [TaskRepository.delete_each]. run_monad. simpl.
    rewrite IH by (simpl; now apply Map_delete_NoDup). simpl.
    rewrite set_tasks_twice, <- (without_cons i ids _ ND).
    f_equal. f_equal. unfold Map_size. rewrite (Map_delete_length i).
    destruct (Map_has i (tasks (repo s))); lia.
Qed.

Lemma without_length (ids : list JSValue) (m : TaskMap) :
  Map_size m - Map_size (without ids m)
  = Z.of_nat (List.length (List.filter (fun kv => listed ids (fst kv)) m)).
Proof.
  unfold Map_size, without.
  generalize (filter_split_length (fun kv => listed ids (fst kv)) m). lia.
Qed.

Lemma deleteMany_succeeds (ids : list JSValue) (s : State) :
  let m := without ids (tasks (repo s)) in
  NoDup (List.map fst (tasks (repo s))) ->
  write_succeeds s m ->
  Map_size m <> Map_size (tasks (repo s)) ->
  TaskRepository.deleteMany ids s
  = (Return (Map_size (tasks (repo s)) - Map_size m), stored m (set_tasks m s)).
Proof.
  cbv zeta. intros ND W Hne. unfold TaskRepository.deleteMany. run_monad. simpl.
  rewrite (delete_each_without ids 0 s ND). rewrite Z.add_0_l.
  destruct (Z.eqb_spec (Map_size (tasks (repo s))
                        - Map_size (without ids (tasks (repo s)))) 0) as [E|_]; [lia|].
  now rewrite (persist_succeeds (set_tasks _ s) W).
Qed.

Lemma deleteMany_nothing (ids : list JSValue) (s : State) :
  NoDup (List.map fst (tasks (repo s))) ->
  Map_size (without ids (tasks (repo s))) = Map_size (tasks (repo s)) ->
  TaskRepository.deleteMany ids s = (Return 0, s) /\
  without ids (tasks (repo s)) = tasks (repo s).
Proof.
  intros ND E.
  assert (Same : without ids (tasks (repo s)) = tasks (repo s)).
  { unfold without. apply filter_all. intros kv Hin.
    destruct (listed ids (fst kv)) eqn:L; [exfalso|reflexivity].
    generalize (without_length ids (tasks (repo s))). rewrite E, Z.sub_diag.
    destruct (List.filter (fun kv0 => listed ids (fst kv0)) (tasks (repo s))) eqn:F.
    - assert (Hf : In kv (List.filter (fun kv0 => listed ids (fst kv0)) (tasks (repo s))))
        by (apply List.filter_In; now split).
      rewrite F in Hf. destruct Hf.
    - simpl. lia. }
  split; [|exact Same].
  unfold TaskRepository.deleteMany. run_monad. simpl.
  rewrite (delete_each_without ids 0 s ND), E, Z.sub_diag. simpl.
  now rewrite Same, set_tasks_same.
Qed.

Lemma clear_succeeds (s : State) :
  tasks (repo s) <> [] -> write_succeeds s [] ->
  TaskRepository.clear s
  = (Return (Map_size (tasks (repo s))), stored [] (set_tasks [] s)).
Proof.
  intros Hne W. unfold TaskRepository.clear. run_monad. simpl.
  unfold Map_size. destruct (tasks (repo s)) as [|kv m] eqn:Em; [congruence|].
  destruct (Z.eqb_spec (Z.of_nat (List.length (kv :: m))) 0) as [E|_];
    [simpl in E; lia|].
  now rewrite (persist_succeeds (set_tasks [] s) W).
Qed.

(** What the two bulk removals do when the write succeeds.  [deleteMany]
    returns the number of stored tasks whose id is listed (an id listed twice
    or not stored counts for nothing) and leaves the other tasks in their old
    order; [clear] returns the number of stored tasks and leaves none.  When
    something was removed the storage entry holds the text of the new map. *)
Theorem bulk_removal (s : State) :
  Repo_valid (tasks (repo s)) ->
  exists all,
    TaskRepository.findAll s = (Return all, s) /\
    (forall ids,
       write_succeeds s (without ids (tasks (repo s))) ->
       exists s',
         TaskRepository.deleteMany ids s
         = (Return (Z.of_nat (List.length
                                (List.filter (fun t => listed ids (id t)) all))), s') /\
         TaskRepository.findAll s'
         = (Return (List.filter (fun t => negb (listed ids (id t))) all), s') /\
         ((exists t, In t all /\ listed ids (id t) = true) -> mirrored s')) /\
    (write_succeeds s [] ->
     exists s',
       TaskRepository.clear s = (Return (Z.of_nat (List.length all)), s') /\
       TaskRepository.findAll s' = (Return [], s') /\
       (all <> [] -> mirrored s')).
Proof.
  intros V. assert (K := Repo_valid_keys _ V). destruct (V) as [ND _].
  exists (Map_values (tasks (repo s))).
  split; [now apply findAll_valid|]. split.
  - intros ids W.
    assert (Count : Map_size (tasks (repo s)) - Map_size (without ids (tasks (repo s)))
                    = Z.of_nat (List.length (List.filter (fun t => listed ids (id t))
                                               (Map_values (tasks (repo s)))))).
    { rewrite without_length.
      rewrite <- (Map_values_filter (fun k => listed ids k) _ K).
      unfold Map_values. now rewrite List.length_map. }
    assert (Rest : Map_values (without ids (tasks (repo s)))
                   = List.filter (fun t => negb (listed ids (id t)))
                                 (Map_values (tasks (repo s)))).
    { unfold without. now rewrite (Map_values_filter (fun k => negb (listed ids k)) _ K). }
    assert (V' : Repo_valid (without ids (tasks (repo s)))).
    { generalize (deleteMany_preserves ids s V).
      unfold TaskRepository.deleteMany. run_monad. simpl.
      rewrite (delete_each_without ids 0 s ND). simpl.
      destruct (_ =? 0); simpl; [trivial|].
      destruct (persist_outcome (set_tasks (without ids (tasks (repo s))) s))
        as (r & s1 & -> & Er).
      destruct r; simpl; [now rewrite Er|]. intros _.
      split.
      - unfold without. clear - ND. induction (tasks (repo s)) as [|[k v] m IH]; simpl;
          [constructor|]. inversion ND as [|? ? Hnot ND']; subst.
        destruct (listed ids k); simpl; [now apply IH|].
        constructor; [|now apply IH]. intros Hin. apply Hnot.
        apply List.in_map_iff in Hin as (kv & <- & Hin).
        apply List.filter_In in Hin. apply List.in_map. apply Hin.
      - destruct V as [_ F]. rewrite Forall_forall in *. intros kv Hin.
        apply F. unfold without in Hin. now apply List.filter_In in Hin. }
    destruct (Z.eq_dec (Map_size (without ids (tasks (repo s))))
                       (Map_size (tasks (repo s)))) as [E|Hne].
    + destruct (deleteMany_nothing ids s ND E) as [D Same].
      exists s. rewrite <- Count, E, Z.sub_diag. split; [exact D|].
      split; [rewrite findAll_valid by exact V; now rewrite <- Rest, Same|].
      intros (t & Hin & L). exfalso.
      assert (Hf : In t (List.filter (fun t => listed ids (id t))
                                     (Map_values (tasks (repo s)))))
        by (apply List.filter_In; now split).
      rewrite E, Z.sub_diag in Count.
      destruct (List.filter (fun t => listed ids (id t)) (Map_values (tasks (repo s))));
        [destruct Hf | simpl in Count; lia].
    + exists (stored (without ids (tasks (repo s)))
                     (set_tasks (without ids (tasks (repo s))) s)).
      rewrite <- Count. split; [now apply deleteMany_succeeds|].
      split; [|intros _; apply mirrored_stored].
      rewrite findAll_valid by (rewrite stored_tasks; exact V').
      now rewrite stored_tasks, Rest.
  - intros W. destruct (tasks (repo s)) as [|kv m] eqn:Em.
    + exists s. split; [|split; [|now intros []]].
      * unfold TaskRepository.clear. run_monad. now rewrite Em.
      * rewrite findAll_valid by (rewrite Em; apply Repo_valid_nil). now rewrite Em.
    + exists (stored [] (set_tasks [] s)).
      split; [|split; [|intros _; apply mirrored_stored]].
      * rewrite clear_succeeds by (trivial; congruence).
        rewrite Em. unfold Map_size, Map_values. now rewrite List.length_map.
      * rewrite findAll_valid by apply Repo_valid_nil. reflexivity.
Qed.

Lemma bulk_removal_witness :
  exists all,
    TaskRepository.findAll (sample_state accepts_all sample_map)
    = (Return all, sample_state accepts_all sample_map) /\
    exists s',
      TaskRepository.deleteMany [JStr "c"; JStr "z"; JStr "a"; JStr "c"]
                                (sample_state accepts_all sample_map)
      = (Return (Z.of_nat (List.length
                   (List.filter
                      (fun t => listed [JStr "c"; JStr "z"; JStr "a"; JStr "c"] (id t))
                      all))), s').
Proof.
  destruct (bulk_removal (sample_state accepts_all sample_map) sample_map_valid)
    as (all & E & D & _).
  exists all. split; [exact E|].
  destruct (D [JStr "c"; JStr "z"; JStr "a"; JStr "c"] eq_refl) as (s' & E' & _).
  exists s'. exact E'.
Defined.

Lemma find_app {A} (f : A -> bool) (l1 l2 : list A) :
  List.find f (l1 ++ l2)
  = match List.find f l1 with Some a => Some a | None => List.find f l2 end.
Proof. induction l1 as [|a l1 IH]; simpl; [reflexivity|]. now destruct (f a). Qed.

Lemma fold_set_get (i : JSValue) (l : list Task) (m : TaskMap) :
  Map_get i (List.fold_left (fun a task => Map_set (id task) task a) l m)
  = match last_with_id i l with Some t => Some t | None => Map_get i m end.
Proof.
  unfold last_with_id. revert m. induction l as [|t l IH]; intros m; [reflexivity|].
  cbn [List.fold_left List.rev]. rewrite IH, find_app.
  destruct (List.find (fun t0 => JSValue_eqb (id t0) i) (List.rev l)); [reflexivity|].
  cbn [List.find]. destruct (JSValue_eqb (id t) i) eqn:E.
  - apply JSValue_eqb_true in E. subst i. apply Map_get_set_same.
  - apply Map_get_set_other. intros Heq. now rewrite Heq, JSValue_eqb_refl in E.
Qed.

Lemma fold_set_keys (l : list Task) (m : TaskMap) :
  exists added,
    List.map fst (List.fold_left (fun a task => Map_set (id task) task a) l m)
    = (List.map fst m ++ added)%list.
Proof.
  revert m. induction l as [|t l IH]; intros m; cbn [List.fold_left].
  - exists []. now rewrite List.app_nil_r.
  - destruct (IH (Map_set (id t) t m)) as (added & ->). rewrite Map_set_keys.
    destruct (Map_has (id t) m); [now exists added|].
    exists (id t :: added). now rewrite <- List.app_assoc.
Qed.

Lemma fold_set_valid (l : list Task) (m : TaskMap) :
  Forall Task_valid l -> Repo_valid m ->
  Repo_valid (List.fold_left (fun a task => Map_set (id task) task a) l m).
Proof.
  intros F. revert m. induction F as [|t l Vt _ IH]; intros m V; cbn [List.fold_left];
    [exact V|]. apply IH. now apply Repo_valid_set.
Qed.

Lemma saveMany_succeeds (l : list Task) (s : State) :
  let m := List.fold_left (fun a task => Map_set (id task) task a) l (tasks (repo s)) in
  write_succeeds s m ->
  TaskRepository.saveMany l s
  = (Return (Z.of_nat (List.length l)), stored m (set_tasks m s)).
Proof.
  cbv zeta. intros W. unfold TaskRepository.saveMany.
  unfold bind at 1, read_tasks at 1, try_catch. unfold bind at 1.
  rewrite forEach_set. unfold bind at 1.
  now rewrite (persist_succeeds (set_tasks _ s) W).
Qed.

(** What [saveMany] does when the write succeeds.  It returns the length
    of the list it was given, also when tasks of the list share an id; of
    those the last one is stored; an id that is not in the list is found as
    before; the ids already stored keep their places in [findAll], new ones
    follow; the storage entry holds the text of the new map, also for an
    empty list. *)
Theorem saveMany_result (l : list Task) (s : State) :
  Forall Task_valid l -> Repo_valid (tasks (repo s)) ->
  write_succeeds s
    (List.fold_left (fun a task => Map_set (id task) task a) l (tasks (repo s))) ->
  exists s' all all' added,
    TaskRepository.saveMany l s = (Return (Z.of_nat (List.length l)), s') /\
    (forall i,
       fst (TaskRepository.findById i s')
       = match last_with_id i l with
         | Some t => Return (Some t)
         | None => fst (TaskRepository.findById i s)
         end) /\
    TaskRepository.findAll s = (Return all, s) /\
    TaskRepository.findAll s' = (Return all', s') /\
    List.map id all' = (List.map id all ++ added)%list /\
    mirrored s'.
Proof.
  intros F V W.
  set (m := List.fold_left (fun a task => Map_set (id task) task a) l (tasks (repo s)))
    in *.
  assert (V' : Repo_valid m) by now apply fold_set_valid.
  destruct (fold_set_keys l (tasks (repo s))) as (added & Keys). fold m in Keys.
  exists (stored m (set_tasks m s)), (Map_values (tasks (repo s))), (Map_values m), added.
  split; [now apply saveMany_succeeds|].
  split.
  { intros i. rewrite (findById_valid i s V), findById_valid by exact V'.
    rewrite stored_tasks. cbn [fst]. unfold m. rewrite fold_set_get.
    now destruct (last_with_id i l). }
  split; [now apply findAll_valid|].
  split; [now apply findAll_valid|].
  split; [|apply mirrored_stored].
  now rewrite (Repo_valid_ids _ V), (Repo_valid_ids _ V').
Qed.

Lemma saveMany_result_witness :
  exists s',
    TaskRepository.saveMany [task_c; task_c] (sample_state accepts_all [(JStr "a", task_a)])
    = (Return 2, s').
Proof.
  destruct (saveMany_result [task_c; task_c]
              (sample_state accepts_all [(JStr "a", task_a)]))
    as (s' & all & all' & added & E & _).
  - repeat constructor; apply (Repo_valid_values _ sample_map_valid);
      right; right; now left.
  - split; [repeat constructor; intros []|].
    repeat constructor; apply (Repo_valid_values _ sample_map_valid); now left.
  - reflexivity.
  - exists s'. exact E.
Defined.

(** ** The constructor and [#load] *)

Lemma map_only_refl (s : State) : map_only s s.
Proof.
  split; [reflexivity|]. split; [reflexivity|].
  exists (crypto_drawn (globals s)). split; [lia|]. now destruct s as [[] r].
Qed.

Lemma map_only_trans (a b c : State) : map_only a b -> map_only b c -> map_only a c.
Proof.
  intros (A1 & A2 & n & Hn & A3) (B1 & B2 & n' & Hn' & B3).
  split; [congruence|]. split; [congruence|].
  exists n'. rewrite A3 in Hn'. simpl in Hn'. split; [lia|].
  rewrite B3. unfold set_drawn. simpl. now rewrite A3.
Qed.

Lemma map_only_lift {A} (m : M A) : respects draws_only m -> respects map_only m.
Proof.
  intros H s. destruct (H s) as (n & Hn & ->).
  split; [reflexivity|]. split; [reflexivity|]. now exists n.
Qed.

Lemma map_only_write_tasks (m : TaskMap) : respects map_only (write_tasks m).
Proof.
  intros s. split; [reflexivity|]. split; [reflexivity|].
  exists (crypto_drawn (globals s)). split; [lia|]. now destruct s as [[] r].
Qed.

Ltac map_only_step :=
  first [ apply map_only_write_tasks
        | apply map_only_lift, draws_only_new
        | respects_step map_only_refl map_only_trans ].

Lemma map_only_load : respects map_only TaskRepository.load.
Proof.
  unfold TaskRepository.load, TaskRepository.tasks_set, Task.fromJSON.
  repeat map_only_step.
Qed.

Lemma new_defined (data : JSValue) :
  data <> JUndefined -> data <> JNull ->
  Task.new data
  = (Task.validateTitle (get_prop data "title") ;;
     id' <- (if truthy (with_default (get_prop data "id") JNull)
             then ret (with_default (get_prop data "id") JNull)
             else Task.generateId) ;;
     createdAt' <- (if truthy (with_default (get_prop data "createdAt") JNull)
                    then ret (with_default (get_prop data "createdAt") JNull)
                    else Date_dot_now) ;;
     ret {| id := id';
            title := trim (Task.string_of (get_prop data "title"));
            completed := truthy (with_default (get_prop data "completed") (JBool false));
            createdAt := createdAt';
            order := with_default (get_prop data "order") (JNum 0) |}).
Proof. now destruct data. Qed.

Lemma new_rejected (data : JSValue) (s : State) :
  constructible data = false ->
  exists e, Task.new data s = (Throw e, s) /\
            (e = TypeError_destructure \/ e = Error_title_required \/
             e = Error_title_empty \/ e = Error_title_too_long).
Proof.
  intros H.
  assert (Nullish : data = JUndefined \/ data = JNull \/
                    (data <> JUndefined /\ data <> JNull /\
                     title_accepted (get_prop data "title") = false)).
  { destruct data; auto; right; right; (split; [|split]); try discriminate; exact H. }
  destruct Nullish as [->|[->|(N1 & N2 & Ht)]];
    try (exists TypeError_destructure; split; [reflexivity|now left]).
  rewrite (new_defined data N1 N2).
  destruct (validateTitle_rejected _ s Ht) as (e & E & Hcase).
  exists e. unfold bind. rewrite E. split; [reflexivity|]. now right.
Qed.

Lemma new_constructible (data : JSValue) (s : State) :
  constructible data = true ->
  exists t s', Task.new data s = (Return t, s').
Proof.
  intros H.
  assert (Defined : data <> JUndefined /\ data <> JNull /\
                    title_accepted (get_prop data "title") = true).
  { destruct data; try discriminate; (split; [|split]); try discriminate; exact H. }
  destruct Defined as (N1 & N2 & Ht).
  rewrite (new_defined data N1 N2). unfold bind.
  rewrite (validateTitle_accepted _ s Ht).
  destruct (truthy (with_default (get_prop data "id") JNull));
    destruct (truthy (with_default (get_prop data "createdAt") JNull));
    eexists; eexists; reflexivity.
Qed.

Lemma toJSON_constructible (t : Task) : Task_valid t -> constructible (Task.toJSON t) = true.
Proof. intros (Ht & _). now apply title_ok_accepted. Qed.

Lemma load_step_rejected (data : JSValue) (s : State) :
  constructible data = false -> load_step data s = (Return tt, s).
Proof.
  intros H. unfold load_step, try_catch, bind at 1, Task.fromJSON.
  now destruct (new_rejected data s H) as (e & -> & _).
Qed.

Lemma load_skips (items : list JSValue) (s : State) :
  forEach load_step items s = forEach load_step (List.filter constructible items) s.
Proof.
  revert s. induction items as [|d items IH]; intros s; [reflexivity|].
  cbn [forEach List.filter]. destruct (constructible d) eqn:C.
  - cbn [forEach]. unfold bind. destruct (load_step d s) as [[[]|e] s1]; [apply IH|reflexivity].
  - unfold bind. rewrite (load_step_rejected d s C). apply IH.
Qed.

Lemma load_serialised (l : list Task) (s : State) :
  Forall Task_valid l ->
  forEach load_step (List.map Task.toJSON l) s
  = (Return tt,
     set_tasks (List.fold_left (fun a task => Map_set (id task) task a) l
                               (tasks (repo s))) s).
Proof.
  intros F. revert s. induction F as [|t l Vt _ IH]; intros s.
  - simpl. unfold ret. now rewrite set_tasks_same.
  - cbn [List.map forEach List.fold_left]. unfold bind at 1.
    unfold load_step at 1, try_catch, bind at 1. rewrite (fromJSON_toJSON t s Vt).
    unfold TaskRepository.tasks_set, bind, read_tasks, write_tasks.
    rewrite IH. now rewrite set_tasks_twice.
Qed.

(** [#load] on an entry holding an array. *)
Lemma load_array (text : string) (items : list JSValue) (s : State) :
  items_get (storageKey (repo s)) (localStorage_items (globals s)) = Some text ->
  text <> EmptyString ->
  JSON_parse (globals s) text = Some (JArr items) ->
  TaskRepository.load s
  = match forEach load_step (List.filter constructible items) (set_tasks [] s) with
    | (Return a, s') => (Return a, s')
    | (Throw e, s') =>
        match e with SyntaxError => throw Error_corrupt_json | _ => throw e end s'
    end.
Proof.
  intros G Hne P. unfold TaskRepository.load, try_catch.
  unfold bind at 1. unfold TaskRepository.key at 1.
  unfold bind at 1. unfold localStorage_getItem at 1. rewrite G.
  destruct text as [|c text]; [congruence|].
  unfold bind at 1. unfold JSON_dot_parse at 1. rewrite P.
  unfold bind at 1. unfold write_tasks at 1.
  change (forEach _ items (set_tasks [] s)) with (forEach load_step items (set_tasks [] s)).
  now rewrite load_skips.
Qed.

Lemma initialize_outcome (s : State) :
  TaskRepository.initialize s
  = (Return tt,
     match TaskRepository.load s with
     | (Return _, s1) => set_initialized true s1
     | (Throw _, s1) => set_initialized true (set_tasks [] s1)
     end).
Proof.
  unfold TaskRepository.initialize, try_catch. unfold bind at 1.
  now destruct (TaskRepository.load s) as [[[]|e] s1].
Qed.

(** The constructor never throws.  Whatever the storage holds, it returns
    a repository with the given key, marked initialised, that has read the
    storage without writing it; unless the entry of that key is a non-empty
    text that parses to an array, the repository is empty. *)
Theorem constructor_never_throws (key : string) (s : State) :
  exists s',
    TaskRepository.new key s = (Return tt, s') /\
    storageKey (repo s') = key /\
    initialized (repo s') = true /\
    (exists n, (crypto_drawn (globals s) <= n)%nat /\
               globals s' = globals (set_drawn n s)) /\
    ((~ exists text items,
          items_get key (localStorage_items (globals s)) = Some text /\
          text <> EmptyString /\
          JSON_parse (globals s) text = Some (JArr items)) ->
     tasks (repo s') = []).
Proof.
  set (s0 := {| globals := globals s;
                repo := {| tasks := []; storageKey := key; initialized := false |} |}).
  assert (E : TaskRepository.new key s = TaskRepository.initialize s0) by reflexivity.
  rewrite E, initialize_outcome. eexists. split; [reflexivity|].
  pose proof (map_only_load s0) as L.
  split; [|split; [|split]].
  - destruct (TaskRepository.load s0) as [[[]|e] s1]; simpl in *; apply L.
  - now destruct (TaskRepository.load s0) as [[[]|e] s1].
  - destruct (TaskRepository.load s0) as [[[]|e] s1]; simpl in *;
      destruct L as (_ & _ & n & Hn & G); exists n; (split; [exact Hn|]);
      rewrite G; reflexivity.
  - intros Hnot. clear L.
    unfold TaskRepository.load, try_catch.
    unfold bind at 1. unfold TaskRepository.key at 1.
    unfold bind at 1. unfold localStorage_getItem at 1.
    change (storageKey (repo s0)) with key.
    change (localStorage_items (globals s0)) with (localStorage_items (globals s)).
    destruct (items_get key (localStorage_items (globals s))) as [[|c text]|] eqn:G;
      try reflexivity.
    unfold bind at 1. unfold JSON_dot_parse at 1.
    change (JSON_parse (globals s0)) with (JSON_parse (globals s)).
    destruct (JSON_parse (globals s) (String c text)) as [v|] eqn:P; [|reflexivity].
    destruct v; try reflexivity.
    exfalso. apply Hnot. exists (String c text), items. now repeat split.
Qed.

Lemma new_loads (key text : string) (items : list JSValue) (l : list Task) (s : State) :
  items_get key (localStorage_items (globals s)) = Some text ->
  text <> EmptyString ->
  JSON_parse (globals s) text = Some (JArr items) ->
  List.filter constructible items = List.map Task.toJSON l ->
  Forall Task_valid l ->
  TaskRepository.new key s
  = (Return tt,
     {| globals := globals s;
        repo := {| tasks := List.fold_left (fun a task => Map_set (id task) task a) l [];
                   storageKey := key;
                   initialized := true |} |}).
Proof.
  intros G Hne P Hl F.
  set (s0 := {| globals := globals s;
                repo := {| tasks := []; storageKey := key; initialized := false |} |}).
  assert (E : TaskRepository.new key s = TaskRepository.initialize s0) by reflexivity.
  rewrite E, initialize_outcome.
  rewrite (load_array text items s0 G Hne P), Hl, (load_serialised l _ F).
  reflexivity.
Qed.




(** A restart restores the collection.  When the storage entry holds the
    text of the map (as it does after every successful write) and the codec
    reads that text back as the array it was made from, constructing a
    repository again over the same key gives the very same state: the same
    tasks, in the same order. *)
Theorem restart_restores (s : State) :
  Repo_valid (tasks (repo s)) ->
  initialized (repo s) = true ->
  mirrored s ->
  blob_of (globals s) (tasks (repo s)) <> EmptyString ->
  JSON_parse (globals s) (blob_of (globals s) (tasks (repo s)))
  = Some (JArr (List.map Task.toJSON (Map_values (tasks (repo s))))) ->
  TaskRepository.new (storageKey (repo s)) s = (Return tt, s).
Proof.
  intros V I Mi Hne P.
  rewrite (new_loads (storageKey (repo s)) _ _ (Map_values (tasks (repo s))) s Mi Hne P).
  - rewrite (Repo_valid_rebuild _ V). destruct s as [g [m k i]]. simpl in *. now subst i.
  - apply filter_all. intros d Hin. apply List.in_map_iff in Hin as (t & <- & Hin).
    apply toJSON_constructible. now apply (Repo_valid_values _ V).
  - apply Forall_forall. now apply Repo_valid_values.
Qed.

Lemma restart_restores_witness :
  let s := stored sample_map (set_tasks sample_map (sample_state accepts_all [])) in
  TaskRepository.new "todo_tasks" s = (Return tt, s).
Proof.
  cbv zeta.
  apply (restart_restores
           (stored sample_map (set_tasks sample_map (sample_state accepts_all [])))).
  - exact sample_map_valid.
  - reflexivity.
  - apply mirrored_stored.
  - vm_compute. discriminate.
  - vm_compute. reflexivity.
Defined.

(** ** [import] *)

(** A successful [import], read backwards. *)
Lemma import_returns (text : string) (n : Z) (s s' : State) :
  TaskRepository.import text s = (Return n, s') ->
  exists items tempMap s1,
    JSON_parse (globals s) text = Some (JArr items) /\
    TaskRepository.import_each items [] s = (Return tempMap, s1) /\
    write_succeeds s1 tempMap /\
    n = Map_size tempMap /\
    s' = stored tempMap (set_tasks tempMap s1).
Proof.
  intros H.
  destruct (JSON_parse (globals s) text) as [v|] eqn:P.
  2:{ revert H. unfold TaskRepository.import. run_monad. unfold JSON_dot_parse. simpl.
      rewrite P. discriminate. }
  assert (A : exists items, v = JArr items).
  { revert H. unfold TaskRepository.import. run_monad. unfold JSON_dot_parse. simpl.
    rewrite P. destruct v; simpl; try discriminate. eauto. }
  destruct A as (items & ->).
  destruct (TaskRepository.import_each items [] s) as [[tempMap|e] s1] eqn:E.
  2:{ revert H. unfold TaskRepository.import. run_monad. unfold JSON_dot_parse. simpl.
      rewrite P. simpl. rewrite E. discriminate. }
  destruct (localStorage_fault (globals s1) (storageKey (repo s1))
              (blob_of (globals s1) tempMap)) as [[name message]|] eqn:W.
  { revert H. unfold TaskRepository.import. run_monad. unfold JSON_dot_parse. simpl.
    rewrite P. simpl. rewrite E.
    unfold JSON_dot_stringify, TaskRepository.key, localStorage_setItem. simpl.
    unfold blob_of in W. rewrite W. discriminate. }
  rewrite (import_succeeds text items tempMap s s1 P E W) in H.
  injection H as <- <-. exists items, tempMap, s1. now repeat split.
Qed.


Lemma Map_has_set (k k' : JSValue) (v : Task) (m : TaskMap) :
  Map_has k' (Map_set k v m) = JSValue_eqb k k' || Map_has k' m.
Proof.
  rewrite !Map_has_get. destruct (JSValue_eqb k k') eqn:E.
  - apply JSValue_eqb_true in E. subst k'. now rewrite Map_get_set_same.
  - rewrite Map_get_set_other; [reflexivity|]. intros ->. now rewrite JSValue_eqb_refl in E.
Qed.





Lemma import_each_rejects (items : list JSValue) (acc : TaskMap) (s : State) :
  List.forallb constructible items = false ->
  exists e s1,
    TaskRepository.import_each items acc s = (Throw e, s1) /\
    (e = TypeError_destructure \/ e = Error_title_required \/
     e = Error_title_empty \/ e = Error_title_too_long).
Proof.
  revert acc s. induction items as [|d items IH]; intros acc s; [discriminate|].
  cbn [List.forallb TaskRepository.import_each]. unfold bind at 1, Task.fromJSON.
  destruct (constructible d) eqn:C.
  - destruct (new_constructible d s C) as (t & s0 & ->). simpl. intros H.
    now apply IH.
  - intros _. destruct (new_rejected d s C) as (e & -> & Hcase). now exists e, s.
Qed.

(** [import] is strict where the constructor is lenient.  A text that does
    not parse, a text that is not an array and an array with one record that
    the constructor of [Task] rejects all make [import] throw, the error of
    the parser, of the check or of the constructor being the cause of the
    error thrown, and leave the collection and the storage as they were. *)
Theorem import_strict (text : string) (s : State) :
  (JSON_parse (globals s) text = None ->
   TaskRepository.import text s = (Throw (Error_import SyntaxError), s)) /\
  (forall v, JSON_parse (globals s) text = Some v -> (forall items, v <> JArr items) ->
   TaskRepository.import text s = (Throw (Error_import Error_import_not_array), s)) /\
  (forall items, JSON_parse (globals s) text = Some (JArr items) ->
   List.forallb constructible items = false ->
   exists cause s',
     TaskRepository.import text s = (Throw (Error_import cause), s') /\
     (cause = TypeError_destructure \/ cause = Error_title_required \/
      cause = Error_title_empty \/ cause = Error_title_too_long) /\
     tasks (repo s') = tasks (repo s) /\
     localStorage_items (globals s') = localStorage_items (globals s)).
Proof.
  split; [|split].
  - intros P. unfold TaskRepository.import. run_monad. unfold JSON_dot_parse. simpl.
    rewrite P. simpl. now rewrite set_tasks_same.
  - intros v P Hv. unfold TaskRepository.import. run_monad. unfold JSON_dot_parse. simpl.
    rewrite P. destruct v; simpl; try now rewrite set_tasks_same.
    now destruct (Hv items).
  - intros items P C.
    destruct (import_each_rejects items [] s C) as (e & s1 & E & Hcase).
    assert (H : TaskRepository.import text s
                = (Throw (Error_import e), set_tasks (tasks (repo s)) s1)).
    { unfold TaskRepository.import. run_monad. unfold JSON_dot_parse. simpl.
      rewrite P. simpl. now rewrite E. }
    exists e, (set_tasks (tasks (repo s)) s1). split; [exact H|]. split; [exact Hcase|].
    now destruct (import_rollback text s _ _ H) as (_ & Ht & Hi).
Qed.

(** ** The storage entry follows the map *)

Lemma mirrored_same (s s' : State) :
  own_entry_only s s' ->
  tasks (repo s') = tasks (repo s) ->
  localStorage_items (globals s') = localStorage_items (globals s) ->
  mirrored s -> mirrored s'.
Proof.
  intros (_ & J & _ & _ & _ & _ & K & _) T I Mi. unfold mirrored, blob_of in *.
  now rewrite K, I, J, T.
Qed.

Lemma write_verdict (s : State) (m : TaskMap) :
  write_succeeds s m \/ exists name message, write_fails s m name message.
Proof.
  unfold write_succeeds, write_fails.
  destruct (localStorage_fault _ _ _) as [[name message]|]; eauto.
Qed.

Lemma deleteMany_outcome (ids : list JSValue) (s : State) :
  snd (TaskRepository.deleteMany ids s) = s \/
  exists m, snd (TaskRepository.deleteMany ids s) = stored m (set_tasks m s).
Proof.
  unfold TaskRepository.deleteMany. run_monad. simpl.
  destruct (delete_each_run ids 0 s) as (n' & m' & E & _ & Hlt & Hsame). rewrite E.
  destruct (Z.eqb_spec n' 0) as [->|Hn]; simpl.
  - left. destruct (List.existsb (fun i => Map_has i (tasks (repo s))) ids) eqn:X.
    + apply List.existsb_exists in X. specialize (Hlt X). lia.
    + destruct Hsame as [_ ->]; [|apply set_tasks_same].
      intros i Hin. destruct (Map_has i (tasks (repo s))) eqn:H; [|reflexivity].
      assert (Y : List.existsb (fun i => Map_has i (tasks (repo s))) ids = true)
        by (apply List.existsb_exists; eauto).
      congruence.
  - destruct (write_verdict (set_tasks m' s) m') as [W|(name & message & F)].
    + right. exists m'. now rewrite (persist_succeeds (set_tasks m' s) W).
    + left. rewrite (persist_fails (set_tasks m' s) name message F). simpl.
      now rewrite set_tasks_twice, set_tasks_same.
Qed.

(** The storage entry follows the map.  If the entry of the repository's
    key holds the text of its map, it still does after [save], [saveMany],
    [deleteMany], [clear] and [import], whether they return or throw (a
    rejected write is rolled back), and after a [delete] that returns; a
    [delete] that throws is the one exception, since its rollback changes the
    order of the map. *)
Theorem storage_mirrors_map (s : State) :
  mirrored s ->
  (forall task, mirrored (snd (TaskRepository.save task s))) /\
  (forall l, mirrored (snd (TaskRepository.saveMany l s))) /\
  (forall ids, mirrored (snd (TaskRepository.deleteMany ids s))) /\
  mirrored (snd (TaskRepository.clear s)) /\
  (forall text, mirrored (snd (TaskRepository.import text s))) /\
  (forall i b s', TaskRepository.delete i s = (Return b, s') -> mirrored s').
Proof.
  intros Mi. split; [|split; [|split; [|split; [|split]]]].
  - intros task.
    destruct (write_verdict s (Map_set (id task) task (tasks (repo s))))
      as [W|(name & message & F)].
    + rewrite (save_succeeds task s W). apply mirrored_stored.
    + now rewrite (save_rollback task s name message F).
  - intros l.
    destruct (write_verdict s (List.fold_left (fun a task => Map_set (id task) task a) l
                                              (tasks (repo s))))
      as [W|(name & message & F)].
    + rewrite (saveMany_succeeds l s W). apply mirrored_stored.
    + now rewrite (saveMany_rollback l s name message F).
  - intros ids. destruct (deleteMany_outcome ids s) as [->|(m & ->)];
      [exact Mi | apply mirrored_stored].
  - destruct (tasks (repo s)) as [|kv m] eqn:Em.
    + unfold TaskRepository.clear. run_monad. now rewrite Em.
    + destruct (write_verdict s []) as [W|(name & message & F)].
      * rewrite clear_succeeds by (trivial; congruence). apply mirrored_stored.
      * rewrite (clear_rollback s name message F) by congruence. exact Mi.
  - intros text.
    destruct (TaskRepository.import text s) as [[n|e] s'] eqn:E; simpl.
    + destruct (import_returns text n s s' E) as (_ & tempMap & s1 & _ & _ & _ & _ & ->).
      apply mirrored_stored.
    + destruct (import_rollback text s s' e E) as (_ & T & I).
      apply (mirrored_same s s'); auto.
      generalize (own_entry_import text s). now rewrite E.
  - intros i b s' E.
    destruct (Map_get i (tasks (repo s))) as [t|] eqn:G.
    + destruct (write_verdict s (Map_delete i (tasks (repo s))))
        as [W|(name & message & F)].
      * rewrite (delete_succeeds i t s G W) in E. injection E as _ <-.
        apply mirrored_stored.
      * revert E. unfold TaskRepository.delete. run_monad. simpl. rewrite G. simpl.
        rewrite (persist_fails (set_tasks _ s) name message F). discriminate.
    + assert (H : Map_has i (tasks (repo s)) = false) by (rewrite Map_has_get; now rewrite G).
      rewrite (delete_absent i s H) in E. now injection E as _ <-.
Qed.

Lemma storage_mirrors_map_witness :
  mirrored (snd (TaskRepository.save task_a
                   (stored sample_map (set_tasks sample_map
                                                 (sample_state quota_exhausted []))))).
Proof.
  refine (proj1 (storage_mirrors_map
                   (stored sample_map (set_tasks sample_map
                                                 (sample_state quota_exhausted [])))
                   (mirrored_stored sample_map (sample_state quota_exhausted []))) task_a).
Defined.

(** ** The commands of the service *)

(** [createTask].  A title that is not acceptable makes it throw the
    validation error itself, with nothing changed.  For an acceptable title
    the task has a fresh random id, the trimmed title, the current time, is
    not completed and has order 0, and the call is one [save] of it; when the
    write succeeds the task is found under its id and the storage entry holds
    the text of the map, and when the write is rejected the error is that of
    [save] and only the random draw is consumed. *)
Theorem createTask_result (newTitle : JSValue) (s : State) :
  let created :=
    {| id := JStr (uuid_string (crypto_entropy (globals s) (crypto_drawn (globals s))));
       title := trim (Task.string_of newTitle);
       completed := false;
       createdAt := JNum (Z.pos (Date_now (globals s)));
       order := JNum 0 |} in
  let drawn := set_drawn (S (crypto_drawn (globals s))) s in
  (title_accepted newTitle = false ->
   exists e,
     TaskService.createTask TaskRepository_instance newTitle s = (Throw e, s) /\
     (e = Error_title_required \/ e = Error_title_empty \/ e = Error_title_too_long)) /\
  (title_accepted newTitle = true ->
   Task_valid created /\
   TaskService.createTask TaskRepository_instance newTitle s
   = TaskRepository.save created drawn /\
   (Repo_valid (tasks (repo s)) ->
    write_succeeds drawn (Map_set (id created) created (tasks (repo s))) ->
    exists s',
      TaskService.createTask TaskRepository_instance newTitle s = (Return created, s') /\
      TaskRepository.findById (id created) s' = (Return (Some created), s') /\
      mirrored s') /\
   (forall name message,
      write_fails drawn (Map_set (id created) created (tasks (repo s))) name message ->
      TaskService.createTask TaskRepository_instance newTitle s
      = (Throw (Error_save (persist_error name message)), drawn))).
Proof.
  cbv zeta. split.
  - intros H. unfold TaskService.createTask. unfold bind at 1.
    rewrite (new_defined (JObj [("title", newTitle)])) by discriminate.
    unfold bind at 1.
    change (get_prop (JObj [("title", newTitle)]) "title") with newTitle.
    destruct (validateTitle_rejected newTitle s H) as (e & -> & Hcase).
    now exists e.
  - intros H.
    set (created := {| id := JStr (uuid_string (crypto_entropy (globals s)
                                                               (crypto_drawn (globals s))));
                       title := trim (Task.string_of newTitle);
                       completed := false;
                       createdAt := JNum (Z.pos (Date_now (globals s)));
                       order := JNum 0 |}).
    set (drawn := set_drawn (S (crypto_drawn (globals s))) s).
    assert (V : Task_valid created).
    { split; [now apply title_accepted_ok|]. split; [apply truthy_uuid|]. now split. }
    assert (E : TaskService.createTask TaskRepository_instance newTitle s
                = TaskRepository.save created drawn).
    { unfold TaskService.createTask. unfold bind at 1.
      now rewrite (new_object [("title", newTitle)] s H). }
    split; [exact V|]. split; [exact E|]. split.
    + intros Vm W. rewrite E.
      exists (stored (Map_set (id created) created (tasks (repo s)))
                     (set_tasks (Map_set (id created) created (tasks (repo s))) drawn)).
      split; [exact (save_succeeds created drawn W)|].
      split; [|apply mirrored_stored].
      rewrite findById_valid by (rewrite stored_tasks; now apply Repo_valid_set).
      rewrite stored_tasks. now rewrite Map_get_set_same.
    + intros name message F. rewrite E. exact (save_rollback created drawn name message F).
Qed.

(** The commands check that the id exists, the queries do not.  For an id
    the repository does not hold, [updateTask], [toggleTaskCompletion] and
    [deleteTask] throw the not-found error, unwrapped and before looking at
    their other arguments, and change nothing, whereas [getTaskById] returns
    [null] and [delete] of the repository returns [false].  For an id it
    holds, [deleteTask] is [delete], [toggleTaskCompletion] is one [save] of
    the stored task with its completion negated, and [updateTask] with
    [null] or [undefined] for the updates throws the wrapped TypeError of the
    property read, without a write. *)
Theorem commands_check_existence (taskId : JSValue) (s : State) :
  Repo_valid (tasks (repo s)) ->
  (Map_has taskId (tasks (repo s)) = false ->
   (forall updates,
      TaskService.updateTask TaskRepository_instance taskId updates s
      = (Throw (Error_not_found taskId), s)) /\
   TaskService.toggleTaskCompletion TaskRepository_instance taskId s
   = (Throw (Error_not_found taskId), s) /\
   TaskService.deleteTask TaskRepository_instance taskId s
   = (Throw (Error_not_found taskId), s) /\
   TaskService.getTaskById TaskRepository_instance taskId s = (Return None, s) /\
   TaskRepository.delete taskId s = (Return false, s)) /\
  (forall t, Map_get taskId (tasks (repo s)) = Some t ->
   TaskService.deleteTask TaskRepository_instance taskId s
   = TaskRepository.delete taskId s /\
   TaskService.toggleTaskCompletion TaskRepository_instance taskId s
   = TaskRepository.save {| id := id t; title := title t;
                            completed := negb (completed t);
                            createdAt := createdAt t; order := order t |} s /\
   TaskService.getTaskById TaskRepository_instance taskId s = (Return (Some t), s) /\
   TaskService.updateTask TaskRepository_instance taskId JNull s
   = (Throw (Error_update TypeError_read_property), s) /\
   TaskService.updateTask TaskRepository_instance taskId JUndefined s
   = (Throw (Error_update TypeError_read_property), s)).
Proof.
  intros V. split.
  - intros H. assert (G : Map_get taskId (tasks (repo s)) = None).
    { rewrite Map_has_get in H. now destruct (Map_get taskId (tasks (repo s))). }
    split; [|split; [|split; [|split]]].
    + intros updates. unfold TaskService.updateTask. unfold bind at 1.
      now rewrite (ensureTaskExists_missing taskId s V H).
    + unfold TaskService.toggleTaskCompletion. unfold bind at 1.
      now rewrite (ensureTaskExists_missing taskId s V H).
    + unfold TaskService.deleteTask. unfold bind at 1.
      now rewrite (ensureTaskExists_missing taskId s V H).
    + unfold TaskService.getTaskById. call_instance.
      now rewrite (findById_valid taskId s V), G.
    + now apply delete_absent.
  - intros t G. destruct (Repo_valid_get _ _ _ V G) as [Vt _].
    split; [|split; [|split; [|split]]].
    + unfold TaskService.deleteTask. unfold bind at 1.
      now rewrite (ensureTaskExists_found taskId t s V G).
    + unfold TaskService.toggleTaskCompletion. unfold bind at 1.
      rewrite (ensureTaskExists_found taskId t s V G). unfold bind at 1.
      now rewrite (toggleCompleted_valid t s Vt).
    + unfold TaskService.getTaskById. call_instance.
      now rewrite (findById_valid taskId s V), G.
    + unfold TaskService.updateTask. unfold bind at 1.
      now rewrite (ensureTaskExists_found taskId t s V G).
    + unfold TaskService.updateTask. unfold bind at 1.
      now rewrite (ensureTaskExists_found taskId t s V G).
Qed.

Lemma commands_check_existence_witness :
  TaskService.deleteTask TaskRepository_instance (JStr "z")
                         (sample_state accepts_all sample_map)
  = (Throw (Error_not_found (JStr "z")), sample_state accepts_all sample_map) /\
  TaskRepository.delete (JStr "z") (sample_state accepts_all sample_map)
  = (Return false, sample_state accepts_all sample_map).
Proof.
  destruct (proj1 (commands_check_existence (JStr "z")
                     (sample_state accepts_all sample_map) sample_map_valid) eq_refl)
    as (_ & _ & D & _ & R).
  split; [exact D | exact R].
Defined.

(** Toggling a task twice restores the collection.  In a storage that
    accepts every write, [toggleTaskCompletion] returns the stored task with
    its completion negated, and a second call returns the task as it was and
    leaves the map exactly as it was before the first, order included. *)
Theorem toggle_twice_restores (taskId : JSValue) (t : Task) (s : State) :
  Repo_valid (tasks (repo s)) ->
  Map_get taskId (tasks (repo s)) = Some t ->
  (forall key value, localStorage_fault (globals s) key value = None) ->
  exists t1 s1 s2,
    TaskService.toggleTaskCompletion TaskRepository_instance taskId s = (Return t1, s1) /\
    completed t1 = negb (completed t) /\
    TaskRepository.findById taskId s1 = (Return (Some t1), s1) /\
    TaskService.toggleTaskCompletion TaskRepository_instance taskId s1 = (Return t, s2) /\
    tasks (repo s2) = tasks (repo s) /\
    mirrored s2.
Proof.
  intros V G Ok. destruct (Repo_valid_get _ _ _ V G) as [Vt Hid].
  set (t1 := {| id := id t; title := title t; completed := negb (completed t);
                createdAt := createdAt t; order := order t |}).
  assert (V1 : Task_valid t1) by now apply Task_valid_fields; try apply Vt.
  set (m1 := Map_set (id t1) t1 (tasks (repo s))).
  assert (Vm1 : Repo_valid m1) by now apply Repo_valid_set.
  set (s1 := stored m1 (set_tasks m1 s)).
  assert (E1 : TaskService.toggleTaskCompletion TaskRepository_instance taskId s
               = (Return t1, s1)).
  { unfold TaskService.toggleTaskCompletion. unfold bind at 1.
    rewrite (ensureTaskExists_found taskId t s V G). unfold bind at 1.
    rewrite (toggleCompleted_valid t s Vt). call_instance.
    apply save_succeeds. apply Ok. }
  assert (G1 : Map_get taskId (tasks (repo s1)) = Some t1).
  { unfold s1. rewrite stored_tasks. unfold m1. simpl id. rewrite Hid.
    apply Map_get_set_same. }
  assert (Back : {| id := id t1; title := title t1; completed := negb (completed t1);
                    createdAt := createdAt t1; order := order t1 |} = t).
  { simpl. rewrite negb_involutive. now destruct t. }
  set (m2 := Map_set (id t) t (tasks (repo s1))).
  exists t1, s1, (stored m2 (set_tasks m2 s1)).
  split; [exact E1|]. split; [reflexivity|].
  split; [rewrite findById_valid by exact Vm1; now rewrite G1|].
  split; [|split; [|apply mirrored_stored]].
  - unfold TaskService.toggleTaskCompletion. unfold bind at 1.
    rewrite (ensureTaskExists_found taskId t1 s1 Vm1 G1). unfold bind at 1.
    rewrite (toggleCompleted_valid t1 s1 V1). rewrite Back. call_instance.
    apply save_succeeds. apply Ok.
  - rewrite stored_tasks. unfold m2, s1. rewrite stored_tasks. unfold m1. simpl id.
    rewrite Hid. now apply Map_set_restore.
Qed.

Lemma toggle_twice_restores_witness :
  exists t1 s1 s2,
    TaskService.toggleTaskCompletion TaskRepository_instance (JStr "b")
                                     (sample_state accepts_all sample_map)
    = (Return t1, s1) /\
    TaskService.toggleTaskCompletion TaskRepository_instance (JStr "b") s1
    = (Return task_b, s2) /\
    tasks (repo s2) = sample_map.
Proof.
  destruct (toggle_twice_restores (JStr "b") task_b (sample_state accepts_all sample_map)
              sample_map_valid eq_refl (fun _ _ => eq_refl))
    as (t1 & s1 & s2 & E1 & _ & _ & E2 & T & _).
  exists t1, s1, s2. split; [exact E1|]. split; [exact E2 | exact T].
Defined.








Lemma reorder_map_present (entries : list (JSValue * JSValue)) (s : State) :
  Repo_valid (tasks (repo s)) ->
  (forall e, In e entries -> Map_has (fst e) (tasks (repo s)) = true) ->
  exists l,
    mapM reorder_step (List.map reorder_entry entries) s = (Return l, s) /\
    List.map Some l = List.map (reorder_target (tasks (repo s))) entries /\
    Forall Task_valid l.
Proof.
  intros V. induction entries as [|[i o] entries IH]; intros Hall.
  - exists []. repeat split. constructor.
  - destruct IH as (l & E & Hl & Fl); [intros e Hin; apply Hall; now right|].
    assert (Hi := Hall (i, o) (or_introl eq_refl)). simpl in Hi.
    rewrite Map_has_get in Hi.
    destruct (Map_get i (tasks (repo s))) as [t|] eqn:G; [|discriminate].
    destruct (Repo_valid_get _ _ _ V G) as [Vt _].
    exists ({| id := id t; title := title t; completed := completed t;
               createdAt := createdAt t; order := with_default o (JNum 0) |} :: l).
    split; [|split].
    + simpl List.map. simpl mapM. unfold bind. simpl get_prop.
      rewrite (ensureTaskExists_found i t s V G).
      rewrite (updateOrder_valid t o s Vt).
      now rewrite E.
    + cbn [List.map]. rewrite Hl. unfold reorder_target at 2. cbn [fst snd].
      now rewrite G.
    + constructor; [|exact Fl].
      apply Task_valid_fields; [exact Vt | apply Vt | apply with_default_defined].
Qed.

Lemma reorder_target_id (m : TaskMap) (e : JSValue * JSValue) (t : Task) :
  Forall (fun kv => fst kv = id (snd kv)) m ->
  reorder_target m e = Some t -> id t = fst e /\ Map_has (fst e) m = true.
Proof.
  intros K. unfold reorder_target. rewrite Map_has_get.
  destruct (Map_get (fst e) m) as [t0|] eqn:G; [|discriminate].
  intros [= <-]. split; [|reflexivity]. simpl.
  apply Map_get_In in G. rewrite Forall_forall in K. symmetry. exact (K _ G).
Qed.

Lemma find_targets (m : TaskMap) (i : JSValue) (l : list Task)
      (entries : list (JSValue * JSValue)) :
  Forall (fun kv => fst kv = id (snd kv)) m ->
  List.map Some l = List.map (reorder_target m) entries ->
  List.find (fun t => JSValue_eqb (id t) i) l
  = match List.find (fun e => JSValue_eqb (fst e) i) entries with
    | Some e => reorder_target m e
    | None => None
    end.
Proof.
  intros K. revert l. induction entries as [|e entries IH]; intros [|t l] H;
    try discriminate; [reflexivity|].
  cbn [List.map] in H. injection H as Ht Hl. cbn [List.find].
  destruct (reorder_target_id m e t K (eq_sym Ht)) as [Hid _].
  rewrite Hid. destruct (JSValue_eqb (fst e) i); [exact Ht|]. now apply IH.
Qed.

Lemma targets_present (m : TaskMap) (l : list Task) (entries : list (JSValue * JSValue)) :
  Forall (fun kv => fst kv = id (snd kv)) m ->
  List.map Some l = List.map (reorder_target m) entries ->
  forall t, In t l -> Map_has (id t) m = true.
Proof.
  intros K. revert l. induction entries as [|e entries IH]; intros [|t l] H;
    try discriminate; [now intros t []|].
  cbn [List.map] in H. injection H as Ht Hl.
  destruct (reorder_target_id m e t K (eq_sym Ht)) as [Hid Hhas].
  intros t' [<-|Hin]; [now rewrite Hid|]. now apply (IH l).
Qed.

Lemma fold_set_keys_present (l : list Task) (m : TaskMap) :
  (forall t, In t l -> Map_has (id t) m = true) ->
  List.map fst (List.fold_left (fun a task => Map_set (id task) task a) l m)
  = List.map fst m.
Proof.
  revert m. induction l as [|t l IH]; intros m H; cbn [List.fold_left]; [reflexivity|].
  rewrite IH.
  - rewrite Map_set_keys. now rewrite (H t (or_introl eq_refl)).
  - intros t' Hin. rewrite Map_has_set, (H t' (or_intror Hin)). apply orb_true_r.
Qed.

(** What [reorderTasks] does when every id of the list is stored and the
    write succeeds.  It returns the length of the list; a task whose id is in
    the list gets the order of the last entry of that id (0 for an order that
    is [undefined]) and keeps its other fields as they were stored before the
    call; the other tasks and the places of all tasks in [findAll] do not
    change; the storage entry holds the text of the new map. *)
Theorem reorderTasks_result (entries : list (JSValue * JSValue)) (s : State) :
  Repo_valid (tasks (repo s)) ->
  (forall e, In e entries -> Map_has (fst e) (tasks (repo s)) = true) ->
  (forall key value, localStorage_fault (globals s) key value = None) ->
  exists s' all all',
    TaskService.reorderTasks TaskRepository_instance (List.map reorder_entry entries) s
    = (Return (Z.of_nat (List.length entries)), s') /\
    (forall i,
       fst (TaskRepository.findById i s')
       = match last_entry i entries with
         | Some e => Return (reorder_target (tasks (repo s)) e)
         | None => fst (TaskRepository.findById i s)
         end) /\
    TaskRepository.findAll s = (Return all, s) /\
    TaskRepository.findAll s' = (Return all', s') /\
    List.map id all' = List.map id all /\
    mirrored s'.
Proof.
  intros V Hall Ok. assert (K := Repo_valid_keys _ V).
  destruct (reorder_map_present entries s V Hall) as (l & E & Hl & Fl).
  set (m := List.fold_left (fun a task => Map_set (id task) task a) l (tasks (repo s))).
  assert (V' : Repo_valid m) by now apply fold_set_valid.
  exists (stored m (set_tasks m s)), (Map_values (tasks (repo s))), (Map_values m).
  split.
  { unfold TaskService.reorderTasks. unfold bind at 1.
    change (mapM _ (List.map reorder_entry entries) s)
      with (mapM reorder_step (List.map reorder_entry entries) s).
    rewrite E. call_instance. rewrite (saveMany_succeeds l s) by apply Ok.
    f_equal. f_equal. f_equal.
    rewrite <- (List.length_map Some l), Hl. apply List.length_map. }
  split.
  { intros i. rewrite (findById_valid i s V), findById_valid by exact V'.
    rewrite stored_tasks. cbn [fst]. unfold m. rewrite fold_set_get.
    unfold last_with_id, last_entry.
    rewrite (find_targets (tasks (repo s)) i (List.rev l) (List.rev entries) K)
      by (rewrite !List.map_rev; now rewrite Hl).
    destruct (List.find _ (List.rev entries)) as [e|] eqn:F; [|reflexivity].
    assert (Hin : In e entries).
    { apply List.find_some in F. apply List.in_rev. apply F. }
    specialize (Hall e Hin). rewrite Map_has_get in Hall. unfold reorder_target.
    now destruct (Map_get (fst e) (tasks (repo s))). }
  split; [now apply findAll_valid|].
  split; [now apply findAll_valid|].
  split; [|apply mirrored_stored].
  rewrite (Repo_valid_ids _ V), (Repo_valid_ids _ V'). unfold m.
  apply fold_set_keys_present. exact (targets_present _ l entries K Hl).
Qed.

Lemma reorderTasks_result_witness :
  exists s',
    TaskService.reorderTasks TaskRepository_instance
      (List.map reorder_entry [(JStr "c", JNum 7); (JStr "a", JUndefined);
                               (JStr "c", JNum 9)])
      (sample_state accepts_all sample_map)
    = (Return 3, s') /\
    fst (TaskRepository.findById (JStr "c") s')
    = Return (Some {| id := JStr "c"; title := "Read"; completed := false;
                      createdAt := JNum 1700000000002; order := JNum 9 |}).
Proof.
  destruct (reorderTasks_result
              [(JStr "c", JNum 7); (JStr "a", JUndefined); (JStr "c", JNum 9)]
              (sample_state accepts_all sample_map) sample_map_valid)
    as (s' & all & all' & E & F & _).
  - intros e [<-|[<-|[<-|[]]]]; reflexivity.
  - reflexivity.
  - exists s'. split; [exact E|]. exact (F (JStr "c")).
Defined.

(** ** The constructor of [Task], case by case *)

(** [constructible] decides the constructor.  On [null], on [undefined] and
    on a record whose title [#validateTitle] rejects, the constructor throws
    (a TypeError of the destructuring, or the validation error) before
    anything is generated: the world is untouched.  On every other record it
    returns a Task that satisfies the class invariant, whose [completed] is
    the truthiness of the field given (so the string [false] counts as
    completed), whose order is the field given (0 when it is [undefined]),
    and whose id is the one given when that is truthy; at most one random id
    is drawn. *)
Theorem constructor_decides (data : JSValue) (s : State) :
  (constructible data = false ->
   exists e,
     Task.new data s = (Throw e, s) /\
     (e = TypeError_destructure \/ e = Error_title_required \/
      e = Error_title_empty \/ e = Error_title_too_long)) /\
  (constructible data = true ->
   exists t s',
     Task.new data s = (Return t, s') /\
     Task_valid t /\
     title t = trim (Task.string_of (get_prop data "title")) /\
     completed t = truthy (with_default (get_prop data "completed") (JBool false)) /\
     order t = with_default (get_prop data "order") (JNum 0) /\
     (truthy (get_prop data "id") = true -> id t = get_prop data "id" /\ s' = s) /\
     (s' = s \/ s' = set_drawn (S (crypto_drawn (globals s))) s)).
Proof.
  split; [apply new_rejected|].
  intros C.
  assert (Defined : data <> JUndefined /\ data <> JNull /\
                    title_accepted (get_prop data "title") = true).
  { destruct data; try discriminate; (split; [|split]); try discriminate; exact C. }
  destruct Defined as (N1 & N2 & Ht).
  destruct (new_constructible data s C) as (t & s' & E).
  exists t, s'. split; [exact E|]. split; [exact (new_valid data s s' t E)|].
  revert E. rewrite (new_defined data N1 N2). unfold bind.
  rewrite (validateTitle_accepted _ s Ht).
  assert (Hid : truthy (get_prop data "id") = true ->
                with_default (get_prop data "id") JNull = get_prop data "id")
    by apply truthy_defined.
  destruct (truthy (with_default (get_prop data "id") JNull)) eqn:Ti;
    destruct (truthy (with_default (get_prop data "createdAt") JNull));
    unfold ret, Task.generateId, crypto_randomUUID, Date_dot_now;
    intros [= <- <-]; cbn [id title completed createdAt order];
    (split; [reflexivity|]); (split; [reflexivity|]); (split; [reflexivity|]);
    (split; [intros Hi; rewrite (Hid Hi) in *;
             first [congruence | split; reflexivity]|]);
    auto.
Qed.

(** ** Every failure, read backwards *)



